(** * Relaunch policy, event pipeline and early stop of the distributed
      job manager

    A shallow embedding of
    [dlrover/python/master/node/dist_job_manager.py]: the node store, the
    event pipeline ([_process_event]), the relaunch policy
    ([_should_relaunch], [_relaunch_node]), the heartbeat monitor
    ([_get_dead_node_event], [_monitor_node_heart_beat],
    [collect_node_heart_beat]), the diagnosis path ([_process_node_action]),
    the early-stop detector ([should_early_stop]) and the facade operations
    that read or mutate nodes ([stop], [clear_all_nodes],
    [clear_exited_nodes], [remove_training_nodes],
    [all_critical_node_completed], [update_node_service_addr],
    [process_reported_node_event]).

    Python objects are records, [Dict[str, Dict[int, Node]]] is a nested
    [gmap], mutation of the manager is explicit state passing, and calls
    into collaborators that act on the outside world (scaler, event
    reporter, optimizer, callbacks, cluster client, performance monitor,
    error path) are recorded, in the order they are made, in the manager
    state. Code that the manager imports and that is not in its file
    ([Node.update_info], the state-flow table, the node managers, the
    detectors) is a parameter of the section of the methods. *)

From Stdlib Require Import ZArith Lia.
From stdpp Require Import gmap strings list fin_maps pretty.

Local Open Scope Z_scope.

(** ** Constants

    Modelled from the spec: the constants module
    ([dlrover.python.common.constants]) is imported by the manager, its
    values are not in the manager's file; every constant the manager compares
    against is a distinct constructor of an enumeration. *)

Module NodeType.
Inductive t := WORKER | PS | CHIEF | EVALUATOR | MASTER.
#[global] Instance eq_dec : EqDecision t.
Proof. solve_decision. Defined.
Definition to_nat (x : t) : nat :=
  match x with
  | WORKER => 0 | PS => 1 | CHIEF => 2 | EVALUATOR => 3 | MASTER => 4
  end%nat.
Definition of_nat (n : nat) : option t :=
  match n with
  | 0 => Some WORKER | 1 => Some PS | 2 => Some CHIEF
  | 3 => Some EVALUATOR | 4 => Some MASTER | _ => None
  end%nat.
#[global] Instance countable : Countable t.
Proof. apply (inj_countable to_nat of_nat). intros []; reflexivity. Defined.
End NodeType.

Module NodeStatus.
Inductive t :=
  INITIAL | PENDING | RUNNING | SUCCEEDED | FAILED | FINISHED | DELETED
| UNKNOWN.
#[global] Instance eq_dec : EqDecision t.
Proof. solve_decision. Defined.
End NodeStatus.

Module NodeEventType.
(** [EXIT] is the literal ["exit"] that [_process_event] compares with. *)
Inductive t :=
  ADDED | MODIFIED | DELETED | ERROR | EXIT
| SUCCEEDED_EXITED | FAILED_EXITED | NODE_CHECK_SUCCEEDED | NODE_CHECK_FAILED.
#[global] Instance eq_dec : EqDecision t.
Proof. solve_decision. Defined.
End NodeEventType.

Module NodeExitReason.
Inductive t :=
  FATAL_ERROR | OOM | KILLED | NO_HEARTBEAT | DIAG_FAIL | RELAUNCHED
| UNKNOWN_ERROR.
#[global] Instance eq_dec : EqDecision t.
Proof. solve_decision. Defined.
End NodeExitReason.

Module JobStage.
Inductive t := JOB_INIT | JOB_RUNNING | JOB_STOPPING | JOB_STOPPED.
#[global] Instance eq_dec : EqDecision t.
Proof. solve_decision. Defined.
End JobStage.

Module DistributionStrategy.
(** The constructor of the manager raises [ValueError] for any other
    strategy, so a manager exists only for these three. *)
Inductive t := PS | CUSTOM | ALLREDUCE.
#[global] Instance eq_dec : EqDecision t.
Proof. solve_decision. Defined.
End DistributionStrategy.

Module JobExitReason.
Inductive t := NODE_CHECK_FAILED | PENDING_TIMEOUT | UNCOMPLETED_TIMEOUT.
#[global] Instance eq_dec : EqDecision t.
Proof. solve_decision. Defined.
End JobExitReason.



(** ** Nodes

    Modelled from the spec: the [Node] class ([dlrover.python.common.node])
    is imported by the manager, its body is not in the manager's file. The
    record has the attributes of
    spec section 3 that the manager reads or writes; times are seconds
    ([datetime.timestamp()]), [None] is [None]. Only the declared memory of
    a node resource is read by the manager. *)

Record NodeResource := { memory : Z }.

#[global] Instance NodeResource_eq_dec : EqDecision NodeResource.
Proof. solve_decision. Defined.

Module Node.
Record t := mk {
  type : NodeType.t;
  id : Z;
  name : string;
  rank_index : Z;
  status : NodeStatus.t;
  exit_reason : option NodeExitReason.t;
  relaunch_count : Z;
  max_relaunch_count : Z;
  relaunchable : bool;
  is_released : bool;
  critical : bool;
  is_recovered_oom : bool;
  create_time : option Z;
  start_time : option Z;
  heartbeat_time : Z;
  reported_status : option NodeEventType.t;
  config_resource : NodeResource;
  host_name : string;
  host_ip : string;
  restart_training : bool;
  service_addr : string;
  eval_time : Z
}.

#[global] Instance eq_dec : EqDecision t.
Proof. solve_decision. Defined.

(** Attribute assignments [node.x = v]. *)
Definition set_status (v : NodeStatus.t) (n : t) : t :=
  mk (type n) (id n) (name n) (rank_index n) v (exit_reason n)
     (relaunch_count n) (max_relaunch_count n) (relaunchable n)
     (is_released n) (critical n) (is_recovered_oom n) (create_time n)
     (start_time n) (heartbeat_time n) (reported_status n)
     (config_resource n) (host_name n) (host_ip n) (restart_training n)
     (service_addr n) (eval_time n).
Definition set_exit_reason (v : option NodeExitReason.t) (n : t) : t :=
  mk (type n) (id n) (name n) (rank_index n) (status n) v (relaunch_count n)
     (max_relaunch_count n) (relaunchable n) (is_released n) (critical n)
     (is_recovered_oom n) (create_time n) (start_time n) (heartbeat_time n)
     (reported_status n) (config_resource n) (host_name n) (host_ip n)
     (restart_training n) (service_addr n) (eval_time n).
Definition set_relaunch_count (v : Z) (n : t) : t :=
  mk (type n) (id n) (name n) (rank_index n) (status n) (exit_reason n) v
     (max_relaunch_count n) (relaunchable n) (is_released n) (critical n)
     (is_recovered_oom n) (create_time n) (start_time n) (heartbeat_time n)
     (reported_status n) (config_resource n) (host_name n) (host_ip n)
     (restart_training n) (service_addr n) (eval_time n).
Definition set_relaunchable (v : bool) (n : t) : t :=
  mk (type n) (id n) (name n) (rank_index n) (status n) (exit_reason n)
     (relaunch_count n) (max_relaunch_count n) v (is_released n)
     (critical n) (is_recovered_oom n) (create_time n) (start_time n)
     (heartbeat_time n) (reported_status n) (config_resource n)
     (host_name n) (host_ip n) (restart_training n) (service_addr n)
     (eval_time n).
Definition set_is_released (v : bool) (n : t) : t :=
  mk (type n) (id n) (name n) (rank_index n) (status n) (exit_reason n)
     (relaunch_count n) (max_relaunch_count n) (relaunchable n) v
     (critical n) (is_recovered_oom n) (create_time n) (start_time n)
     (heartbeat_time n) (reported_status n) (config_resource n)
     (host_name n) (host_ip n) (restart_training n) (service_addr n)
     (eval_time n).
Definition set_critical (v : bool) (n : t) : t :=
  mk (type n) (id n) (name n) (rank_index n) (status n) (exit_reason n)
     (relaunch_count n) (max_relaunch_count n) (relaunchable n)
     (is_released n) v (is_recovered_oom n) (create_time n) (start_time n)
     (heartbeat_time n) (reported_status n) (config_resource n)
     (host_name n) (host_ip n) (restart_training n) (service_addr n)
     (eval_time n).
Definition set_is_recovered_oom (v : bool) (n : t) : t :=
  mk (type n) (id n) (name n) (rank_index n) (status n) (exit_reason n)
     (relaunch_count n) (max_relaunch_count n) (relaunchable n)
     (is_released n) (critical n) v (create_time n) (start_time n)
     (heartbeat_time n) (reported_status n) (config_resource n)
     (host_name n) (host_ip n) (restart_training n) (service_addr n)
     (eval_time n).
Definition set_heartbeat_time (v : Z) (n : t) : t :=
  mk (type n) (id n) (name n) (rank_index n) (status n) (exit_reason n)
     (relaunch_count n) (max_relaunch_count n) (relaunchable n)
     (is_released n) (critical n) (is_recovered_oom n) (create_time n)
     (start_time n) v (reported_status n) (config_resource n) (host_name n)
     (host_ip n) (restart_training n) (service_addr n) (eval_time n).
Definition set_reported_status (v : option NodeEventType.t) (n : t) : t :=
  mk (type n) (id n) (name n) (rank_index n) (status n) (exit_reason n)
     (relaunch_count n) (max_relaunch_count n) (relaunchable n)
     (is_released n) (critical n) (is_recovered_oom n) (create_time n)
     (start_time n) (heartbeat_time n) v (config_resource n) (host_name n)
     (host_ip n) (restart_training n) (service_addr n) (eval_time n).
Definition set_config_resource (v : NodeResource) (n : t) : t :=
  mk (type n) (id n) (name n) (rank_index n) (status n) (exit_reason n)
     (relaunch_count n) (max_relaunch_count n) (relaunchable n)
     (is_released n) (critical n) (is_recovered_oom n) (create_time n)
     (start_time n) (heartbeat_time n) (reported_status n) v (host_name n)
     (host_ip n) (restart_training n) (service_addr n) (eval_time n).
Definition set_service_addr (v : string) (n : t) : t :=
  mk (type n) (id n) (name n) (rank_index n) (status n) (exit_reason n)
     (relaunch_count n) (max_relaunch_count n) (relaunchable n)
     (is_released n) (critical n) (is_recovered_oom n) (create_time n)
     (start_time n) (heartbeat_time n) (reported_status n)
     (config_resource n) (host_name n) (host_ip n) (restart_training n) v
     (eval_time n).
Definition set_eval_time (v : Z) (n : t) : t :=
  mk (type n) (id n) (name n) (rank_index n) (status n) (exit_reason n)
     (relaunch_count n) (max_relaunch_count n) (relaunchable n)
     (is_released n) (critical n) (is_recovered_oom n) (create_time n)
     (start_time n) (heartbeat_time n) (reported_status n)
     (config_resource n) (host_name n) (host_ip n) (restart_training n)
     (service_addr n) v.

(** Modelled from the spec: [Node.update_status], [Node.set_exit_reason],
    [Node.update_reported_status] and [Node.update_service_address] are
    methods of the imported [Node] class; each records its argument in the attribute
    it is named after ([reported_status] is "the last status pushed by the
    training agent"). *)
Definition update_status (v : NodeStatus.t) (n : t) : t := set_status v n.
Definition update_reported_status (v : NodeEventType.t) (n : t) : t :=
  set_reported_status (Some v) n.
Definition update_service_address (v : string) (n : t) : t :=
  set_service_addr v n.

(** Modelled from the spec: [Node.is_succeeded_and_exited] is a method of the
    imported [Node] class; a node has succeeded and exited when the training
    agent reported [SUCCEEDED_EXITED] for it. *)
Definition is_succeeded_and_exited (n : t) : bool :=
  bool_decide (reported_status n = Some NodeEventType.SUCCEEDED_EXITED).

End Node.

Record NodeEvent := { event_type : NodeEventType.t; node : Node.t }.

(** A transition of the node state machine, as [_process_event] and
    [_should_relaunch] read it. *)
Record NodeStateFlow := {
  from_status : NodeStatus.t;
  to_status : NodeStatus.t;
  should_relaunch : bool
}.

(** ** Scale plans and the cluster view *)

Record NodeGroupResource := { count : Z; node_resource : NodeResource }.

Record ScalePlan := {
  node_group_resources : gmap NodeType.t NodeGroupResource;
  launch_nodes : list Node.t;
  remove_nodes : list Node.t;
  ps_addrs : list string
}.

(** [ScalePlan()] *)
Definition new_ScalePlan : ScalePlan :=
  {| node_group_resources := ∅; launch_nodes := []; remove_nodes := [];
     ps_addrs := [] |}.

(** The label dictionary built by [_get_pod_unique_labels]. *)
Record PodLabels := {
  JOB_KEY : string;
  REPLICA_TYPE_KEY : NodeType.t;
  RANK_INDEX_KEY : Z;
  REPLICA_INDEX_KEY : Z
}.

(** What [_process_event] reads of a pod: [pod.status.phase] and
    [pod.metadata.deletion_timestamp]. *)
Record Pod := { phase : NodeStatus.t; deletion_timestamp : option Z }.

(** The cluster client: [list_namespaced_pod] answers [None] or a pod list
    ([pods.items]). *)
Definition K8sClient := PodLabels -> option (list Pod).

(** ** The manager state *)

Record JobArgs := {
  job_name : string;
  distribution_strategy : DistributionStrategy.t
}.

(** The job context singleton: the node store and the job stage. *)
Record JobContext := {
  _job_nodes : gmap NodeType.t (gmap Z Node.t);
  _job_stage : JobStage.t
}.

Inductive EventAction := ACTION_NOT_RELAUNCH | ACTION_EARLY_STOP | ACTION_STOP.

Module TrainingExceptionLevel.
Inductive t := RDZV_ERROR | NODE_ERROR | ERROR.
#[global] Instance eq_dec : EqDecision t.
Proof. solve_decision. Defined.
End TrainingExceptionLevel.

Inductive Callback :=
  on_node_started | on_node_succeeded | on_node_failed | on_node_deleted.

(** Calls that leave the manager, in the order they are made. *)
Inductive Effect :=
| scaler_scale (plan : ScalePlan)
| adjust_oom_resource (node : Node.t)
| report_event (action : EventAction) (msg : string)
| report_node_status_change (node : Node.t) (old new : NodeStatus.t)
| report_node_relaunch (node new_node : Node.t)
| report_node_no_heartbeat (node : Node.t) (window_interval : Z)
| report_failed_node (node_id : Z)
| process_error (node : Node.t) (restart_count : Z) (error_data : string)
    (level : TrainingExceptionLevel.t)
| node_event_callback (cb : Callback) (node : Node.t)
| list_namespaced_pod (labels : PodLabels)
| perf_monitor_get_worker_eval_time (node_id : Z).

Record DistributedJobManager := {
  _job_args : JobArgs;
  _remove_exited_node : bool;
  _wait_pending_relaunch : bool;
  _enable_relaunch_node : bool;
  _pending_relaunch_count : Z;
  _stopped : bool;
  _job_context : JobContext;
  effects : list Effect
}.

Definition set_enable_relaunch_node (v : bool) (self : DistributedJobManager) :=
  {| _job_args := _job_args self;
     _remove_exited_node := _remove_exited_node self;
     _wait_pending_relaunch := _wait_pending_relaunch self;
     _enable_relaunch_node := v;
     _pending_relaunch_count := _pending_relaunch_count self;
     _stopped := _stopped self;
     _job_context := _job_context self;
     effects := effects self |}.

Definition set_pending_relaunch_count (v : Z) (self : DistributedJobManager) :=
  {| _job_args := _job_args self;
     _remove_exited_node := _remove_exited_node self;
     _wait_pending_relaunch := _wait_pending_relaunch self;
     _enable_relaunch_node := _enable_relaunch_node self;
     _pending_relaunch_count := v;
     _stopped := _stopped self;
     _job_context := _job_context self;
     effects := effects self |}.

Definition set_stopped (v : bool) (self : DistributedJobManager) :=
  {| _job_args := _job_args self;
     _remove_exited_node := _remove_exited_node self;
     _wait_pending_relaunch := _wait_pending_relaunch self;
     _enable_relaunch_node := _enable_relaunch_node self;
     _pending_relaunch_count := _pending_relaunch_count self;
     _stopped := v;
     _job_context := _job_context self;
     effects := effects self |}.

Definition set_job_context (v : JobContext) (self : DistributedJobManager) :=
  {| _job_args := _job_args self;
     _remove_exited_node := _remove_exited_node self;
     _wait_pending_relaunch := _wait_pending_relaunch self;
     _enable_relaunch_node := _enable_relaunch_node self;
     _pending_relaunch_count := _pending_relaunch_count self;
     _stopped := _stopped self;
     _job_context := v;
     effects := effects self |}.

Definition set_effects (v : list Effect) (self : DistributedJobManager) :=
  {| _job_args := _job_args self;
     _remove_exited_node := _remove_exited_node self;
     _wait_pending_relaunch := _wait_pending_relaunch self;
     _enable_relaunch_node := _enable_relaunch_node self;
     _pending_relaunch_count := _pending_relaunch_count self;
     _stopped := _stopped self;
     _job_context := _job_context self;
     effects := v |}.

(** ** Methods as state transformers

    A method either returns, raises a Python exception, or ends the process
    ([os._exit]); in each case the mutations made so far stay. *)

(** [KeyError] of a dictionary lookup, and the exceptions that
    [datetime.fromtimestamp] raises on a timestamp it cannot represent. *)
Inductive Exn := KeyError | OverflowError | OSError | ValueError.

Inductive Outcome (A : Type) :=
| Returns (a : A)
| Raises (e : Exn)
| Exits (code : Z).
Arguments Returns {A} a.
Arguments Raises {A} e.
Arguments Exits {A} code.

Definition M (A : Type) : Type :=
  DistributedJobManager -> Outcome A * DistributedJobManager.

Definition ret {A} (a : A) : M A := fun self => (Returns a, self).

Definition bind {A B} (m : M A) (k : A -> M B) : M B := fun self =>
  match m self with
  | (Returns a, self') => k a self'
  | (Raises e, self') => (Raises e, self')
  | (Exits c, self') => (Exits c, self')
  end.

Notation "'let*' x ':=' m 'in' k" := (bind m (fun x => k))
  (at level 10, x binder, k at level 200).
Notation "m ;; k" := (bind m (fun _ => k))
  (at level 100, k at level 200, right associativity).

Definition get_self : M DistributedJobManager :=
  fun self => (Returns self, self).
Definition modify (f : DistributedJobManager -> DistributedJobManager)
  : M unit := fun self => (Returns tt, f self).
Definition raise {A} (e : Exn) : M A := fun self => (Raises e, self).
Definition os_exit {A} (code : Z) : M A := fun self => (Exits code, self).
Definition call (e : Effect) : M unit :=
  modify (fun self => set_effects (effects self ++ [e]) self).

(** The plans handed to [self._scaler.scale] so far, oldest first. *)
Fixpoint scaled_plans (es : list Effect) : list ScalePlan :=
  match es with
  | [] => []
  | scaler_scale plan :: es => plan :: scaled_plans es
  | _ :: es => scaled_plans es
  end.

(** *** The job context

    Modelled from the spec: the job context ([JobContext], behind
    [get_job_context()] and [JobManager.get_job_nodes]) is imported by the
    manager. Spec section 4.2 gives the node store as a map from
    [(type, id)] to the node, with [job_node] the lookup ([None] when
    absent), [update_job_node] the write under the node's own type and id,
    and [update_job_stage] the write of the job stage. *)

Definition job_node (ctx : JobContext) (node_type : NodeType.t) (node_id : Z)
  : option Node.t :=
  _job_nodes ctx !! node_type ≫= (.!! node_id).

Definition update_job_node_ctx (n : Node.t) (ctx : JobContext) : JobContext :=
  {| _job_nodes :=
       <[Node.type n :=
           <[Node.id n := n]> (default ∅ (_job_nodes ctx !! Node.type n))]>
         (_job_nodes ctx);
     _job_stage := _job_stage ctx |}.

Definition update_job_stage_ctx (v : JobStage.t) (ctx : JobContext) : JobContext :=
  {| _job_nodes := _job_nodes ctx; _job_stage := v |}.

Definition update_job_node (n : Node.t) : M unit :=
  modify (fun self => set_job_context (update_job_node_ctx n (_job_context self)) self).

Definition update_job_stage (v : JobStage.t) : M unit :=
  modify (fun self => set_job_context (update_job_stage_ctx v (_job_context self)) self).

Definition get_job_stage (self : DistributedJobManager) : JobStage.t :=
  _job_stage (_job_context self).

Definition get_job_nodes (self : DistributedJobManager)
  : gmap NodeType.t (gmap Z Node.t) :=
  _job_nodes (_job_context self).

(** *** Module-level helpers *)

Definition is_positive_exit (exit_reason : option NodeExitReason.t) : bool :=
  if bool_decide (exit_reason = Some NodeExitReason.DIAG_FAIL
                  ∨ exit_reason = Some NodeExitReason.NO_HEARTBEAT)
  then true else false.

Definition is_all_reduce_type_job (self : DistributedJobManager) : bool :=
  bool_decide
    (distribution_strategy (_job_args self) = DistributionStrategy.ALLREDUCE).

Definition _report_event (action : EventAction) (msg : string) : M unit :=
  call (report_event action msg).

(** *** Diagnosis actions

    Modelled from the spec: the diagnosis actions
    ([dlrover.python.diagnosis.common.diagnosis_action]) are imported by the
    manager. Spec section 6 gives them as a tagged variant
    [{NoAction | EventAction{…} | NodeAction{…}}], where a [NodeAction]
    "carries target (type, id) to fail and relaunch"; the manager reads
    [action.node_type] and [action.node_id]. *)

Module NodeAction.
Record t := mk { node_type : NodeType.t; node_id : Z }.
End NodeAction.

Module DiagnosisAction.
Inductive t :=
| NoAction
| EventAction (event_action event_msg : string)
| NodeAction (action : NodeAction.t).
End DiagnosisAction.

(** ** The manager's methods *)

Section Manager.

(** [NodeResourceLimit.MAX_MEMORY], an imported constant; it stays a
    parameter. *)
Variable MAX_MEMORY : Z.

(** [_dlrover_context.relaunch_always], a setting of the global context. *)
Variable relaunch_always : bool.

(** Modelled from the spec: the job optimizer is an external collaborator of
    which "only its contract is used": on an OOM node it rewrites the node's
    declared resource ("call optimizer to raise memory"). The parameter
    gives the new declared resource. *)
Variable oom_resource : Node.t -> NodeResource.

Definition _job_optimizer_adjust_oom_resource (node : Node.t) : M Node.t :=
  call (adjust_oom_resource node);;
  ret (Node.set_config_resource (oom_resource node) node).

(** [_should_relaunch] mutates [node]; the model returns the node as it is
    after the call next to the boolean. *)
Definition _should_relaunch (node : Node.t) (status_change_flow : NodeStateFlow)
  : M (bool * Node.t) :=
  let* self := get_self in
  let should_relaunch0 :=
    should_relaunch status_change_flow
    && _enable_relaunch_node self
    && Node.relaunchable node in
  let* '(should_relaunch1, msg, node) :=
    (if should_relaunch0 then
       if bool_decide (get_job_stage self = JobStage.JOB_STOPPING) then
         ret (false, "Disable relaunch when job is stopping", node)
       else if bool_decide
                 (Node.exit_reason node = Some NodeExitReason.FATAL_ERROR)
               && negb relaunch_always then
         ret (false, "Disable relaunch due to fatal error", node)
       else if bool_decide
                 (Node.exit_reason node = Some NodeExitReason.RELAUNCHED) then
         ret (false, "Disable relaunch due to already relaunched", node)
       else if bool_decide (Node.exit_reason node = Some NodeExitReason.OOM) then
         let mem := memory (Node.config_resource node) in
         if is_all_reduce_type_job self then
           ret (false, "", node)
         else if bool_decide (MAX_MEMORY <= mem) then
           ret (false, pretty mem +:+ " beyond " +:+ pretty MAX_MEMORY, node)
         else if bool_decide
                   (Node.max_relaunch_count node <= Node.relaunch_count node) then
           ret (false,
                 "Relaunched " +:+ pretty (Node.relaunch_count node)
                 +:+ " beyond " +:+ pretty (Node.max_relaunch_count node),
                 node)
         else
           let* node := _job_optimizer_adjust_oom_resource
                          (Node.set_is_recovered_oom true node) in
           ret (true, "", node)
       else if bool_decide
                 (Node.exit_reason node ≠ Some NodeExitReason.KILLED) then
         if bool_decide
              (Node.max_relaunch_count node <= Node.relaunch_count node) then
           ret (false,
                 pretty (Node.relaunch_count node) +:+ " exhausted "
                 +:+ pretty (Node.max_relaunch_count node),
                 node)
         else ret (true, "", node)
       else ret (true, "", node)
     else ret (false, "", node)) : M (bool * string * Node.t) in
  let node :=
    if should_relaunch1
    then Node.set_relaunch_count (Node.relaunch_count node + 1) node
    else node in
  (if negb should_relaunch1 && bool_decide (0 < String.length msg)%nat
   then _report_event ACTION_NOT_RELAUNCH msg
   else ret tt);;
  ret (should_relaunch1, node).

(** *** Collaborators of the event pipeline

    Modelled from the spec: the state-flow table
    ([dlrover.python.master.node.status_flow]) and the per-type node
    managers are imported by the manager. Spec section 4.1 gives
    [get_node_state_flow] as a pure function from
    [(old_status, event_type, new_status)] to a transition or none, and
    section 4.4 gives [relaunch_node] as building a plan and inserting the
    replacement into the node store; both stay parameters, so the theorems
    hold for every table and every manager. *)

Variable get_node_state_flow :
  NodeStatus.t -> NodeEventType.t -> NodeStatus.t -> option NodeStateFlow.

(** [Node.update_info] is a method of the imported [Node] class and not in
    the manager's file: [_process_event] passes it the eight observed
    values of the event by keyword ([name], [start_time], [create_time],
    [host_name], [host_ip], [restart_training], [relaunch_count],
    [is_released]). It stays a parameter: the node as the method leaves
    it, for every way of storing the values. *)
Variable update_info :
  string -> option Z -> option Z -> string -> string -> bool -> Z -> bool ->
  Node.t -> Node.t.

Inductive NodeManager :=
  _worker_manager | _ps_manager | _evaluator_manager | _chief_manager.

(** [manager.relaunch_node(node, remove_exited_node)]: the plan, the node as
    the manager leaves it, and the node store with the replacement added. *)
Variable relaunch_node :
  NodeManager -> Node.t -> bool -> gmap NodeType.t (gmap Z Node.t) ->
  ScalePlan * Node.t * gmap NodeType.t (gmap Z Node.t).

(** [self._ps_manager.get_ps_addrs()] *)
Variable get_ps_addrs : gmap NodeType.t (gmap Z Node.t) -> list string.

(** [Node.exited()], and what [self._perf_monitor.get_worker_eval_time(id)]
    answers. *)
Variable exited : Node.t -> bool.
Variable get_worker_eval_time : Z -> Z.

Definition _get_pod_unique_labels (self : DistributedJobManager) (node : Node.t)
  : PodLabels :=
  {| JOB_KEY := job_name (_job_args self);
     REPLICA_TYPE_KEY := Node.type node;
     RANK_INDEX_KEY := Node.rank_index node;
     REPLICA_INDEX_KEY := Node.id node |}.

(** Modelled from the spec: [NodeGroupResource.new_empty()] is imported
    from [dlrover.python.common.node]; [close_job] emits "a plan with zero counts". *)
Definition NodeGroupResource_new_empty : NodeGroupResource :=
  {| count := 0; node_resource := {| memory := 0 |} |}.

Definition close_job : M unit :=
  let plan :=
    {| node_group_resources :=
         <[NodeType.WORKER := NodeGroupResource_new_empty]>
           (<[NodeType.PS := NodeGroupResource_new_empty]> ∅);
       launch_nodes := []; remove_nodes := []; ps_addrs := [] |} in
  call (scaler_scale plan);;
  os_exit 0.

(** One [node_event_callback] effect stands for notifying every registered
    callback. *)
Definition _process_node_events (status_change_flow : NodeStateFlow)
    (node : Node.t) : M unit :=
  if bool_decide (to_status status_change_flow = NodeStatus.RUNNING) then
    call (node_event_callback on_node_started node)
  else if bool_decide (to_status status_change_flow = NodeStatus.SUCCEEDED) then
    call (node_event_callback on_node_succeeded node)
  else if bool_decide (to_status status_change_flow = NodeStatus.FAILED) then
    call (node_event_callback on_node_failed node)
  else if bool_decide (from_status status_change_flow ≠ NodeStatus.FAILED)
          && bool_decide (from_status status_change_flow ≠ NodeStatus.SUCCEEDED)
          && bool_decide (to_status status_change_flow = NodeStatus.DELETED) then
    call (node_event_callback on_node_deleted node)
  else ret tt.

(** The node types of the enumeration all have a manager, so the source's
    last branch (an unsupported type) is not reached. The exited node is
    appended to [plan.remove_nodes] by reference and made non relaunchable
    afterwards: the plan the scaler receives holds the node as it is then. *)
Definition _relaunch_node (node : Node.t) : M unit :=
  let* self := get_self in
  let manager :=
    match Node.type node with
    | NodeType.WORKER => _worker_manager
    | NodeType.PS => _ps_manager
    | NodeType.EVALUATOR => _evaluator_manager
    | NodeType.CHIEF | NodeType.MASTER => _chief_manager
    end in
  let '(plan, node, job_nodes) :=
    relaunch_node manager node (_remove_exited_node self) (get_job_nodes self) in
  modify (fun self =>
    set_job_context
      {| _job_nodes := job_nodes; _job_stage := get_job_stage self |} self);;
  match launch_nodes plan with
  | new_node :: _ => call (report_node_relaunch node new_node)
  | [] => ret tt
  end;;
  let node := Node.set_relaunchable false node in
  let plan :=
    {| node_group_resources := node_group_resources plan;
       launch_nodes := launch_nodes plan;
       remove_nodes :=
         if _remove_exited_node self
         then remove_nodes plan ++ [node] else remove_nodes plan;
       ps_addrs := ps_addrs plan ++ get_ps_addrs job_nodes |} in
  update_job_node node;;
  call (scaler_scale plan).

(** [any(pod.status.phase == RUNNING and not pod.metadata.deletion_timestamp)]
    over a non-empty answer of the cluster. *)
Definition running_pod_exists (pods : option (list Pod)) : bool :=
  match pods with
  | Some items =>
      bool_decide (0 < length items)%nat
      && existsb (fun pod =>
                    bool_decide (phase pod = NodeStatus.RUNNING)
                    && bool_decide (deletion_timestamp pod = None)) items
  | None => false
  end.

Definition _process_event (k8s_client : K8sClient) (event : NodeEvent) : M unit :=
  let node_type := Node.type (node event) in
  let node_status := Node.status (node event) in
  let node_id := Node.id (node event) in
  let* self := get_self in
  let* skip :=
    if (bool_decide (event_type event = NodeEventType.DELETED)
        || bool_decide (node_status = NodeStatus.DELETED))
       && negb (is_positive_exit (Node.exit_reason (node event)))
    then
      let pod_labels := _get_pod_unique_labels self (node event) in
      call (list_namespaced_pod pod_labels);;
      ret (running_pod_exists (k8s_client pod_labels))
    else ret false in
  if skip then ret tt else
  match get_job_nodes self !! node_type with
  | None => raise KeyError
  | Some nodes =>
    match nodes !! node_id with
    | None => ret tt
    | Some cur_node =>
      let cur_node :=
        update_info
          (Node.name (node event)) (Node.start_time (node event))
          (Node.create_time (node event)) (Node.host_name (node event))
          (Node.host_ip (node event)) (Node.restart_training (node event))
          (Node.relaunch_count (node event)) (Node.is_released (node event))
          cur_node in
      update_job_node cur_node;;
      (if bool_decide (event_type event = NodeEventType.EXIT)
       then close_job;; _report_event ACTION_STOP ""
       else ret tt);;
      let new_status := Node.status (node event) in
      let old_status := Node.status cur_node in
      match get_node_state_flow old_status (event_type event) new_status with
      | None => ret tt
      | Some status_change_flow =>
        if bool_decide (from_status status_change_flow = NodeStatus.SUCCEEDED)
        then ret tt else
        let cur_node := Node.update_status new_status cur_node in
        let new_status := to_status status_change_flow in
        let cur_node :=
          Node.set_exit_reason (Node.exit_reason (node event)) cur_node in
        update_job_node cur_node;;
        _process_node_events status_change_flow cur_node;;
        let* '(should_relaunch, cur_node) :=
          _should_relaunch cur_node status_change_flow in
        (if should_relaunch && _wait_pending_relaunch self
         then modify (fun self =>
                set_pending_relaunch_count (_pending_relaunch_count self + 1) self)
         else ret tt);;
        call (report_node_status_change cur_node old_status new_status);;
        if should_relaunch then _relaunch_node cur_node else ret tt
      end
    end
  end.

(** [_process_event_safely] logs a Python exception and goes on; the end of
    the process is not an exception. *)
Definition _process_event_safely (k8s_client : K8sClient) (event : NodeEvent)
  : M unit := fun self =>
  match _process_event k8s_client event self with
  | (Raises _, self') => (Returns tt, self')
  | r => r
  end.

(** *** Loops over the node store

    [get_job_nodes()] hands out the store itself: the loops of [stop],
    [clear_exited_nodes] and [clear_all_nodes] assign attributes of the
    nodes they iterate, which changes the stored nodes in place
    ([mutate_job_nodes]); where the source also calls [update_job_node],
    the node is written under its own type and id as well
    ([update_job_nodes]). The order of a Python dict is the order of
    insertion; here it is the order in which the map lists its keys. *)

Definition job_nodes_values (nodes : gmap NodeType.t (gmap Z Node.t))
  : list Node.t :=
  map_to_list nodes ≫= (fun p => (map_to_list p.2).*2).

Definition mutate_job_nodes (f : Node.t -> Node.t) (ctx : JobContext)
  : JobContext :=
  {| _job_nodes := (fun nodes : gmap Z Node.t => f <$> nodes) <$> _job_nodes ctx;
     _job_stage := _job_stage ctx |}.

Definition mutate_job_nodes_of (node_type : NodeType.t) (f : Node.t -> Node.t)
    (ctx : JobContext) : JobContext :=
  {| _job_nodes :=
       alter (fun nodes : gmap Z Node.t => f <$> nodes) node_type
         (_job_nodes ctx);
     _job_stage := _job_stage ctx |}.

Definition update_job_nodes (nodes : list Node.t) (ctx : JobContext)
  : JobContext :=
  foldl (fun ctx n => update_job_node_ctx n ctx) ctx nodes.

Definition clear_exited_nodes : M unit :=
  let* self := get_self in
  if negb (_remove_exited_node self) then ret tt else
  let job_nodes := get_job_nodes self in
  let is_exited node := negb (Node.is_released node) && exited node in
  let release node :=
    if is_exited node then Node.set_is_released true node else node in
  let remove_nodes :=
    Node.set_is_released true
      <$> List.filter is_exited (job_nodes_values job_nodes) in
  modify (fun self =>
    set_job_context
      (update_job_nodes remove_nodes
         (mutate_job_nodes release (_job_context self))) self);;
  if bool_decide (0 < length remove_nodes)%nat then
    call (scaler_scale
            {| node_group_resources := ∅; launch_nodes := [];
               remove_nodes := remove_nodes; ps_addrs := [] |})
  else ret tt.

Definition clear_all_nodes : M unit :=
  let* self := get_self in
  let job_nodes := get_job_nodes self in
  let not_released node := negb (Node.is_released node) in
  let remove_nodes :=
    Node.set_is_released true
      <$> List.filter not_released (job_nodes_values job_nodes) in
  modify (fun self =>
    set_job_context
      (mutate_job_nodes (Node.set_is_released true) (_job_context self)) self);;
  call (scaler_scale
          {| node_group_resources := ∅; launch_nodes := [];
             remove_nodes := remove_nodes; ps_addrs := [] |}).

Definition stop_node (node : Node.t) : Node.t :=
  Node.set_relaunchable false
    (Node.set_is_released true (Node.set_critical false node)).

Definition stop : M unit :=
  let* self := get_self in
  if negb (_stopped self) then
    modify (set_enable_relaunch_node false);;
    let job_nodes := get_job_nodes self in
    modify (fun self =>
      set_job_context
        (update_job_nodes (stop_node <$> job_nodes_values job_nodes)
           (mutate_job_nodes stop_node (_job_context self))) self);;
    let* self := get_self in
    match get_job_nodes self !! NodeType.WORKER with
    | None => raise KeyError
    | Some workers =>
        let set_eval node :=
          Node.set_eval_time (get_worker_eval_time (Node.id node)) node in
        let eval_time_calls :=
          (fun node => perf_monitor_get_worker_eval_time (Node.id node))
            <$> (map_to_list workers).*2 in
        modify (fun self =>
          set_job_context
            (update_job_nodes (set_eval <$> (map_to_list workers).*2)
               (mutate_job_nodes_of NodeType.WORKER set_eval
                  (_job_context self)))
            (set_effects (effects self ++ eval_time_calls) self));;
        modify (set_stopped true)
    end
  else ret tt.

(** *** Reports from the agents *)

Definition update_node_service_addr (node_type : NodeType.t) (node_id : Z)
    (service_addr : string) : M unit :=
  let* self := get_self in
  match job_node (_job_context self) node_type node_id with
  | None => ret tt
  | Some node =>
      let node := Node.update_service_address service_addr node in
      let node := Node.set_status NodeStatus.RUNNING node in
      let node := Node.set_is_released false node in
      update_job_node node
  end.

Definition process_reported_node_event (node_event : NodeEvent) : M unit :=
  let event_type := event_type node_event in
  let node_type := Node.type (node node_event) in
  let node_id := Node.id (node node_event) in
  let* self := get_self in
  match job_node (_job_context self) node_type node_id with
  | Some target_node =>
      update_job_node (Node.update_reported_status event_type target_node)
  | None => ret tt
  end;;
  if bool_decide (event_type = NodeEventType.SUCCEEDED_EXITED)
  then update_job_stage JobStage.JOB_STOPPING
  else ret tt.

(** *** The heartbeat monitor *)

Definition _process_error (node : option Node.t) (restart_count : Z)
    (error_data : string) (level : TrainingExceptionLevel.t) : M unit :=
  match node with
  | Some node =>
      (if bool_decide (level = TrainingExceptionLevel.NODE_ERROR)
       then call (report_failed_node (Node.id node)) else ret tt);;
      call (process_error node restart_count error_data level)
  | None => ret tt
  end.

Fixpoint for_each {A B} (body : B -> A -> M B) (acc : B) (l : list A) : M B :=
  match l with
  | [] => ret acc
  | x :: l => let* acc := body acc x in for_each body acc l
  end.

(** The first test of the loop body: the node looks dead. *)
Definition heartbeat_timed_out (now window_interval : Z) (node : Node.t) : bool :=
  bool_decide (0 < Node.heartbeat_time node)
  && bool_decide (window_interval < now - Node.heartbeat_time node)
  && bool_decide (is_Some (Node.start_time node))
  && bool_decide (is_Some (Node.create_time node))
  && bool_decide (Node.status node = NodeStatus.RUNNING)
  && negb (Node.is_succeeded_and_exited node).

(** The second test: the heartbeat is not newer than start and creation. *)
Definition heartbeat_too_old (node : Node.t) : bool :=
  match Node.start_time node, Node.create_time node with
  | Some start_time, Some create_time =>
      bool_decide (Node.heartbeat_time node <= start_time)
      || bool_decide (Node.heartbeat_time node <= create_time)
  | _, _ => false
  end.

Definition no_heartbeat_event (node : Node.t) : NodeEvent :=
  {| event_type := NodeEventType.DELETED;
     node := Node.set_exit_reason (Some NodeExitReason.NO_HEARTBEAT)
               (Node.set_status NodeStatus.FAILED node) |}.

(** [datetime.fromtimestamp] of the standard library raises
    [OverflowError], [OSError] or [ValueError] on a timestamp outside the
    range that the platform and [datetime] support; the parameter gives the
    exception, [None] where a datetime is returned. *)
Variable fromtimestamp_error : Z -> option Exn.

(** [_get_nodes_time_info] converts the heartbeat of every stored node
    that has one; the dictionary it builds only enters a log message, so
    the model keeps whether the conversions succeed. *)
Definition _get_nodes_time_info : M unit :=
  let* self := get_self in
  for_each
    (fun _ node =>
       if bool_decide (Node.heartbeat_time node = 0) then ret tt
       else
         match fromtimestamp_error (Node.heartbeat_time node) with
         | Some e => raise e
         | None => ret tt
         end)
    tt (job_nodes_values (get_job_nodes self)).

(** The body of the loop over the nodes, with the events found so far. The
    warning of the skipped node is built from [_get_nodes_time_info()],
    which is evaluated before the loop goes on. *)
Definition dead_node_step (now window_interval : Z)
    (dead_events : list NodeEvent) (node : Node.t) : M (list NodeEvent) :=
  if heartbeat_timed_out now window_interval node then
    if heartbeat_too_old node then _get_nodes_time_info;; ret dead_events
    else
      _process_error (Some node) (Node.relaunch_count node)
        ("No heartbeat for over " +:+ pretty window_interval
         +:+ " seconds.")
        TrainingExceptionLevel.NODE_ERROR;;
      call (report_node_no_heartbeat node window_interval);;
      ret (dead_events ++ [no_heartbeat_event node])
  else ret dead_events.

(** [now] is the reading of [time.time()]; the default of
    [window_interval] is 600. *)
Definition _get_dead_node_event (now : Z) (window_interval : Z)
  : M (list NodeEvent) :=
  let* self := get_self in
  for_each (dead_node_step now window_interval) []
    (job_nodes_values (get_job_nodes self)).

(** *** Early stop

    Modelled from the spec: the detectors of the worker and parameter-server
    managers and the node counts of the job resource are imported
    collaborators; they stay parameters read off the job context. The
    empty exit reason [""] of the last return is [None]. *)

Variable worker_num ps_num : Z.
Variable is_all_initial_workers_node_check_failed : Z -> JobContext -> bool.
Variable get_pending_timeout_oom_recovered_node : JobContext -> list Node.t.
Variable find_pending_node_caused_training_hang :
  NodeManager -> Z -> DistributionStrategy.t -> JobContext -> option Node.t.
Variable is_training_hang_by_insufficient_worker : JobContext -> bool.

Definition msg_node_check_failed : string :=
  "Stop the training early because all worker nodes has "
  +:+ "failed the node check in rendezvous.".
Definition msg_oom_pending_timeout : string :=
  "Stop the training early because the nodes recovered from OOM "
  +:+ "are pending too long and have timed out.".
Definition msg_pending_timeout : string :=
  "Stop the training early because 1) there is node pending "
  +:+ "2) alive nodes number consistently less than the min "
  +:+ "training nodes required 3) pending time last exceed limit.".
Definition msg_insufficient_worker : string :=
  "Stop the training early because there isn't enough node to "
  +:+ "keep training.".

Definition should_early_stop
  : M (bool * option JobExitReason.t * string) :=
  let* self := get_self in
  let ctx := _job_context self in
  let job_type := distribution_strategy (_job_args self) in
  if is_all_reduce_type_job self
     && is_all_initial_workers_node_check_failed worker_num ctx then
    _process_error None 0 msg_node_check_failed
      TrainingExceptionLevel.RDZV_ERROR;;
    _report_event ACTION_EARLY_STOP "All node check failed";;
    ret (true, Some JobExitReason.NODE_CHECK_FAILED, msg_node_check_failed)
  else
  let timeout_ps_nodes := get_pending_timeout_oom_recovered_node ctx in
  if bool_decide (0 < length timeout_ps_nodes)%nat then
    _process_error (head timeout_ps_nodes) 0 msg_oom_pending_timeout
      TrainingExceptionLevel.ERROR;;
    _report_event ACTION_EARLY_STOP "PS OOM";;
    ret (true, Some JobExitReason.PENDING_TIMEOUT, msg_oom_pending_timeout)
  else
  let first_pending_node :=
    match find_pending_node_caused_training_hang _ps_manager ps_num job_type ctx with
    | Some node => Some node
    | None =>
        find_pending_node_caused_training_hang _worker_manager worker_num
          job_type ctx
    end in
  if bool_decide (first_pending_node ≠ None) then
    _process_error None 0 msg_pending_timeout TrainingExceptionLevel.ERROR;;
    _report_event ACTION_EARLY_STOP "Pending nodes";;
    ret (true, Some JobExitReason.PENDING_TIMEOUT, msg_pending_timeout)
  else
  if is_all_reduce_type_job self
     && is_training_hang_by_insufficient_worker ctx then
    _process_error None 0 msg_insufficient_worker TrainingExceptionLevel.ERROR;;
    _report_event ACTION_EARLY_STOP "Not enough nodes";;
    ret (true, Some JobExitReason.UNCOMPLETED_TIMEOUT, msg_insufficient_worker)
  else ret (false, None, "").

(** *** Histories

    The operations that reach the node store from outside: events of the
    watcher and the monitors (through [_process_event_safely]), reports of
    the agents, and the facade calls. A history ends when the process
    does. *)

Inductive Operation :=
| op_process_event (k8s_client : K8sClient) (event : NodeEvent)
| op_process_reported_node_event (node_event : NodeEvent)
| op_update_node_service_addr (node_type : NodeType.t) (node_id : Z)
    (service_addr : string)
| op_clear_exited_nodes
| op_clear_all_nodes
| op_stop.

Definition run_operation (op : Operation) : M unit :=
  match op with
  | op_process_event k8s_client event => _process_event_safely k8s_client event
  | op_process_reported_node_event node_event =>
      process_reported_node_event node_event
  | op_update_node_service_addr node_type node_id service_addr =>
      update_node_service_addr node_type node_id service_addr
  | op_clear_exited_nodes => clear_exited_nodes
  | op_clear_all_nodes => clear_all_nodes
  | op_stop => stop
  end.

Fixpoint run_operations (ops : list Operation) (self : DistributedJobManager)
  : DistributedJobManager :=
  match ops with
  | [] => self
  | op :: ops =>
      match run_operation op self with
      | (Exits _, self') => self'
      | (_, self') => run_operations ops self'
      end
  end.


(** *** Triples over the manager monad

    [triple P m Q E]: from a state in [P], [m] returns [a] in a state in
    [Q a], or raises or exits in a state in [E]. *)

Definition triple {A} (P : DistributedJobManager -> Prop) (m : M A)
    (Q : A -> DistributedJobManager -> Prop)
    (E : DistributedJobManager -> Prop) : Prop :=
  ∀ self, P self ->
    match m self with
    | (Returns a, self') => Q a self'
    | (_, self') => E self'
    end.

(** [m] keeps the invariant [I], however it ends. *)
Definition keeps {A} (I : DistributedJobManager -> Prop) (m : M A) : Prop :=
  triple I m (fun _ => I) I.


(** The label queries sent to the cluster so far, oldest first. *)
Fixpoint pod_queries (es : list Effect) : list PodLabels :=
  match es with
  | [] => []
  | list_namespaced_pod labels :: es => labels :: pod_queries es
  | _ :: es => pod_queries es
  end.

(** Every stored node satisfies [P]. *)
Definition all_nodes (P : Node.t -> Prop) (self : DistributedJobManager) : Prop :=
  ∀ node_type nodes node_id n,
    get_job_nodes self !! node_type = Some nodes ->
    nodes !! node_id = Some n -> P n.

(** What [stop] leaves of a node. *)
Definition stopped_node (n : Node.t) : Prop :=
  Node.critical n = false ∧ Node.is_released n = true
  ∧ Node.relaunchable n = false.



(** *** One pass of the heartbeat monitor

    [_monitor_node_heart_beat] collects the dead-node events (an exception
    of [_get_dead_node_event] is logged and leaves no event) and hands each
    one to [_process_event_safely]. The call passes no window, so the
    default of 600 seconds applies. *)
Definition _monitor_node_heart_beat (k8s_client : K8sClient) (now : Z)
  : M unit :=
  let* events :=
    (fun self =>
       match _get_dead_node_event now 600 self with
       | (Raises _, self') => (Returns [], self')
       | r => r
       end) in
  for_each (fun _ event => _process_event_safely k8s_client event) tt events.

(** *** Diagnosed nodes

    [_process_node_action] fails a copy of the diagnosed node with exit
    reason [DIAG_FAIL] and sends it through the event pipeline as a
    [DELETED] event. *)
Definition _process_node_action (k8s_client : K8sClient)
    (action : NodeAction.t) : M unit :=
  let* self := get_self in
  match job_node (_job_context self) (NodeAction.node_type action)
          (NodeAction.node_id action) with
  | None => ret tt
  | Some target_node =>
      let event_node := Node.set_status NodeStatus.FAILED target_node in
      let event_node :=
        Node.set_exit_reason (Some NodeExitReason.DIAG_FAIL) event_node in
      _process_event_safely k8s_client
        {| event_type := NodeEventType.DELETED; node := event_node |}
  end.

(** *** Heartbeats of the agents

    Modelled from the spec: the action queue of the job context
    ([next_action(instance)], spec section 4.2) is outside the manager's
    file; [next_action] gives what the queue hands out for a node id
    ([Some node_id]) and for [DiagnosisConstant.ANY_INSTANCE] ([None]), and
    [None] when it hands out nothing. *)
Definition collect_node_heart_beat
    (next_action : option Z -> option DiagnosisAction.t)
    (node_type : NodeType.t) (node_id timestamp : Z)
  : M (option DiagnosisAction.t) :=
  let* self := get_self in
  match job_node (_job_context self) node_type node_id with
  | None => ret (Some DiagnosisAction.NoAction)
  | Some node =>
      let node := Node.set_heartbeat_time timestamp node in
      update_job_node node;;
      match next_action (Some node_id) with
      | None | Some DiagnosisAction.NoAction => ret (next_action None)
      | Some action => ret (Some action)
      end
  end.

(** *** Queries and removals of the facade *)

Definition all_critical_node_completed (self : DistributedJobManager) : bool :=
  let alive node :=
    Node.critical node
    && bool_decide (Node.status node = NodeStatus.INITIAL
                    ∨ Node.status node = NodeStatus.PENDING
                    ∨ Node.status node = NodeStatus.RUNNING) in
  let alive_critical_nodes :=
    Node.name <$> List.filter alive (job_nodes_values (get_job_nodes self)) in
  bool_decide (alive_critical_nodes = []).

Definition remove_training_node (node : Node.t) : Node.t :=
  Node.set_status NodeStatus.DELETED
    (Node.set_is_released true
       (Node.set_relaunchable false (Node.set_critical false node))).

(** [remove_training_nodes] first tells the auto-scaler to stop
    ([self._job_autoscaler.stop_auto_scaling()]), which touches neither the
    node store nor the scaler. The loop assigns the attributes of the
    stored workers and parameter servers in place and appends them to the
    plan by reference. *)
Definition remove_training_nodes : M unit :=
  let* self := get_self in
  let job_nodes := get_job_nodes self in
  match job_nodes !! NodeType.WORKER with
  | None => raise KeyError
  | Some workers =>
    match job_nodes !! NodeType.PS with
    | None => raise KeyError
    | Some ps =>
      let training_nodes := (map_to_list workers).*2 ++ (map_to_list ps).*2 in
      let in_training node :=
        bool_decide (Node.status node = NodeStatus.RUNNING
                     ∨ Node.status node = NodeStatus.PENDING)
        && negb (Node.is_released node) in
      let remove node :=
        if in_training node then remove_training_node node else node in
      let remove_nodes :=
        remove_training_node <$> List.filter in_training training_nodes in
      modify (fun self =>
        set_job_context
          (update_job_nodes remove_nodes
             (mutate_job_nodes_of NodeType.PS remove
                (mutate_job_nodes_of NodeType.WORKER remove
                   (_job_context self)))) self);;
      call (scaler_scale
              {| node_group_resources := ∅; launch_nodes := [];
                 remove_nodes := remove_nodes; ps_addrs := [] |})
    end
  end.

(** *** How a method ends *)

(** [m] returns from every state: it neither raises nor ends the process. *)
Definition always_returns {A} (m : M A) : Prop :=
  ∀ self, ∃ a self', m self = (Returns a, self').

(** [m] never ends the process. *)
Definition never_exits {A} (m : M A) : Prop :=
  ∀ self code self', m self ≠ (Exits code, self').

(** The reports sent to the event reporter so far, oldest first. *)
Fixpoint reported_events (es : list Effect) : list (EventAction * string) :=
  match es with
  | [] => []
  | report_event action msg :: es => (action, msg) :: reported_events es
  | _ :: es => reported_events es
  end.

(** Every node stored in the group of [node_type] satisfies [P]. *)
Definition group_all (node_type : NodeType.t) (P : Node.t -> Prop)
    (ctx : JobContext) : Prop :=
  ∀ nodes node_id n,
    _job_nodes ctx !! node_type = Some nodes -> nodes !! node_id = Some n -> P n.

(** The node is not a running or pending node that is yet to be released. *)
Definition out_of_training (n : Node.t) : Prop :=
  Node.is_released n = true
  ∨ (Node.status n ≠ NodeStatus.RUNNING ∧ Node.status n ≠ NodeStatus.PENDING).

(** Every node of the store is filed under its own type and id. *)
Definition well_keyed (job_nodes : gmap NodeType.t (gmap Z Node.t)) : Prop :=
  ∀ node_type nodes node_id n,
    job_nodes !! node_type = Some nodes -> nodes !! node_id = Some n ->
    Node.type n = node_type ∧ Node.id n = node_id.

(** *** What the heartbeat scan meets *)

(** The node passes the first test of [_get_dead_node_event] and not the
    second: an event is synthesized for it. *)
Definition dead_node (now window_interval : Z) (node : Node.t) : bool :=
  heartbeat_timed_out now window_interval node
  && negb (heartbeat_too_old node).

(** The node passes both tests: the scan skips it with a warning. *)
Definition skipped_node (now window_interval : Z) (node : Node.t) : bool :=
  heartbeat_timed_out now window_interval node && heartbeat_too_old node.

(** The exception that [_get_nodes_time_info] ends with on a store: that of
    the first stored heartbeat, other than 0, that [datetime.fromtimestamp]
    refuses. *)
Definition time_info_error (job_nodes : gmap NodeType.t (gmap Z Node.t))
  : option Exn :=
  head
    (omap
       (fun node =>
          if bool_decide (Node.heartbeat_time node = 0) then None
          else fromtimestamp_error (Node.heartbeat_time node))
       (job_nodes_values job_nodes)).

(** The nodes that come before the first skipped one. *)
Fixpoint nodes_before_skip (now window_interval : Z) (nodes : list Node.t)
  : list Node.t :=
  match nodes with
  | [] => []
  | node :: nodes =>
      if skipped_node now window_interval node then []
      else node :: nodes_before_skip now window_interval nodes
  end.

(** What the error path and the reporter are told about a dead node. *)
Definition no_heartbeat_reports (window_interval : Z) (node : Node.t)
  : list Effect :=
  [report_failed_node (Node.id node);
   process_error node (Node.relaunch_count node)
     ("No heartbeat for over " +:+ pretty window_interval +:+ " seconds.")
     TrainingExceptionLevel.NODE_ERROR;
   report_node_no_heartbeat node window_interval].

(** The events that the monitor goes on with after [_get_dead_node_event]:
    none when the call raised. *)
Definition monitored_events (outcome : Outcome (list NodeEvent))
  : list NodeEvent :=
  match outcome with
  | Returns events => events
  | _ => []
  end.

(** *** Notions of the event pipeline *)

(** The test that opens [_process_event]: a deleted event, or an event
    about a deleted node, whose exit reason is not a positive exit. *)
Definition deletion_filter_applies (event : NodeEvent) : bool :=
  (bool_decide (event_type event = NodeEventType.DELETED)
   || bool_decide (Node.status (node event) = NodeStatus.DELETED))
  && negb (is_positive_exit (Node.exit_reason (node event))).

(** The stored node after [update_info] has taken the observed values of
    the event. *)
Definition observed (event : NodeEvent) (cur_node : Node.t) : Node.t :=
  update_info
    (Node.name (node event)) (Node.start_time (node event))
    (Node.create_time (node event)) (Node.host_name (node event))
    (Node.host_ip (node event)) (Node.restart_training (node event))
    (Node.relaunch_count (node event)) (Node.is_released (node event))
    cur_node.

(** *** Plans after [stop] *)



(** *** What a history keeps of the stored nodes *)

(** The two nodes agree on what the state machine and the relaunch budget
    look at. *)
Definition same_core (n n' : Node.t) : Prop :=
  Node.type n' = Node.type n ∧ Node.id n' = Node.id n
  ∧ Node.status n' = Node.status n
  ∧ Node.relaunch_count n' = Node.relaunch_count n
  ∧ Node.max_relaunch_count n' = Node.max_relaunch_count n.

(** Every node of the store satisfies [P]. *)
Definition store_all (P : Node.t -> Prop)
    (job_nodes : gmap NodeType.t (gmap Z Node.t)) : Prop :=
  ∀ node_type nodes node_id n,
    job_nodes !! node_type = Some nodes -> nodes !! node_id = Some n -> P n.

(** Every entry of [job_nodes] is still an entry of [job_nodes'], with a
    node that [R] relates to the one it held. *)
Definition store_related (R : Node.t -> Node.t -> Prop)
    (job_nodes job_nodes' : gmap NodeType.t (gmap Z Node.t)) : Prop :=
  ∀ node_type node_id n,
    job_nodes !! node_type ≫= (.!! node_id) = Some n ->
    ∃ n', job_nodes' !! node_type ≫= (.!! node_id) = Some n' ∧ R n n'.

(** The store is well keyed, its nodes satisfy [P], and it is related to
    the store [job_nodes0] that the history started from. *)
Definition store_ok (R : Node.t -> Node.t -> Prop) (P : Node.t -> Prop)
    (job_nodes0 job_nodes : gmap NodeType.t (gmap Z Node.t)) : Prop :=
  well_keyed job_nodes ∧ store_all P job_nodes
  ∧ store_related R job_nodes0 job_nodes.

(** The node may be written under its type and id. *)
Definition fits (R : Node.t -> Node.t -> Prop) (P : Node.t -> Prop)
    (job_nodes0 : gmap NodeType.t (gmap Z Node.t)) (n : Node.t) : Prop :=
  P n
  ∧ ∀ m, job_nodes0 !! Node.type n ≫= (.!! Node.id n) = Some m -> R m n.

(** Each operation of the history is allowed in the state it starts
    from. *)
Fixpoint allowed_history
    (allowed : Operation -> DistributedJobManager -> Prop)
    (ops : list Operation) (self : DistributedJobManager) : Prop :=
  match ops with
  | [] => True
  | op :: ops =>
      allowed op self
      ∧ match run_operation op self with
        | (Exits _, _) => True
        | (_, self') => allowed_history allowed ops self'
        end
  end.

(** *** The relaunch budget over a history *)







(** *** Final statuses over a history *)

(** The pipeline never leaves the status: it is [SUCCEEDED], or the
    state-flow table has no transition out of it. *)
Definition final_status (status : NodeStatus.t) : Prop :=
  status = NodeStatus.SUCCEEDED
  ∨ ∀ event_type new_status,
      get_node_state_flow status event_type new_status = None.

(** The node is the same entry of the store and, if it is the entry
    [(node_type, node_id)] with status [status], has that status still. *)
Definition keeps_status (node_type : NodeType.t) (node_id : Z)
    (status : NodeStatus.t) (n n' : Node.t) : Prop :=
  Node.type n' = Node.type n ∧ Node.id n' = Node.id n
  ∧ (Node.type n = node_type -> Node.id n = node_id ->
     Node.status n = status -> Node.status n' = status).

(** What finality needs of [update_info]: type, id and status stay. *)
Definition update_info_keeps_status : Prop :=
  ∀ name' start_time' create_time' host_name' host_ip' restart_training'
    relaunch_count' is_released' n,
    let n' :=
      update_info name' start_time' create_time' host_name' host_ip'
        restart_training' relaunch_count' is_released' n in
    Node.type n' = Node.type n ∧ Node.id n' = Node.id n
    ∧ Node.status n' = Node.status n.

(** What finality needs of the node managers: on a well-keyed store,
    [relaunch_node] leaves a well-keyed store in which every entry is
    still there with its status, and returns the node it was handed with
    its type, id and status. *)
Definition relaunch_node_keeps_status : Prop :=
  ∀ manager node remove_exited_node job_nodes plan node' job_nodes',
    relaunch_node manager node remove_exited_node job_nodes
    = (plan, node', job_nodes') ->
    well_keyed job_nodes ->
    well_keyed job_nodes'
    ∧ Node.type node' = Node.type node ∧ Node.id node' = Node.id node
    ∧ Node.status node' = Node.status node
    ∧ ∀ node_type node_id n,
        job_nodes !! node_type ≫= (.!! node_id) = Some n ->
        ∃ n', job_nodes' !! node_type ≫= (.!! node_id) = Some n'
              ∧ Node.status n' = Node.status n.

(** The operation is not a service-address update of
    [(node_type, node_id)]. *)
Definition not_service_addr_of (node_type : NodeType.t) (node_id : Z)
    (op : Operation) : Prop :=
  match op with
  | op_update_node_service_addr node_type' node_id' _ =>
      (node_type', node_id') ≠ (node_type, node_id)
  | _ => True
  end.

(** ** An example job

    Concrete nodes, a manager and concrete collaborators, used to run the
    methods on explicit inputs. *)

Definition example_worker (id : Z) : Node.t :=
  {| Node.type := NodeType.WORKER; Node.id := id; Node.name := "worker";
     Node.rank_index := id; Node.status := NodeStatus.RUNNING;
     Node.exit_reason := None; Node.relaunch_count := 0;
     Node.max_relaunch_count := 3; Node.relaunchable := true;
     Node.is_released := false; Node.critical := false;
     Node.is_recovered_oom := false; Node.create_time := Some 1000;
     Node.start_time := Some 1010; Node.heartbeat_time := 1100;
     Node.reported_status := None;
     Node.config_resource := {| memory := 4096 |};
     Node.host_name := "host-a"; Node.host_ip := "10.0.0.1";
     Node.restart_training := false; Node.service_addr := "";
     Node.eval_time := 0 |}.

Definition example_job_nodes (workers : list Node.t)
  : gmap NodeType.t (gmap Z Node.t) :=
  {[ NodeType.WORKER :=
       list_to_map ((fun n => (Node.id n, n)) <$> workers) ]}.

Definition example_manager (workers : list Node.t) : DistributedJobManager :=
  {| _job_args :=
       {| job_name := "train";
          distribution_strategy := DistributionStrategy.PS |};
     _remove_exited_node := true;
     _wait_pending_relaunch := false;
     _enable_relaunch_node := true;
     _pending_relaunch_count := 0;
     _stopped := false;
     _job_context :=
       {| _job_nodes := example_job_nodes workers;
          _job_stage := JobStage.JOB_RUNNING |};
     effects := [] |}.

(** Modelled from the spec: the transitions that section 4.1 names:
    [initial -> pending -> running -> {succeeded | failed | deleted}], where
    leaving [running] for [failed] or [deleted] is relaunch-eligible and
    nothing leaves [succeeded]. *)
Definition example_state_flow (old_status : NodeStatus.t)
    (event_type : NodeEventType.t) (new_status : NodeStatus.t)
  : option NodeStateFlow :=
  match old_status, new_status with
  | NodeStatus.INITIAL, NodeStatus.PENDING
  | NodeStatus.PENDING, NodeStatus.RUNNING
  | NodeStatus.RUNNING, NodeStatus.SUCCEEDED =>
      Some {| from_status := old_status; to_status := new_status;
              should_relaunch := false |}
  | NodeStatus.RUNNING, NodeStatus.FAILED
  | NodeStatus.RUNNING, NodeStatus.DELETED =>
      Some {| from_status := old_status; to_status := new_status;
              should_relaunch := true |}
  | _, _ => None
  end.

(** Modelled from the spec: section 4.4, [relaunch_node] "allocates a fresh
    id equal to max(existing ids)+1, constructs a new Node with copied
    config resource, max_relaunch_count preserved, inserts it into the node
    store and optionally appends the old node to remove_nodes". *)
Definition example_relaunch_node (manager : NodeManager) (node : Node.t)
    (remove_exited_node : bool) (job_nodes : gmap NodeType.t (gmap Z Node.t))
  : ScalePlan * Node.t * gmap NodeType.t (gmap Z Node.t) :=
  let nodes := default ∅ (job_nodes !! Node.type node) in
  let new_id := 1 + map_fold (fun i _ acc => Z.max i acc) (-1) nodes in
  let new_node :=
    Node.mk (Node.type node) new_id (Node.name node) (Node.rank_index node)
      NodeStatus.INITIAL None (Node.relaunch_count node)
      (Node.max_relaunch_count node) true false (Node.critical node) false
      None None 0 None (Node.config_resource node) "" "" false "" 0 in
  ({| node_group_resources := ∅; launch_nodes := [new_node];
      remove_nodes := if remove_exited_node then [node] else [];
      ps_addrs := [] |},
   node,
   <[Node.type node := <[new_id := new_node]> nodes]> job_nodes).

(** An instance of [update_info]: each observed value is stored in the
    attribute of the same name, except that the relaunch count only grows
    (the larger of the stored and the observed one is kept); every other
    attribute is left alone. *)
Definition example_update_info (name' : string)
    (start_time' create_time' : option Z) (host_name' host_ip' : string)
    (restart_training' : bool) (relaunch_count' : Z) (is_released' : bool)
    (n : Node.t) : Node.t :=
  Node.mk (Node.type n) (Node.id n) name' (Node.rank_index n) (Node.status n)
    (Node.exit_reason n) (Z.max (Node.relaunch_count n) relaunch_count')
    (Node.max_relaunch_count n) (Node.relaunchable n) is_released'
    (Node.critical n) (Node.is_recovered_oom n) create_time' start_time'
    (Node.heartbeat_time n) (Node.reported_status n) (Node.config_resource n)
    host_name' host_ip' restart_training' (Node.service_addr n)
    (Node.eval_time n).

(** An instance of [fromtimestamp_error]: [datetime] holds the years 1 to
    9999, so a timestamp outside them (in seconds, UTC) is a [ValueError]. *)
Definition example_fromtimestamp_error (timestamp : Z) : option Exn :=
  if bool_decide (-62135596800 <= timestamp < 253402300800)
  then None else Some ValueError.

Definition example_oom_resource (node : Node.t) : NodeResource :=
  {| memory := 2 * memory (Node.config_resource node) |}.

Definition example_MAX_MEMORY : Z := 65536.

(** A cluster with no pod, and one that still runs a pod under every label. *)
Definition no_pods : K8sClient := fun _ => None.
Definition running_pod : K8sClient :=
  fun _ => Some [ {| phase := NodeStatus.RUNNING; deletion_timestamp := None |} ].

Definition example_get_ps_addrs (job_nodes : gmap NodeType.t (gmap Z Node.t))
  : list string := [].

(** Modelled from the spec: [Node.exited] is a method of the imported
    [Node] class; the terminal states are [succeeded], [failed] and [deleted]. *)
Definition example_exited (n : Node.t) : bool :=
  bool_decide (Node.status n = NodeStatus.SUCCEEDED
               ∨ Node.status n = NodeStatus.FAILED
               ∨ Node.status n = NodeStatus.DELETED).

Definition example_get_worker_eval_time (node_id : Z) : Z := 0.

(** The transition of scenario S1: a running worker fails. *)
Definition running_to_failed : NodeStateFlow :=
  {| from_status := NodeStatus.RUNNING; to_status := NodeStatus.FAILED;
     should_relaunch := true |}.

(** Worker 4 after an OOM exit, and after a [KILLED] exit with its budget of
    three relaunches used up. *)
Definition oom_worker : Node.t :=
  Node.set_exit_reason (Some NodeExitReason.OOM) (example_worker 4).

(** The watcher sees worker 4 failed with exit reason [KILLED]. *)
Definition killed_event : NodeEvent :=
  {| event_type := NodeEventType.MODIFIED;
     node := Node.set_status NodeStatus.FAILED
               (Node.set_exit_reason (Some NodeExitReason.KILLED)
                  (example_worker 4)) |}.

(** Worker 0 has succeeded; later the watcher sees a pod of that id running
    under another name, and failed. *)
Definition succeeded_worker : Node.t :=
  Node.set_status NodeStatus.SUCCEEDED (example_worker 0).
Definition renamed_event : NodeEvent :=
  {| event_type := NodeEventType.MODIFIED;
     node := example_update_info "worker-renamed" (Some 1000) (Some 1010)
               "host-b" "10.0.0.2" false 0 false (example_worker 0) |}.
Definition failed_event : NodeEvent :=
  {| event_type := NodeEventType.MODIFIED;
     node := Node.set_status NodeStatus.FAILED
               (Node.set_exit_reason (Some NodeExitReason.FATAL_ERROR)
                  (example_worker 0)) |}.
Definition deleted_event : NodeEvent :=
  {| event_type := NodeEventType.DELETED;
     node := Node.set_status NodeStatus.DELETED (example_worker 0) |}.
Definition succeeded_exited_report : NodeEvent :=
  {| event_type := NodeEventType.SUCCEEDED_EXITED; node := example_worker 0 |}.

(** Worker 1 of scenario S2: started at 1010, last heartbeat at 1100, looked
    at 700 seconds later. *)
Definition silent_worker : Node.t := example_worker 1.

(** An all-reduce job. *)
Definition example_allreduce_manager (workers : list Node.t)
  : DistributedJobManager :=
  {| _job_args :=
       {| job_name := "train";
          distribution_strategy := DistributionStrategy.ALLREDUCE |};
     _remove_exited_node := true;
     _wait_pending_relaunch := false;
     _enable_relaunch_node := true;
     _pending_relaunch_count := 0;
     _stopped := false;
     _job_context :=
       {| _job_nodes := example_job_nodes workers;
          _job_stage := JobStage.JOB_RUNNING |};
     effects := [] |}.

(** The master is told to exit, in an event about worker 0. *)
Definition exit_event : NodeEvent :=
  {| event_type := NodeEventType.EXIT; node := example_worker 0 |}.

(** Worker 2 is in the store as initial; the watcher sees it pending. *)
Definition initial_worker : Node.t :=
  Node.set_status NodeStatus.INITIAL (example_worker 2).
Definition pending_event : NodeEvent :=
  {| event_type := NodeEventType.MODIFIED;
     node := Node.set_status NodeStatus.PENDING (example_worker 2) |}.
Definition initial_to_pending : NodeStateFlow :=
  {| from_status := NodeStatus.INITIAL; to_status := NodeStatus.PENDING;
     should_relaunch := false |}.

(** Worker 3 has failed and is not released yet; worker 0 is critical. *)
Definition failed_worker : Node.t :=
  Node.set_status NodeStatus.FAILED (example_worker 3).
Definition critical_worker : Node.t :=
  Node.set_critical true (example_worker 0).

(** A parameter server, a job whose store holds nothing but parameter
    server 0, and a job with worker 0 and parameter server 0. *)
Definition example_ps (id : Z) : Node.t :=
  {| Node.type := NodeType.PS; Node.id := id; Node.name := "ps";
     Node.rank_index := id; Node.status := NodeStatus.RUNNING;
     Node.exit_reason := None; Node.relaunch_count := 0;
     Node.max_relaunch_count := 3; Node.relaunchable := true;
     Node.is_released := false; Node.critical := true;
     Node.is_recovered_oom := false; Node.create_time := Some 1000;
     Node.start_time := Some 1010; Node.heartbeat_time := 1100;
     Node.reported_status := None;
     Node.config_resource := {| memory := 8192 |};
     Node.host_name := "host-b"; Node.host_ip := "10.0.0.2";
     Node.restart_training := false; Node.service_addr := "";
     Node.eval_time := 0 |}.

Definition example_ps_manager : DistributedJobManager :=
  {| _job_args :=
       {| job_name := "train";
          distribution_strategy := DistributionStrategy.PS |};
     _remove_exited_node := true;
     _wait_pending_relaunch := false;
     _enable_relaunch_node := true;
     _pending_relaunch_count := 0;
     _stopped := false;
     _job_context :=
       {| _job_nodes := {[ NodeType.PS := {[ 0 := example_ps 0 ]} ]};
          _job_stage := JobStage.JOB_RUNNING |};
     effects := [] |}.

Definition example_training_manager : DistributedJobManager :=
  {| _job_args :=
       {| job_name := "train";
          distribution_strategy := DistributionStrategy.PS |};
     _remove_exited_node := true;
     _wait_pending_relaunch := false;
     _enable_relaunch_node := true;
     _pending_relaunch_count := 0;
     _stopped := false;
     _job_context :=
       {| _job_nodes :=
            {[ NodeType.WORKER := {[ 0 := example_worker 0 ]};
               NodeType.PS := {[ 0 := example_ps 0 ]} ]};
          _job_stage := JobStage.JOB_RUNNING |};
     effects := [] |}.

(** The watcher sees worker 4 failed with an error that is none of the
    special exit reasons. *)
Definition error_event : NodeEvent :=
  {| event_type := NodeEventType.MODIFIED;
     node := Node.set_status NodeStatus.FAILED
               (Node.set_exit_reason (Some NodeExitReason.UNKNOWN_ERROR)
                  (example_worker 4)) |}.




(** A history about worker 0: renamed, reported, failed and deleted by
    events, while worker 1 gets a service address and the job is cleared. *)
Definition final_history : list Operation :=
  [op_process_event no_pods renamed_event;
   op_process_reported_node_event succeeded_exited_report;
   op_update_node_service_addr NodeType.WORKER 1 "worker-1.train.svc:3333";
   op_process_event no_pods failed_event;
   op_clear_exited_nodes;
   op_process_event no_pods deleted_event].


(** A state-flow table that also cleans up after a failure: the flows of
    [example_state_flow], and [failed -> deleted] (the flow that
    [_process_node_events] tells apart by its [from_status]). *)
Definition failed_to_deleted : NodeStateFlow :=
  {| from_status := NodeStatus.FAILED; to_status := NodeStatus.DELETED;
     should_relaunch := false |}.
Definition cleanup_state_flow (old_status : NodeStatus.t)
    (event_type : NodeEventType.t) (new_status : NodeStatus.t)
  : option NodeStateFlow :=
  match old_status, new_status with
  | NodeStatus.FAILED, NodeStatus.DELETED => Some failed_to_deleted
  | _, _ => example_state_flow old_status event_type new_status
  end.

(** The pod of the failed worker 3 is deleted. *)
Definition cleanup_event : NodeEvent :=
  {| event_type := NodeEventType.DELETED;
     node := Node.set_status NodeStatus.DELETED (example_worker 3) |}.

(** ** Properties *)

(** *** The relaunch policy *)

(** With relaunch disabled, the transition not relaunch-eligible or the node
    not relaunchable, the policy answers no and touches nothing. *)
Lemma should_relaunch_not_eligible node flow self :
  should_relaunch flow && _enable_relaunch_node self && Node.relaunchable node
  = false ->
  _should_relaunch node flow self = (Returns (false, node), self).
Proof using Type.
  intros H. unfold _should_relaunch, bind, get_self. rewrite H. reflexivity.
Qed.

(** C1: an OOM exit of a relaunchable node in a job that is neither stopping
    nor all-reduce, with declared memory below [MAX_MEMORY] and budget left,
    is relaunched: [_should_relaunch] returns true, marks the node as
    recovered from OOM, calls the optimizer on it and adds exactly one to
    its relaunch count. *)
Theorem should_relaunch_oom_allows node flow self :
  should_relaunch flow = true ->
  _enable_relaunch_node self = true ->
  Node.relaunchable node = true ->
  get_job_stage self ≠ JobStage.JOB_STOPPING ->
  Node.exit_reason node = Some NodeExitReason.OOM ->
  is_all_reduce_type_job self = false ->
  memory (Node.config_resource node) < MAX_MEMORY ->
  Node.relaunch_count node < Node.max_relaunch_count node ->
  let recovered := Node.set_is_recovered_oom true node in
  ∃ node',
    _should_relaunch node flow self
    = (Returns (true, node'),
       set_effects (effects self ++ [adjust_oom_resource recovered]) self)
    ∧ Node.is_recovered_oom node' = true
    ∧ Node.relaunch_count node' = Node.relaunch_count node + 1
    ∧ Node.config_resource node' = oom_resource recovered.
Proof using Type.
  intros Hflow Hen Hrel Hstage Hoom Har Hmem Hcnt recovered.
  eexists. split.
  - unfold _should_relaunch, bind, get_self.
    rewrite Hflow, Hen, Hrel, Hoom, Har. simpl.
    rewrite (bool_decide_eq_false_2 _ Hstage).
    rewrite !bool_decide_eq_false_2 by lia.
    reflexivity.
  - simpl. auto.
Qed.

Lemma scaled_plans_app (es1 es2 : list Effect) :
  scaled_plans (es1 ++ es2) = scaled_plans es1 ++ scaled_plans es2.
Proof using Type.
  induction es1 as [|e es1 IH]; [reflexivity|].
  destruct e; simpl; rewrite ?IH; reflexivity.
Qed.


Lemma set_effects_id (self : DistributedJobManager) :
  set_effects (effects self ++ []) self = self.
Proof using Type. destruct self; unfold set_effects; simpl. now rewrite app_nil_r. Qed.

(** What every relaunch decision does: it returns, it only adds to the
    effects (never a plan), it leaves the node alone when it answers no and
    adds one to the relaunch count when it answers yes; a yes needs an
    eligible transition outside the stopping stage, and budget unless the
    exit reason is [KILLED]. *)
Lemma should_relaunch_spec node flow self :
  ∃ b node' es,
    _should_relaunch node flow self
    = (Returns (b, node'), set_effects (effects self ++ es) self)
    ∧ scaled_plans es = []
    ∧ Node.relaunch_count node'
      = Node.relaunch_count node + (if b then 1 else 0)
    ∧ Node.max_relaunch_count node' = Node.max_relaunch_count node
    ∧ Node.type node' = Node.type node ∧ Node.id node' = Node.id node
    ∧ Node.status node' = Node.status node
    ∧ Node.exit_reason node' = Node.exit_reason node
    ∧ (b = false -> node' = node)
    ∧ (b = true ->
       should_relaunch flow = true ∧ _enable_relaunch_node self = true
       ∧ Node.relaunchable node = true
       ∧ get_job_stage self ≠ JobStage.JOB_STOPPING
       ∧ (Node.exit_reason node = Some NodeExitReason.KILLED
          ∨ Node.relaunch_count node < Node.max_relaunch_count node)).
Proof using Type.
  destruct (should_relaunch flow && _enable_relaunch_node self
            && Node.relaunchable node) eqn:E0.
  - apply andb_prop in E0 as [E0 Hrel]. apply andb_prop in E0 as [Hflow Hen].
    unfold _should_relaunch, bind, get_self, ret, is_all_reduce_type_job.
    rewrite Hflow, Hen, Hrel. simpl.
    destruct relaunch_always; simpl;
      repeat (case_bool_decide; simpl; try congruence);
      (first [ eexists _, _, _; split; [reflexivity|]
             | eexists _, _, (@nil Effect); rewrite set_effects_id;
               split; [reflexivity|] ]);
      simpl; repeat split; try reflexivity; try congruence; try lia; auto.
    all: try (intros _).
    all: try (right; lia).
    all: try (left; destruct (Node.exit_reason node) as [[]|]; congruence).
  - rewrite should_relaunch_not_eligible by assumption.
    exists false, node, []. rewrite set_effects_id.
    repeat split; try reflexivity; try lia; congruence.
Qed.

(** The budget is never consulted for a [KILLED] exit. The decision is yes
    exactly when the transition is relaunch-eligible, relaunch is enabled,
    the node is relaunchable and the job is not stopping; a yes adds one to
    the relaunch count and reports nothing. *)
Lemma should_relaunch_killed_decision node flow self :
  Node.exit_reason node = Some NodeExitReason.KILLED ->
  let eligible :=
    should_relaunch flow && _enable_relaunch_node self
    && Node.relaunchable node in
  let stopping := bool_decide (get_job_stage self = JobStage.JOB_STOPPING) in
  _should_relaunch node flow self
  = if eligible then
      if stopping then
        (Returns (false, node),
         set_effects
           (effects self
            ++ [report_event ACTION_NOT_RELAUNCH
                  "Disable relaunch when job is stopping"]) self)
      else
        (Returns
           (true, Node.set_relaunch_count (Node.relaunch_count node + 1) node),
         self)
    else (Returns (false, node), self).
Proof using Type.
  intros Hk eligible stopping. subst eligible stopping.
  destruct (should_relaunch flow && _enable_relaunch_node self
            && Node.relaunchable node) eqn:E0.
  - unfold _should_relaunch, bind, get_self, ret. rewrite E0, Hk. simpl.
    destruct relaunch_always;
      repeat (case_bool_decide; simpl; try congruence); reflexivity.
  - apply should_relaunch_not_eligible. assumption.
Qed.

(** *** Rules for triples *)

Lemma triple_ret {A} P (a : A) (Q : A -> _ -> Prop) E :
  (∀ self, P self -> Q a self) -> triple P (ret a) Q E.
Proof using Type. intros H self HP. apply H, HP. Qed.

Lemma triple_bind {A B} P (m : M A) (k : A -> M B) R Q E :
  triple P m R E -> (∀ a, triple (R a) (k a) Q E) -> triple P (bind m k) Q E.
Proof using Type.
  intros Hm Hk self HP. specialize (Hm self HP). unfold bind.
  destruct (m self) as [[a| |] self']; [|assumption..].
  apply (Hk a self' Hm).
Qed.

Lemma triple_get P (Q : _ -> _ -> Prop) E :
  (∀ self, P self -> Q self self) -> triple P get_self Q E.
Proof using Type. intros H self HP. apply H, HP. Qed.

Lemma triple_modify P f (Q : unit -> _ -> Prop) E :
  (∀ self, P self -> Q tt (f self)) -> triple P (modify f) Q E.
Proof using Type. intros H self HP. apply H, HP. Qed.

Lemma triple_raise {A} P e (Q : A -> _ -> Prop) (E : _ -> Prop) :
  (∀ self, P self -> E self) -> triple P (raise e) Q E.
Proof using Type. intros H self HP. apply H, HP. Qed.

Lemma triple_os_exit {A} P c (Q : A -> _ -> Prop) (E : _ -> Prop) :
  (∀ self, P self -> E self) -> triple P (os_exit c) Q E.
Proof using Type. intros H self HP. apply H, HP. Qed.

Lemma triple_assume {A} (φ : Prop) P (m : M A) Q E :
  (φ -> triple P m Q E) -> triple (fun self => φ ∧ P self) m Q E.
Proof using Type. intros H self [Hφ HP]. apply (H Hφ self HP). Qed.

Lemma keeps_ret {A} I (a : A) : keeps I (ret a).
Proof using Type. apply triple_ret. auto. Qed.

Lemma keeps_bind {A B} I (m : M A) (k : A -> M B) :
  keeps I m -> (∀ a, keeps I (k a)) -> keeps I (bind m k).
Proof using Type. intros Hm Hk. eapply triple_bind; [exact Hm | exact Hk]. Qed.

Lemma keeps_get I : keeps I get_self.
Proof using Type. apply triple_get. auto. Qed.

Lemma keeps_raise {A} I e : keeps I (raise (A:=A) e).
Proof using Type. apply triple_raise. auto. Qed.

Lemma keeps_os_exit {A} I c : keeps I (os_exit (A:=A) c).
Proof using Type. apply triple_os_exit. auto. Qed.

Lemma keeps_modify (I : _ -> Prop) f :
  (∀ self, I self -> I (f self)) -> keeps I (modify f).
Proof using Type. intros H. apply triple_modify. exact H. Qed.

Lemma keeps_run {A} (I : _ -> Prop) (m : M A) self :
  keeps I m -> I self -> I (m self).2.
Proof using Type.
  intros Hm HI. specialize (Hm self HI).
  destruct (m self) as [[a| |] self']; exact Hm.
Qed.

(** Walks through a method body: one rule per monadic construct, a case
    split per test. *)
Ltac keeps_step :=
  lazymatch goal with
  | |- keeps _ (bind _ _) => apply keeps_bind; [|intros ?]
  | |- keeps _ (ret _) => apply keeps_ret
  | |- keeps _ get_self => apply keeps_get
  | |- keeps _ (raise _) => apply keeps_raise
  | |- keeps _ (os_exit _) => apply keeps_os_exit
  | |- keeps _ (if ?b then _ else _) => destruct b eqn:?
  | |- keeps _ (match ?x with _ => _ end) => destruct x eqn:?
  | |- keeps _ (let _ := _ in _) => cbv zeta
  end.

Ltac unfold_methods :=
  unfold _process_event_safely, _process_event, _process_node_events,
    _should_relaunch, _relaunch_node, close_job, _report_event,
    _job_optimizer_adjust_oom_resource, clear_exited_nodes, clear_all_nodes,
    stop, update_node_service_addr, process_reported_node_event,
    update_job_node, update_job_stage, call.



(** *** The job stage *)


Lemma process_event_safely_keeps I k8s_client event :
  keeps I (_process_event k8s_client event) ->
  keeps I (_process_event_safely k8s_client event).
Proof using Type.
  intros H self HI. specialize (H self HI). unfold _process_event_safely.
  destruct (_process_event k8s_client event self) as [[a| |] self']; exact H.
Qed.


Lemma run_operations_keeps (I : DistributedJobManager -> Prop) ops self :
  (∀ op, op ∈ ops -> keeps I (run_operation op)) ->
  I self -> I (run_operations ops self).
Proof using Type.
  revert self. induction ops as [|op ops IH]; intros self Hops HI; [exact HI|].
  simpl.
  assert (Hop : keeps I (run_operation op)) by (apply Hops; left).
  specialize (Hop self HI).
  destruct (run_operation op self) as [[a| |] self']; try exact Hop.
  all: apply IH; [intros op' Hin; apply Hops; right; exact Hin | exact Hop].
Qed.

(** *** The node store *)

Lemma job_node_update_job_node n ctx :
  job_node (update_job_node_ctx n ctx) (Node.type n) (Node.id n) = Some n.
Proof using Type.
  unfold job_node, update_job_node_ctx. simpl.
  rewrite lookup_insert_eq. simpl. apply lookup_insert_eq.
Qed.

Lemma job_node_update_job_node_ne n ctx node_type node_id :
  (node_type, node_id) ≠ (Node.type n, Node.id n) ->
  job_node (update_job_node_ctx n ctx) node_type node_id
  = job_node ctx node_type node_id.
Proof using Type.
  intros Hne. unfold job_node, update_job_node_ctx. simpl.
  destruct (decide (Node.type n = node_type)) as [<-|Hty].
  - rewrite lookup_insert_eq. simpl.
    rewrite lookup_insert_ne by congruence.
    destruct (_job_nodes ctx !! Node.type n); reflexivity.
  - rewrite lookup_insert_ne by assumption. reflexivity.
Qed.

Lemma job_node_Some ctx node_type node_id n :
  job_node ctx node_type node_id = Some n <->
  ∃ nodes, _job_nodes ctx !! node_type = Some nodes ∧ nodes !! node_id = Some n.
Proof using Type.
  unfold job_node. destruct (_job_nodes ctx !! node_type) as [nodes|]; simpl.
  - split; [eauto | intros (? & [= <-] & ?); assumption].
  - split; [discriminate | intros (? & [=] & _)].
Qed.




(** *** The deletion filter *)

Lemma pod_queries_app (es1 es2 : list Effect) :
  pod_queries (es1 ++ es2) = pod_queries es1 ++ pod_queries es2.
Proof using Type.
  induction es1 as [|e es1 IH]; [reflexivity|].
  destruct e; simpl; rewrite ?IH; reflexivity.
Qed.

Lemma running_pod_exists_true pods :
  running_pod_exists pods = true <->
  ∃ items pod,
    pods = Some items ∧ pod ∈ items
    ∧ phase pod = NodeStatus.RUNNING ∧ deletion_timestamp pod = None.
Proof using Type.
  unfold running_pod_exists. destruct pods as [items|].
  - rewrite andb_true_iff, existsb_exists, bool_decide_eq_true. split.
    + intros (_ & pod & Hin & Hpod).
      apply andb_prop in Hpod as [Hphase Hdel].
      apply bool_decide_eq_true_1 in Hphase, Hdel.
      exists items, pod. rewrite list_elem_of_In. auto.
    + intros (items' & pod & [= <-] & Hin & Hphase & Hdel). split.
      * destruct items; [inversion Hin | simpl; lia].
      * exists pod. rewrite <- list_elem_of_In. split; [assumption|].
        rewrite !bool_decide_eq_true_2 by assumption. reflexivity.
  - split; [discriminate | intros (? & ? & [=] & _)].
Qed.

Lemma is_positive_exit_true exit_reason :
  is_positive_exit exit_reason = true <->
  exit_reason = Some NodeExitReason.DIAG_FAIL
  ∨ exit_reason = Some NodeExitReason.NO_HEARTBEAT.
Proof using Type.
  unfold is_positive_exit. case_bool_decide; split; auto; discriminate.
Qed.

Ltac effects_auto :=
  repeat (keeps_step
          || (apply keeps_modify; intros ? ?; simpl in *;
              rewrite ?pod_queries_app, ?scaled_plans_app; simpl;
              rewrite ?app_nil_r; auto)).

(** Effects only grow past [pre], and without a further query. *)
Lemma keeps_no_more_queries pre f :
  (∀ s, effects (f s) = effects s
        ∨ ∃ e, effects (f s) = effects s ++ [e] ∧ pod_queries [e] = []) ->
  keeps (fun s => ∃ rest, effects s = pre ++ rest ∧ pod_queries rest = [])
    (modify f).
Proof using Type.
  intros Hf. apply keeps_modify. intros s (rest & Hs & Hq).
  destruct (Hf s) as [-> | (e & -> & He)].
  - exists rest. split; assumption.
  - exists (rest ++ [e]). rewrite Hs, <- app_assoc. split; [reflexivity|].
    rewrite pod_queries_app, Hq, He. reflexivity.
Qed.

Ltac no_more_queries :=
  repeat (keeps_step
          || (apply keeps_no_more_queries; intros ?;
              first [ left; reflexivity
                    | right; eexists; split; reflexivity ])).

(** C4: a deleted event whose exit reason is not positive makes
    [_process_event] ask the cluster for the pods under the node's unique
    labels (job name, replica type, rank index, replica index): the query
    is the first thing it does, it is made once, whatever the cluster
    answers. When one of the listed pods is running without a deletion
    timestamp the method returns with nothing but that query done; when
    none is, the event is processed, in the same way for every such
    answer. An event with exit reason [DIAG_FAIL] or [NO_HEARTBEAT] skips
    the filter: no query is sent and the outcome does not depend on the
    cluster. *)
Theorem process_event_deletion_filter k8s_client event self :
  let pod_labels := _get_pod_unique_labels self (node event) in
  pod_labels
  = {| JOB_KEY := job_name (_job_args self);
       REPLICA_TYPE_KEY := Node.type (node event);
       RANK_INDEX_KEY := Node.rank_index (node event);
       REPLICA_INDEX_KEY := Node.id (node event) |}
  ∧ ((event_type event = NodeEventType.DELETED
      ∨ Node.status (node event) = NodeStatus.DELETED) ->
     is_positive_exit (Node.exit_reason (node event)) = false ->
     (∃ rest,
        effects (_process_event k8s_client event self).2
        = effects self ++ list_namespaced_pod pod_labels :: rest
        ∧ pod_queries rest = [])
     ∧ ((∃ items pod,
           k8s_client pod_labels = Some items ∧ pod ∈ items
           ∧ phase pod = NodeStatus.RUNNING ∧ deletion_timestamp pod = None) ->
        _process_event k8s_client event self
        = (Returns tt,
           set_effects (effects self ++ [list_namespaced_pod pod_labels])
             self))
     ∧ (running_pod_exists (k8s_client pod_labels) = false ->
        ∀ other_client,
          running_pod_exists (other_client pod_labels) = false ->
          _process_event other_client event self
          = _process_event k8s_client event self))
  ∧ (Node.exit_reason (node event) = Some NodeExitReason.DIAG_FAIL
     ∨ Node.exit_reason (node event) = Some NodeExitReason.NO_HEARTBEAT ->
     pod_queries (effects (_process_event k8s_client event self).2)
     = pod_queries (effects self)
     ∧ ∀ other_client,
         _process_event other_client event self
         = _process_event k8s_client event self).
Proof using Type.
  intros pod_labels. split; [reflexivity|]. split.
  - intros Hdel Hpos.
    assert (Hfilter :
      bool_decide (event_type event = NodeEventType.DELETED)
      || bool_decide (Node.status (node event) = NodeStatus.DELETED) = true).
    { apply orb_true_iff.
      destruct Hdel as [H|H]; [left | right]; apply bool_decide_eq_true_2, H. }
    split; [|split].
    + set (I := fun s =>
        ∃ rest,
          effects s = (effects self ++ [list_namespaced_pod pod_labels]) ++ rest
          ∧ pod_queries rest = []).
      assert (Hrun : I (_process_event k8s_client event self).2).
      { assert (Htriple : triple (fun s => s = self)
                            (_process_event k8s_client event)
                            (fun _ => I) I).
        { unfold _process_event.
          eapply triple_bind;
            [apply (triple_get _ (fun a s => a = self ∧ s = self));
             intros s ->; split; reflexivity|].
          intros a. apply triple_assume. intros ->.
          rewrite Hfilter, Hpos. cbn [andb negb]. fold pod_labels.
          eapply (triple_bind _ _ _ (fun _ => I)).
          - intros s ->. cbn. exists []. rewrite app_nil_r.
            split; reflexivity.
          - intros skip. subst I.
            lazymatch goal with
            | |- triple ?P ?m _ _ => change (keeps P m)
            end.
            unfold_methods. no_more_queries. }
        specialize (Htriple self eq_refl).
        destruct (_process_event k8s_client event self) as [[[]| |] s];
          exact Htriple. }
      destruct Hrun as (rest & Hrest & Hq). exists rest.
      rewrite Hrest, <- app_assoc. split; [reflexivity | exact Hq].
    + intros Hpod. apply running_pod_exists_true in Hpod.
      unfold _process_event, bind, get_self, ret, call, modify.
      rewrite Hfilter, Hpos. fold pod_labels. rewrite Hpod. reflexivity.
    + intros Hnone other_client Hother.
      unfold _process_event, bind, get_self, ret, call, modify.
      rewrite Hfilter, Hpos. fold pod_labels. cbn [andb negb].
      rewrite Hnone, Hother. reflexivity.
  - intros Hpos. apply is_positive_exit_true in Hpos. split.
    + apply (keeps_run (fun s => pod_queries (effects s)
                                 = pod_queries (effects self)));
        [|reflexivity].
      unfold _process_event. rewrite Hpos, andb_false_r.
      unfold_methods. effects_auto.
    + intros other_client. unfold _process_event.
      rewrite Hpos, andb_false_r. reflexivity.
Qed.
(** *** Events without a transition *)

(** C5, as the code has it: when the state flow of an event other than
    ["exit"] is none, or leaves [SUCCEEDED], [_process_event] makes no
    transition: it returns, writes neither status nor exit reason, reports
    nothing and passes nothing to the scaler; the job stage and the flags
    are as before. The store is not left unchanged, though: unless the
    deletion filter dropped the event, the target node has been replaced by
    the node that [update_info] returned for the eight observed values of
    the event, written under that node's type and id before the flow was
    looked up (from the status that [update_info] left); every other
    entry of the store is as before. *)
Theorem process_event_without_flow k8s_client event self cur :
  let pod_labels := _get_pod_unique_labels self (node event) in
  let cur' := observed event cur in
  let queries :=
    if deletion_filter_applies event then [list_namespaced_pod pod_labels]
    else [] in
  let dropped :=
    deletion_filter_applies event
    && running_pod_exists (k8s_client pod_labels) in
  let self' :=
    if dropped then set_effects (effects self ++ queries) self
    else
      set_job_context (update_job_node_ctx cur' (_job_context self))
        (set_effects (effects self ++ queries) self) in
  job_node (_job_context self) (Node.type (node event)) (Node.id (node event))
  = Some cur ->
  event_type event ≠ NodeEventType.EXIT ->
  (get_node_state_flow (Node.status cur') (event_type event)
     (Node.status (node event)) = None
   ∨ ∃ flow,
       get_node_state_flow (Node.status cur') (event_type event)
         (Node.status (node event)) = Some flow
       ∧ from_status flow = NodeStatus.SUCCEEDED) ->
  _process_event k8s_client event self = (Returns tt, self')
  ∧ scaled_plans (effects self') = scaled_plans (effects self)
  ∧ get_job_stage self' = get_job_stage self
  ∧ (dropped = true -> get_job_nodes self' = get_job_nodes self)
  ∧ (dropped = false ->
     job_node (_job_context self') (Node.type cur') (Node.id cur') = Some cur'
     ∧ ∀ node_type node_id,
         (node_type, node_id) ≠ (Node.type cur', Node.id cur') ->
         job_node (_job_context self') node_type node_id
         = job_node (_job_context self) node_type node_id).
Proof using Type.
  intros pod_labels cur' queries dropped self' Hcur Hexit Hflow.
  apply job_node_Some in Hcur as Hlook. destruct Hlook as (nodes & Hnodes & Hn).
  assert (Hplans : scaled_plans (effects self ++ queries)
                   = scaled_plans (effects self)).
  { subst queries. rewrite scaled_plans_app.
    destruct (deletion_filter_applies event); apply app_nil_r. }
  split.
  - unfold _process_event, bind, get_self, ret, call, modify, update_job_node.
    fold pod_labels.
    change ((bool_decide (event_type event = NodeEventType.DELETED)
             || bool_decide (Node.status (node event) = NodeStatus.DELETED))
            && negb (is_positive_exit (Node.exit_reason (node event))))
      with (deletion_filter_applies event).
    subst self' dropped queries.
    destruct (deletion_filter_applies event); cbn [andb].
    + destruct (running_pod_exists (k8s_client pod_labels)); [reflexivity|].
      unfold get_job_nodes. cbn -[update_job_node_ctx].
      rewrite Hnodes, Hn. fold (observed event cur). fold cur'.
      rewrite (bool_decide_eq_false_2 _ Hexit).
      cbn -[update_job_node_ctx].
      destruct Hflow as [-> | (flow & -> & ->)]; reflexivity.
    + unfold get_job_nodes. cbn -[update_job_node_ctx].
      rewrite Hnodes, Hn. fold (observed event cur). fold cur'.
      rewrite (bool_decide_eq_false_2 _ Hexit).
      cbn -[update_job_node_ctx]. rewrite app_nil_r.
      destruct Hflow as [-> | (flow & -> & ->)]; reflexivity.
  - subst self'. destruct dropped.
    + split; [exact Hplans|]. split; [reflexivity|].
      split; [reflexivity | discriminate].
    + split; [exact Hplans|]. split; [reflexivity|].
      split; [discriminate|]. intros _. split.
      * exact (job_node_update_job_node cur' _).
      * intros node_type node_id Hne.
        exact (job_node_update_job_node_ne cur' _ _ _ Hne).
Qed.

(** *** Killed nodes *)

Lemma process_node_events_run flow n self :
  ∃ es,
    _process_node_events flow n self
    = (Returns tt, set_effects (effects self ++ es) self)
    ∧ scaled_plans es = [].
Proof using Type.
  unfold _process_node_events, call, modify, ret.
  repeat case_bool_decide; cbn [andb];
    try (eexists; split; reflexivity).
  all: exists []; rewrite set_effects_id; split; reflexivity.
Qed.

(** C7, as the code has it: a [KILLED] exit is relaunched without a look at
    the budget. [_should_relaunch] answers yes exactly when the transition
    is relaunch-eligible, relaunch is enabled, the node is relaunchable and
    the job is not stopping, and then adds one to the relaunch count; and
    [_process_event], for such an event on a stored node, hands the node to
    [_relaunch_node], which passes one more plan to the scaler. The
    pipeline reads the old status and the relaunchable flag of the stored
    node after [update_info] has taken the observed values. *)
Theorem killed_exit_is_relaunched :
  (∀ node flow self,
     Node.exit_reason node = Some NodeExitReason.KILLED ->
     _should_relaunch node flow self
     = if should_relaunch flow && _enable_relaunch_node self
          && Node.relaunchable node
       then
         if bool_decide (get_job_stage self = JobStage.JOB_STOPPING) then
           (Returns (false, node),
            set_effects
              (effects self
               ++ [report_event ACTION_NOT_RELAUNCH
                     "Disable relaunch when job is stopping"]) self)
         else
           (Returns
              (true,
               Node.set_relaunch_count (Node.relaunch_count node + 1) node),
            self)
       else (Returns (false, node), self))
  ∧ (∀ k8s_client event self cur flow,
       let cur' :=
         update_info
           (Node.name (node event)) (Node.start_time (node event))
           (Node.create_time (node event)) (Node.host_name (node event))
           (Node.host_ip (node event)) (Node.restart_training (node event))
           (Node.relaunch_count (node event)) (Node.is_released (node event))
           cur in
       event_type event ≠ NodeEventType.DELETED ->
       Node.status (node event) ≠ NodeStatus.DELETED ->
       event_type event ≠ NodeEventType.EXIT ->
       job_node (_job_context self) (Node.type (node event))
         (Node.id (node event)) = Some cur ->
       get_node_state_flow (Node.status cur') (event_type event)
         (Node.status (node event)) = Some flow ->
       from_status flow ≠ NodeStatus.SUCCEEDED ->
       should_relaunch flow = true ->
       _enable_relaunch_node self = true ->
       Node.relaunchable cur' = true ->
       get_job_stage self ≠ JobStage.JOB_STOPPING ->
       Node.exit_reason (node event) = Some NodeExitReason.KILLED ->
       ∃ plan self',
         _process_event k8s_client event self = (Returns tt, self')
         ∧ scaled_plans (effects self')
           = scaled_plans (effects self) ++ [plan]).
Proof using Type.
  split; [exact should_relaunch_killed_decision|].
  intros k8s_client event self cur flow cur' Hev Hst Hexit Hcur Hflow Hfrom
    Hrel Hen Hable Hstage Hkilled.
  apply job_node_Some in Hcur as (nodes & Hnodes & Hn).
  unfold _process_event, bind, get_self, ret, update_job_node, modify.
  rewrite (bool_decide_eq_false_2 _ Hev), (bool_decide_eq_false_2 _ Hst).
  cbn -[_should_relaunch _relaunch_node _process_node_events].
  unfold get_job_nodes. rewrite Hnodes, Hn. fold cur'.
  rewrite (bool_decide_eq_false_2 _ Hexit).
  cbn -[_should_relaunch _relaunch_node _process_node_events].
  rewrite Hflow, (bool_decide_eq_false_2 _ Hfrom).
  lazymatch goal with
  | |- context [_process_node_events ?f ?n ?s] =>
      pose proof (process_node_events_run f n s) as (es & Hcb & Hes)
  end.
  rewrite Hcb.
  rewrite should_relaunch_killed_decision by exact Hkilled.
  cbn -[_relaunch_node]. rewrite Hrel, Hen, Hable.
  unfold get_job_stage in *. cbn -[_relaunch_node].
  rewrite (bool_decide_eq_false_2 _ Hstage).
  unfold _relaunch_node, bind, get_self, ret, call, modify, update_job_node.
  cbn.
  destruct (_wait_pending_relaunch self); cbn.
  all: lazymatch goal with
       | |- context [relaunch_node ?m ?n ?b ?js] =>
           destruct (relaunch_node m n b js) as [[plan node'] job_nodes']
       end.
  all: destruct (launch_nodes plan); cbn;
    (eexists _, _; split; [reflexivity|]); cbn;
    rewrite !scaled_plans_app, Hes; cbn; rewrite ?app_nil_r; reflexivity.
Qed.

(** *** After [stop] *)





(** Membership in the snapshot that the loops iterate. *)
Lemma elem_of_job_nodes_values nodes n :
  n ∈ job_nodes_values nodes <->
  ∃ node_type ns node_id,
    nodes !! node_type = Some ns ∧ ns !! node_id = Some n.
Proof using Type.
  unfold job_nodes_values. rewrite list_elem_of_bind. split.
  - intros ([node_type ns] & Hn & Hns).
    apply elem_of_map_to_list in Hns.
    apply list_elem_of_fmap in Hn as ([node_id n'] & -> & Hn).
    apply elem_of_map_to_list in Hn. eauto.
  - intros (node_type & ns & node_id & Hns & Hn).
    exists (node_type, ns). split.
    + apply list_elem_of_fmap. exists (node_id, n). split; [reflexivity|].
      apply elem_of_map_to_list. exact Hn.
    + apply elem_of_map_to_list. exact Hns.
Qed.

Lemma all_nodes_update_job_node (P : Node.t -> Prop) n ctx self :
  P n ->
  all_nodes P (set_job_context ctx self) ->
  all_nodes P (set_job_context (update_job_node_ctx n ctx) self).
Proof using Type.
  intros HP Hall node_type nodes node_id n'. unfold get_job_nodes. simpl.
  destruct (decide (Node.type n = node_type)) as [<-|Hne].
  - rewrite lookup_insert_eq. intros [= <-].
    destruct (decide (Node.id n = node_id)) as [<-|Hid].
    + rewrite lookup_insert_eq. intros [= <-]. exact HP.
    + rewrite lookup_insert_ne by assumption.
      destruct (_job_nodes ctx !! Node.type n) as [ns|] eqn:Hns; simpl.
      * intros Hn. exact (Hall _ _ _ _ Hns Hn).
      * rewrite lookup_empty. discriminate.
  - rewrite lookup_insert_ne by assumption. intros Hns Hn.
    exact (Hall _ _ _ _ Hns Hn).
Qed.

Lemma all_nodes_update_job_nodes (P : Node.t -> Prop) nodes ctx self :
  Forall P nodes ->
  all_nodes P (set_job_context ctx self) ->
  all_nodes P (set_job_context (update_job_nodes nodes ctx) self).
Proof using Type.
  intros Hnodes. revert ctx.
  induction Hnodes as [|n nodes HP _ IH]; intros ctx Hall; [exact Hall|].
  simpl. apply IH. apply all_nodes_update_job_node; assumption.
Qed.

Lemma all_nodes_mutate (P : Node.t -> Prop) f self :
  (∀ n, P (f n)) ->
  all_nodes P (set_job_context (mutate_job_nodes f (_job_context self)) self).
Proof using Type.
  intros HP node_type nodes node_id n. unfold get_job_nodes. simpl.
  rewrite lookup_fmap.
  destruct (_job_nodes (_job_context self) !! node_type) as [ns|]; simpl;
    [|discriminate].
  intros [= <-]. rewrite lookup_fmap.
  destruct (ns !! node_id) as [n0|]; simpl; [|discriminate].
  intros [= <-]. apply HP.
Qed.

Lemma all_nodes_mutate_of (P : Node.t -> Prop) node_type f ctx self :
  (∀ n, P n -> P (f n)) ->
  all_nodes P (set_job_context ctx self) ->
  all_nodes P (set_job_context (mutate_job_nodes_of node_type f ctx) self).
Proof using Type.
  intros HP Hall node_type' nodes node_id n. unfold get_job_nodes. simpl.
  destruct (decide (node_type = node_type')) as [<-|Hne].
  - rewrite lookup_alter_eq.
    destruct (_job_nodes ctx !! node_type) as [ns|] eqn:Hns; simpl;
      [|discriminate].
    intros [= <-]. rewrite lookup_fmap.
    destruct (ns !! node_id) as [n0|] eqn:Hn0; simpl; [|discriminate].
    intros [= <-]. apply HP. exact (Hall _ _ _ _ Hns Hn0).
  - rewrite lookup_alter_ne by assumption. intros Hns Hn.
    exact (Hall _ _ _ _ Hns Hn).
Qed.

Lemma filter_nil_of_all {A} (f : A -> bool) (l : list A) :
  (∀ x, x ∈ l -> f x = false) -> List.filter f l = [].
Proof using Type.
  induction l as [|x l IH]; intros H; [reflexivity|].
  simpl. rewrite (H x) by left. apply IH. intros y Hy. apply H. right. exact Hy.
Qed.


(** What [stop] does on a manager that is not stopped and has a worker
    group. *)
Lemma stop_run self :
  _stopped self = false ->
  is_Some (get_job_nodes self !! NodeType.WORKER) ->
  ∃ ctx workers,
    stop self
    = (Returns tt,
       set_stopped true
         (set_job_context ctx
            (set_effects
               (effects self
                ++ ((fun node =>
                       perf_monitor_get_worker_eval_time (Node.id node))
                      <$> workers))
               (set_enable_relaunch_node false self))))
    ∧ all_nodes stopped_node
        (set_job_context ctx (set_enable_relaunch_node false self))
    ∧ ∃ released_workers,
        _job_nodes
          (update_job_nodes
             (stop_node <$> job_nodes_values (get_job_nodes self))
             (mutate_job_nodes stop_node (_job_context self)))
        !! NodeType.WORKER = Some released_workers
        ∧ workers = (map_to_list released_workers).*2.
Proof using Type.
  intros Hstopped Hworker.
  unfold stop, bind, get_self, ret, modify. rewrite Hstopped.
  cbn -[update_job_nodes mutate_job_nodes mutate_job_nodes_of].
  set (ctx1 := update_job_nodes _ (mutate_job_nodes stop_node _)).
  assert (Hall1 : all_nodes stopped_node
                    (set_job_context ctx1 (set_enable_relaunch_node false self))).
  { subst ctx1. apply all_nodes_update_job_nodes.
    - apply Forall_forall. intros n Hn.
      apply list_elem_of_fmap in Hn as (n0 & -> & _). repeat split.
    - apply (all_nodes_mutate stopped_node stop_node
               (set_enable_relaunch_node false self)).
      intros n. repeat split. }
  assert (Hw1 : is_Some (_job_nodes ctx1 !! NodeType.WORKER)).
  { subst ctx1. clear Hall1.
    assert (Hm : is_Some
              (_job_nodes (mutate_job_nodes stop_node (_job_context self))
               !! NodeType.WORKER)).
    { simpl. rewrite lookup_fmap. destruct Hworker as [ns Hns].
      unfold get_job_nodes in Hns. rewrite Hns. simpl. eauto. }
    revert Hm.
    generalize (mutate_job_nodes stop_node (_job_context self)).
    induction (stop_node <$> job_nodes_values (get_job_nodes self))
      as [|n l IH]; intros ctx Hm; [exact Hm|].
    simpl. apply IH. simpl.
    destruct (decide (Node.type n = NodeType.WORKER)) as [->|Hne].
    - rewrite lookup_insert_eq. eauto.
    - rewrite lookup_insert_ne by assumption. exact Hm. }
  unfold get_job_nodes.
  cbn -[update_job_nodes mutate_job_nodes mutate_job_nodes_of].
  destruct Hw1 as [workers Hworkers]. fold ctx1. rewrite Hworkers.
  cbn -[update_job_nodes mutate_job_nodes mutate_job_nodes_of].
  eexists _, (map_to_list workers).*2. split; [reflexivity|].
  split; [|exists workers; split; reflexivity].
  apply all_nodes_update_job_nodes.
  - apply Forall_forall. intros n Hn.
    apply list_elem_of_fmap in Hn as (n0 & -> & Hn0).
    apply list_elem_of_fmap in Hn0 as ([node_id n1] & -> & Hn1).
    apply elem_of_map_to_list in Hn1.
    destruct (Hall1 _ _ _ _ Hworkers Hn1) as (? & ? & ?).
    repeat split; assumption.
  - apply all_nodes_mutate_of; [|exact Hall1].
    intros n (? & ? & ?). repeat split; assumption.
Qed.




(** *** Any history after [stop] *)





(** *** The heartbeat monitor *)

Lemma get_nodes_time_info_run self :
  _get_nodes_time_info self
  = (match time_info_error (get_job_nodes self) with
     | Some e => Raises e
     | None => Returns tt
     end, self).
Proof using Type.
  unfold _get_nodes_time_info, time_info_error, bind, get_self.
  induction (job_nodes_values (get_job_nodes self)) as [|n nodes IH];
    [reflexivity|].
  cbn [for_each omap list_omap]. unfold bind at 1.
  case_bool_decide; [exact IH|].
  destruct (fromtimestamp_error (Node.heartbeat_time n)); [reflexivity|].
  exact IH.
Qed.

(** One round of the loop, on a state whose store is [job_nodes]. *)
Lemma dead_node_step_run now window_interval dead_events node self :
  dead_node_step now window_interval dead_events node self
  = if skipped_node now window_interval node then
      (match time_info_error (get_job_nodes self) with
       | Some e => Raises e
       | None => Returns dead_events
       end, self)
    else if dead_node now window_interval node then
      (Returns (dead_events ++ [no_heartbeat_event node]),
       set_effects (effects self ++ no_heartbeat_reports window_interval node)
         self)
    else (Returns dead_events, self).
Proof using Type.
  unfold dead_node_step, skipped_node, dead_node.
  destruct (heartbeat_timed_out now window_interval node); cbn [andb negb];
    [|reflexivity].
  destruct (heartbeat_too_old node); cbn [negb].
  - unfold bind. rewrite get_nodes_time_info_run.
    destruct (time_info_error (get_job_nodes self)); reflexivity.
  - unfold _process_error, bind, call, modify, ret.
    rewrite bool_decide_eq_true_2 by reflexivity.
    cbn. unfold set_effects. cbn. rewrite <- ?app_assoc. reflexivity.
Qed.

Lemma set_effects_set_effects es1 es2 self :
  set_effects (effects (set_effects (effects self ++ es1) self) ++ es2)
    (set_effects (effects self ++ es1) self)
  = set_effects (effects self ++ es1 ++ es2) self.
Proof using Type. unfold set_effects. simpl. rewrite app_assoc. reflexivity. Qed.

Lemma existsb_skipped_nodes_before now window_interval nodes :
  existsb (skipped_node now window_interval) nodes = false ->
  nodes_before_skip now window_interval nodes = nodes.
Proof using Type.
  induction nodes as [|n nodes IH]; [reflexivity|].
  cbn [existsb nodes_before_skip]. intros H.
  apply orb_false_iff in H as [-> H]. rewrite IH by exact H. reflexivity.
Qed.

(** The whole scan: it raises when it meets a skipped node on a store whose
    time info cannot be built, after the reports on the dead nodes before
    that node; otherwise it returns one event per dead node. *)
Lemma get_dead_node_event_run now window_interval self :
  let nodes := job_nodes_values (get_job_nodes self) in
  let scanned := nodes_before_skip now window_interval nodes in
  _get_dead_node_event now window_interval self
  = match time_info_error (get_job_nodes self) with
    | Some e =>
        if existsb (skipped_node now window_interval) nodes then
          (Raises e,
           set_effects
             (effects self
              ++ (List.filter (dead_node now window_interval) scanned
                    ≫= no_heartbeat_reports window_interval)) self)
        else
          (Returns
             (no_heartbeat_event
                <$> List.filter (dead_node now window_interval) nodes),
           set_effects
             (effects self
              ++ (List.filter (dead_node now window_interval) nodes
                    ≫= no_heartbeat_reports window_interval)) self)
    | None =>
        (Returns
           (no_heartbeat_event
              <$> List.filter (dead_node now window_interval) nodes),
         set_effects
           (effects self
            ++ (List.filter (dead_node now window_interval) nodes
                  ≫= no_heartbeat_reports window_interval)) self)
    end.
Proof using Type.
  set (dead := dead_node now window_interval).
  set (skip := skipped_node now window_interval).
  set (reports := no_heartbeat_reports window_interval).
  assert (Hexcl : ∀ n, skip n = true -> dead n = false).
  { intros n. unfold skip, dead, skipped_node, dead_node.
    destruct (heartbeat_timed_out now window_interval n),
      (heartbeat_too_old n); simpl; congruence. }
  assert (Hloop : ∀ nodes dead_events s,
    get_job_nodes s = get_job_nodes self ->
    for_each (dead_node_step now window_interval) dead_events nodes s
    = match time_info_error (get_job_nodes self) with
      | Some e =>
          if existsb skip nodes then
            (Raises e,
             set_effects
               (effects s
                ++ (List.filter dead
                      (nodes_before_skip now window_interval nodes)
                      ≫= reports)) s)
          else
            (Returns
               (dead_events ++ (no_heartbeat_event <$> List.filter dead nodes)),
             set_effects (effects s ++ (List.filter dead nodes ≫= reports)) s)
      | None =>
          (Returns
             (dead_events ++ (no_heartbeat_event <$> List.filter dead nodes)),
           set_effects (effects s ++ (List.filter dead nodes ≫= reports)) s)
      end).
  { induction nodes as [|n nodes IH]; intros dead_events s Hs.
    - cbn. rewrite app_nil_r, set_effects_id.
      destruct (time_info_error (get_job_nodes self)); reflexivity.
    - cbn [for_each]. unfold bind at 1.
      rewrite dead_node_step_run, Hs. fold (skip n) (dead n).
      cbn [existsb nodes_before_skip List.filter]. fold (skip n).
      destruct (skip n) eqn:Hskip.
      + rewrite (Hexcl n Hskip). cbn [orb].
        destruct (time_info_error (get_job_nodes self)) as [e|] eqn:Herr.
        * cbn [List.filter mbind list_bind]. rewrite set_effects_id.
          reflexivity.
        * exact (IH dead_events s Hs).
      + cbn [orb]. destruct (dead n) eqn:Hdead.
        * rewrite IH by exact Hs. cbn [List.filter]. rewrite Hdead.
          cbn [fmap list_fmap mbind list_bind].
          rewrite !set_effects_set_effects, <- !app_assoc.
          destruct (time_info_error (get_job_nodes self));
            [destruct (existsb skip nodes)|]; reflexivity.
        * rewrite IH by exact Hs. cbn [List.filter]. rewrite Hdead.
          reflexivity. }
  intros nodes scanned. unfold _get_dead_node_event, bind, get_self.
  rewrite Hloop by reflexivity. reflexivity.
Qed.


Lemma dead_node_timed_out now window_interval nodes n :
  n ∈ List.filter (dead_node now window_interval) nodes ->
  n ∈ nodes ∧ Node.status n = NodeStatus.RUNNING
  ∧ window_interval < now - Node.heartbeat_time n.
Proof using Type.
  intros Hn. apply list_elem_of_In, filter_In in Hn as [Hin Htest].
  rewrite <- list_elem_of_In in Hin. split; [exact Hin|].
  unfold dead_node, heartbeat_timed_out in Htest.
  rewrite !andb_true_iff, !bool_decide_eq_true in Htest.
  destruct Htest as [[[[[[_ Hold] _] _] Hst] _] _]. auto.
Qed.




(** *** Early stop *)

(** C8: [should_early_stop] checks four conditions in this order and
    returns on the first that holds: (1) for an all-reduce job, all initial
    workers failed the node check: [NODE_CHECK_FAILED]; (2) some
    OOM-recovered parameter server pending past its timeout:
    [PENDING_TIMEOUT]; (3) a pending node found by the parameter-server or
    the worker manager: [PENDING_TIMEOUT]; (4) for an all-reduce job,
    insufficient workers: [UNCOMPLETED_TIMEOUT]; each with [true] and its
    message. When none holds it returns [false] with an empty reason and an
    empty message. *)
Theorem should_early_stop_order self :
  let ctx := _job_context self in
  let job_type := distribution_strategy (_job_args self) in
  let node_check_failed :=
    is_all_reduce_type_job self = true
    ∧ is_all_initial_workers_node_check_failed worker_num ctx = true in
  let oom_pending_timeout :=
    get_pending_timeout_oom_recovered_node ctx ≠ [] in
  let pending_hang :=
    find_pending_node_caused_training_hang _ps_manager ps_num job_type ctx
    ≠ None
    ∨ find_pending_node_caused_training_hang _worker_manager worker_num
        job_type ctx ≠ None in
  let insufficient_worker :=
    is_all_reduce_type_job self = true
    ∧ is_training_hang_by_insufficient_worker ctx = true in
  ∃ result self',
    should_early_stop self = (Returns result, self')
    ∧ (node_check_failed ->
       result
       = (true, Some JobExitReason.NODE_CHECK_FAILED, msg_node_check_failed))
    ∧ (¬ node_check_failed -> oom_pending_timeout ->
       result
       = (true, Some JobExitReason.PENDING_TIMEOUT, msg_oom_pending_timeout))
    ∧ (¬ node_check_failed -> ¬ oom_pending_timeout -> pending_hang ->
       result
       = (true, Some JobExitReason.PENDING_TIMEOUT, msg_pending_timeout))
    ∧ (¬ node_check_failed -> ¬ oom_pending_timeout -> ¬ pending_hang ->
       insufficient_worker ->
       result
       = (true, Some JobExitReason.UNCOMPLETED_TIMEOUT,
          msg_insufficient_worker))
    ∧ (¬ node_check_failed -> ¬ oom_pending_timeout -> ¬ pending_hang ->
       ¬ insufficient_worker ->
       result = (false, None, "")).
Proof using Type.
  clear MAX_MEMORY relaunch_always oom_resource get_node_state_flow
    update_info relaunch_node get_ps_addrs exited get_worker_eval_time
    fromtimestamp_error.
  intros ctx job_type node_check_failed oom_pending_timeout pending_hang
    insufficient_worker.
  subst node_check_failed oom_pending_timeout pending_hang insufficient_worker.
  unfold should_early_stop, bind, get_self, ret, _process_error, _report_event,
    call, modify.
  fold ctx job_type.
  destruct (is_all_reduce_type_job self) eqn:Har;
    destruct (is_all_initial_workers_node_check_failed worker_num ctx) eqn:H1;
    cbn [andb].
  1: { eexists _, _. split; [reflexivity|].
       repeat split; intros; try reflexivity; exfalso; tauto. }
  all: destruct (get_pending_timeout_oom_recovered_node ctx) as [|n0 l0] eqn:H2;
    cbn [length bool_decide head].
  all: try (rewrite bool_decide_eq_true_2 by (simpl; lia); cbn;
            eexists _, _; (split; [reflexivity|]);
            repeat split; intros; try reflexivity; exfalso;
            (tauto || intuition congruence)).
  all: rewrite bool_decide_eq_false_2 by (simpl; lia).
  all: destruct (find_pending_node_caused_training_hang _ps_manager ps_num
                   job_type ctx) as [n1|] eqn:H3;
    [|destruct (find_pending_node_caused_training_hang _worker_manager
                  worker_num job_type ctx) as [n2|] eqn:H4].
  all: try (rewrite bool_decide_eq_true_2 by discriminate; cbn;
            eexists _, _; (split; [reflexivity|]);
            repeat split; intros; try reflexivity; exfalso;
            (tauto || intuition congruence)).
  all: rewrite bool_decide_eq_false_2 by (intros Hne; apply Hne; reflexivity).
  all: destruct (is_training_hang_by_insufficient_worker ctx) eqn:H5;
    cbn; eexists _, _; (split; [reflexivity|]);
    repeat split; intros; try reflexivity; exfalso;
    (tauto || intuition congruence).
Qed.

(** *** The decision table of the relaunch policy *)

(** X1: [_should_relaunch] always returns, and it answers yes exactly when
    the transition is relaunch-eligible, relaunch is enabled, the node is
    relaunchable, the job is not stopping, the exit reason is not a fatal
    error (unless [relaunch_always] is set) and not [RELAUNCHED], an OOM
    exit is in a job that is not all-reduce with declared memory below
    [MAX_MEMORY], and, for every exit reason but [KILLED], the relaunch
    count is below [max_relaunch_count]. *)
Theorem should_relaunch_decision node flow self :
  ∃ b node' self',
    _should_relaunch node flow self = (Returns (b, node'), self')
    ∧ (b = true <->
       should_relaunch flow = true ∧ _enable_relaunch_node self = true
       ∧ Node.relaunchable node = true
       ∧ get_job_stage self ≠ JobStage.JOB_STOPPING
       ∧ (Node.exit_reason node = Some NodeExitReason.FATAL_ERROR ->
          relaunch_always = true)
       ∧ Node.exit_reason node ≠ Some NodeExitReason.RELAUNCHED
       ∧ (Node.exit_reason node = Some NodeExitReason.OOM ->
          is_all_reduce_type_job self = false
          ∧ memory (Node.config_resource node) < MAX_MEMORY)
       ∧ (Node.exit_reason node ≠ Some NodeExitReason.KILLED ->
          Node.relaunch_count node < Node.max_relaunch_count node)).
Proof using Type.
  destruct (should_relaunch flow && _enable_relaunch_node self
            && Node.relaunchable node) eqn:E0.
  - apply andb_prop in E0 as [E0 Hrel]. apply andb_prop in E0 as [Hflow Hen].
    unfold _should_relaunch, bind, get_self, ret, _report_event, call, modify,
      _job_optimizer_adjust_oom_resource.
    rewrite Hflow, Hen, Hrel. cbn [andb].
    destruct relaunch_always; cbn [negb andb];
      repeat (case_bool_decide; cbn [negb andb]);
      try destruct (is_all_reduce_type_job self) eqn:Har;
      repeat (case_bool_decide; cbn [negb andb]);
      cbn; (eexists _, _, _; split; [reflexivity|]);
      (split; [try discriminate; intros _ | intros Hyes]);
      try (repeat split; try assumption; try reflexivity; try congruence;
           try (intros; split); try lia; congruence).
    all: destruct Hyes as (_ & _ & _ & Hstage & Hfatal & Hre & Hoom & Hcnt).
    all: try contradiction; try (now specialize (Hfatal ltac:(assumption))).
    all: try (specialize (Hoom ltac:(assumption)); destruct Hoom; congruence || lia).
    all: try (specialize (Hcnt ltac:(assumption || congruence)); lia).
  - rewrite should_relaunch_not_eligible by assumption.
    exists false, node, self. split; [reflexivity|].
    split; [discriminate|]. intros (Hflow & Hen & Hrel & _).
    rewrite Hflow, Hen, Hrel in E0. discriminate.
Qed.

Lemma length_append (s1 s2 : string) :
  String.length (s1 +:+ s2) = (String.length s1 + String.length s2)%nat.
Proof using Type.
  induction s1 as [|c s1 IH]; [reflexivity|]. simpl. rewrite IH. reflexivity.
Qed.

(** X2: a denial is reported to the event reporter once, as
    [ACTION_NOT_RELAUNCH] with a non-empty reason, and leaves the node as it
    was; nothing is reported when relaunch was not on the table (transition
    not eligible, relaunch disabled or node not relaunchable), when the
    answer is yes, and when an OOM exit is denied because the job is
    all-reduce: that branch sets no reason. *)
Theorem should_relaunch_denial_report node flow self :
  let eligible :=
    should_relaunch flow && _enable_relaunch_node self
    && Node.relaunchable node in
  let silent :=
    negb (bool_decide (get_job_stage self = JobStage.JOB_STOPPING))
    && bool_decide (Node.exit_reason node = Some NodeExitReason.OOM)
    && is_all_reduce_type_job self in
  ∃ b node' es,
    _should_relaunch node flow self
    = (Returns (b, node'), set_effects (effects self ++ es) self)
    ∧ (b = true -> reported_events es = [])
    ∧ (b = false ->
       node' = node
       ∧ if eligible && negb silent
         then ∃ msg, msg ≠ "" ∧ es = [report_event ACTION_NOT_RELAUNCH msg]
         else es = []).
Proof using Type.
  intros eligible silent. subst eligible silent.
  destruct (should_relaunch flow && _enable_relaunch_node self
            && Node.relaunchable node) eqn:E0.
  - unfold _should_relaunch, bind, get_self, ret, _report_event, call, modify,
      _job_optimizer_adjust_oom_resource.
    rewrite E0. cbn [andb].
    destruct (Node.exit_reason node) as [[]|] eqn:Hexit;
      destruct relaunch_always, (is_all_reduce_type_job self);
      repeat (case_bool_decide; try congruence; cbn [negb andb]);
      try (rewrite ?length_append in *; cbn in *; lia);
      cbn;
      first
        [ eexists _, _, (@nil Effect); rewrite set_effects_id;
          (split; [reflexivity|]); (split; [reflexivity|]);
          first [discriminate | intros _; split; reflexivity]
        | eexists _, _, _; (split; [reflexivity|]);
          (split; [first [discriminate | reflexivity]|]);
          first
            [ discriminate
            | intros _; (split; [reflexivity|]);
              eexists; (split; [|reflexivity]);
              first
                [ discriminate
                | intros Hmsg; apply (f_equal String.length) in Hmsg;
                  rewrite !length_append in Hmsg; cbn in Hmsg; lia ] ] ].
  - rewrite should_relaunch_not_eligible by assumption.
    exists false, node, []. rewrite set_effects_id.
    split; [reflexivity|]. split; [reflexivity|]. intros _.
    split; reflexivity.
Qed.

(** *** Edges of the event pipeline *)

Lemma job_node_None ctx node_type node_id :
  job_node ctx node_type node_id = None <->
  _job_nodes ctx !! node_type = None
  ∨ ∃ nodes, _job_nodes ctx !! node_type = Some nodes ∧ nodes !! node_id = None.
Proof using Type.
  unfold job_node. destruct (_job_nodes ctx !! node_type) as [nodes|]; simpl.
  - split; [eauto|]. intros [[=] | (? & [= <-] & ?)]. assumption.
  - split; [auto | reflexivity].
Qed.

(** X3: an event about a node that is not in the store changes nothing:
    [_process_event_safely] returns with the state as it was, apart from
    the one query of the deletion filter when it applies. [_process_event]
    itself does the same when the node's type has a group in the store, and
    raises [KeyError] when it has none and the filter did not drop the
    event. *)
Theorem process_event_unknown_node k8s_client event self :
  job_node (_job_context self) (Node.type (node event)) (Node.id (node event))
  = None ->
  let pod_labels := _get_pod_unique_labels self (node event) in
  ∃ queries,
    _process_event_safely k8s_client event self
    = (Returns tt, set_effects (effects self ++ queries) self)
    ∧ (queries = [] ∨ queries = [list_namespaced_pod pod_labels])
    ∧ (is_Some (get_job_nodes self !! Node.type (node event)) ->
       _process_event k8s_client event self
       = _process_event_safely k8s_client event self)
    ∧ (get_job_nodes self !! Node.type (node event) = None ->
       running_pod_exists (k8s_client pod_labels) = false ->
       _process_event k8s_client event self
       = (Raises KeyError, set_effects (effects self ++ queries) self)).
Proof using Type.
  intros Hnone pod_labels. apply job_node_None in Hnone.
  unfold _process_event_safely, _process_event, bind, get_self, ret, call,
    modify, raise, get_job_nodes.
  fold pod_labels.
  destruct ((bool_decide (event_type event = NodeEventType.DELETED)
             || bool_decide (Node.status (node event) = NodeStatus.DELETED))
            && negb (is_positive_exit (Node.exit_reason (node event))));
    cbn.
  - exists [list_namespaced_pod pod_labels].
    destruct (running_pod_exists (k8s_client pod_labels)); cbn.
    + repeat split; auto. discriminate.
    + destruct Hnone as [-> | (nodes & -> & ->)]; cbn;
        repeat split; auto.
      * intros [? [=]].
      * discriminate.
  - exists []. rewrite set_effects_id.
    destruct Hnone as [-> | (nodes & -> & ->)]; cbn; repeat split; auto.
    + intros [? [=]].
    + discriminate.
Qed.

(** X4: an ["exit"] event of a stored node ends the master: the observed
    values are stored on the node, [close_job] passes the scaler a plan
    with an empty group resource for workers and parameter servers, and the
    process exits with code 0. The state-flow table is not consulted, the
    [ACTION_STOP] report that follows [close_job] in the source is never
    sent, and [_process_event_safely] does not catch the exit: no later
    operation runs. *)
Theorem process_event_exit k8s_client event self cur :
  event_type event = NodeEventType.EXIT ->
  Node.status (node event) ≠ NodeStatus.DELETED ->
  job_node (_job_context self) (Node.type (node event)) (Node.id (node event))
  = Some cur ->
  let cur' :=
    update_info
      (Node.name (node event)) (Node.start_time (node event))
      (Node.create_time (node event)) (Node.host_name (node event))
      (Node.host_ip (node event)) (Node.restart_training (node event))
      (Node.relaunch_count (node event)) (Node.is_released (node event))
      cur in
  ∃ plan self',
    _process_event k8s_client event self = (Exits 0, self')
    ∧ _process_event_safely k8s_client event self = (Exits 0, self')
    ∧ effects self' = effects self ++ [scaler_scale plan]
    ∧ node_group_resources plan !! NodeType.WORKER
      = Some NodeGroupResource_new_empty
    ∧ node_group_resources plan !! NodeType.PS
      = Some NodeGroupResource_new_empty
    ∧ launch_nodes plan = [] ∧ remove_nodes plan = []
    ∧ _job_context self' = update_job_node_ctx cur' (_job_context self)
    ∧ ∀ ops,
        run_operations (op_process_event k8s_client event :: ops) self = self'.
Proof using Type.
  intros Hexit Hst Hcur cur'.
  apply job_node_Some in Hcur as (nodes & Hnodes & Hn).
  assert (Hrun : ∃ plan self',
    _process_event k8s_client event self = (Exits 0, self')
    ∧ effects self' = effects self ++ [scaler_scale plan]
    ∧ node_group_resources plan !! NodeType.WORKER
      = Some NodeGroupResource_new_empty
    ∧ node_group_resources plan !! NodeType.PS
      = Some NodeGroupResource_new_empty
    ∧ launch_nodes plan = [] ∧ remove_nodes plan = []
    ∧ _job_context self' = update_job_node_ctx cur' (_job_context self)).
  { unfold _process_event, bind, get_self, ret, call, modify, update_job_node,
      close_job, os_exit, get_job_nodes.
    rewrite Hexit, (bool_decide_eq_false_2 _ Hst).
    rewrite (bool_decide_eq_false_2
               (NodeEventType.EXIT = NodeEventType.DELETED))
      by discriminate.
    cbn -[update_job_node_ctx]. rewrite Hnodes, Hn. fold cur'.
    cbn -[update_job_node_ctx].
    eexists _, _. split; [reflexivity|].
    cbn -[update_job_node_ctx]. repeat split; reflexivity. }
  destruct Hrun as (plan & self' & Hrun & Hrest).
  exists plan, self'. split; [exact Hrun|].
  assert (Hsafe : _process_event_safely k8s_client event self = (Exits 0, self'))
    by (unfold _process_event_safely; rewrite Hrun; reflexivity).
  split; [exact Hsafe|].
  destruct Hrest as (? & ? & ? & ? & ? & ?).
  repeat split; try assumption.
  intros ops. cbn [run_operations run_operation]. rewrite Hsafe. reflexivity.
Qed.
(** *** A transition that is not relaunch-eligible *)

Lemma process_event_transition_run k8s_client event self cur flow :
  let pod_labels := _get_pod_unique_labels self (node event) in
  let cur' := observed event cur in
  let new_node :=
    Node.set_exit_reason (Node.exit_reason (node event))
      (Node.update_status (Node.status (node event)) cur') in
  let queries :=
    if deletion_filter_applies event then [list_namespaced_pod pod_labels]
    else [] in
  let callbacks :=
    match to_status flow with
    | NodeStatus.RUNNING => [node_event_callback on_node_started new_node]
    | NodeStatus.SUCCEEDED => [node_event_callback on_node_succeeded new_node]
    | NodeStatus.FAILED => [node_event_callback on_node_failed new_node]
    | NodeStatus.DELETED =>
        if bool_decide (from_status flow = NodeStatus.FAILED) then []
        else [node_event_callback on_node_deleted new_node]
    | _ => []
    end in
  event_type event ≠ NodeEventType.EXIT ->
  (deletion_filter_applies event = true ->
   running_pod_exists (k8s_client pod_labels) = false) ->
  job_node (_job_context self) (Node.type (node event)) (Node.id (node event))
  = Some cur ->
  get_node_state_flow (Node.status cur') (event_type event)
    (Node.status (node event)) = Some flow ->
  from_status flow ≠ NodeStatus.SUCCEEDED ->
  should_relaunch flow = false ->
  ∃ self',
    _process_event k8s_client event self = (Returns tt, self')
    ∧ effects self'
      = effects self ++ queries ++ callbacks
        ++ [report_node_status_change new_node (Node.status cur')
              (to_status flow)]
    ∧ job_node (_job_context self') (Node.type cur') (Node.id cur')
      = Some new_node
    ∧ (∀ node_type' node_id',
         (node_type', node_id') ≠ (Node.type cur', Node.id cur') ->
         job_node (_job_context self') node_type' node_id'
         = job_node (_job_context self) node_type' node_id')
    ∧ get_job_stage self' = get_job_stage self
    ∧ _pending_relaunch_count self' = _pending_relaunch_count self.
Proof using Type.
  intros pod_labels cur' new_node queries callbacks Hexit Hpods Hcur Hflow
    Hfrom Hrel.
  apply job_node_Some in Hcur as Hlook. destruct Hlook as (nodes & Hnodes & Hn).
  assert (Hno : ∀ n s, _should_relaunch n flow s = (Returns (false, n), s)).
  { intros n s. apply should_relaunch_not_eligible. rewrite Hrel. reflexivity. }
  assert (Hstore : ∀ ctx,
    job_node (update_job_node_ctx new_node ctx) (Node.type cur') (Node.id cur')
    = Some new_node).
  { intros ctx. exact (job_node_update_job_node new_node ctx). }
  assert (Hframe : ∀ ctx ty' i',
    (ty', i') ≠ (Node.type cur', Node.id cur') ->
    job_node (update_job_node_ctx new_node (update_job_node_ctx cur' ctx))
      ty' i'
    = job_node ctx ty' i').
  { intros ctx ty' i' Hne.
    rewrite !job_node_update_job_node_ne; [reflexivity | exact Hne..]. }
  assert (Hcb : ∀ s,
    _process_node_events flow new_node s
    = (Returns tt, set_effects (effects s ++ callbacks) s)).
  { intros s. unfold _process_node_events, call, modify, ret. subst callbacks.
    destruct (to_status flow); repeat case_bool_decide; try congruence;
      cbn [andb]; rewrite ?set_effects_id; reflexivity. }
  unfold _process_event, bind, get_self, ret, call, modify, update_job_node,
    get_job_nodes.
  fold pod_labels.
  change ((bool_decide (event_type event = NodeEventType.DELETED)
           || bool_decide (Node.status (node event) = NodeStatus.DELETED))
          && negb (is_positive_exit (Node.exit_reason (node event))))
    with (deletion_filter_applies event).
  subst queries.
  destruct (deletion_filter_applies event);
    [rewrite Hpods by reflexivity|];
    cbn -[update_job_node_ctx _should_relaunch _process_node_events];
    rewrite Hnodes, Hn; fold (observed event cur); fold cur';
    rewrite (bool_decide_eq_false_2 _ Hexit);
    cbn -[update_job_node_ctx _should_relaunch _process_node_events];
    rewrite Hflow, (bool_decide_eq_false_2 _ Hfrom);
    fold new_node; rewrite Hcb, Hno; cbn -[update_job_node_ctx];
    (eexists; split; [reflexivity|]);
    cbn -[update_job_node_ctx]; rewrite <- ?app_assoc;
    (split; [reflexivity|]);
    (split; [apply Hstore|]);
    (split; [intros ty' i' Hne; apply Hframe; exact Hne|]);
    split; reflexivity.
Qed.

(** X5: a transition that is not relaunch-eligible. For an event other than
    ["exit"] that the deletion filter does not drop (the filter does not
    apply, or the cluster lists no running pod for the node), on a stored
    node whose state flow, looked up from the status that [update_info]
    leaves, exists and does not leave [SUCCEEDED], [_process_event] stores
    the node with the observed values, the status of the event's node and
    its exit reason; it runs the round of callback notifications that the
    target status selects ([on_node_started], [on_node_succeeded],
    [on_node_failed], or [on_node_deleted] unless the node was failed;
    the round over the registered callbacks is recorded as one
    notification), reports the status change from the old status to the
    target status of the flow, and touches neither another node, nor the
    job stage, nor the pending-relaunch counter, nor the scaler. *)
Theorem process_event_transition k8s_client event self cur flow :
  let pod_labels := _get_pod_unique_labels self (node event) in
  let cur' := observed event cur in
  let new_node :=
    Node.set_exit_reason (Node.exit_reason (node event))
      (Node.update_status (Node.status (node event)) cur') in
  let queries :=
    if deletion_filter_applies event then [list_namespaced_pod pod_labels]
    else [] in
  let callbacks :=
    match to_status flow with
    | NodeStatus.RUNNING => [node_event_callback on_node_started new_node]
    | NodeStatus.SUCCEEDED => [node_event_callback on_node_succeeded new_node]
    | NodeStatus.FAILED => [node_event_callback on_node_failed new_node]
    | NodeStatus.DELETED =>
        if bool_decide (from_status flow = NodeStatus.FAILED) then []
        else [node_event_callback on_node_deleted new_node]
    | _ => []
    end in
  event_type event ≠ NodeEventType.EXIT ->
  (deletion_filter_applies event = true ->
   running_pod_exists (k8s_client pod_labels) = false) ->
  job_node (_job_context self) (Node.type (node event)) (Node.id (node event))
  = Some cur ->
  get_node_state_flow (Node.status cur') (event_type event)
    (Node.status (node event)) = Some flow ->
  from_status flow ≠ NodeStatus.SUCCEEDED ->
  should_relaunch flow = false ->
  ∃ self',
    _process_event k8s_client event self = (Returns tt, self')
    ∧ effects self'
      = effects self ++ queries ++ callbacks
        ++ [report_node_status_change new_node (Node.status cur')
              (to_status flow)]
    ∧ job_node (_job_context self') (Node.type cur') (Node.id cur')
      = Some new_node
    ∧ (∀ node_type' node_id',
         (node_type', node_id') ≠ (Node.type cur', Node.id cur') ->
         job_node (_job_context self') node_type' node_id'
         = job_node (_job_context self) node_type' node_id')
    ∧ get_job_stage self' = get_job_stage self
    ∧ _pending_relaunch_count self' = _pending_relaunch_count self.
Proof using Type. exact (process_event_transition_run k8s_client event self cur flow). Qed.


(** *** A relaunch happens once *)

(** X6: [_relaunch_node] hands the node to the manager of its type (the
    worker manager for a worker, the parameter-server manager for a
    parameter server, the evaluator manager for an evaluator, the chief
    manager for a chief or a master), passes the scaler exactly one plan
    (the manager's plan, with the exited node appended to [remove_nodes]
    when exited nodes are removed, and the parameter-server addresses
    appended), and stores the node as not relaunchable: whatever the later
    state, the relaunch policy answers no for it, silently, so a node is
    not relaunched twice. *)
Theorem relaunch_node_once node self :
  let manager :=
    match Node.type node with
    | NodeType.WORKER => _worker_manager
    | NodeType.PS => _ps_manager
    | NodeType.EVALUATOR => _evaluator_manager
    | NodeType.CHIEF | NodeType.MASTER => _chief_manager
    end in
  ∃ plan0 node0 job_nodes0 plan self',
    relaunch_node manager node (_remove_exited_node self) (get_job_nodes self)
    = (plan0, node0, job_nodes0)
    ∧ _relaunch_node node self = (Returns tt, self')
    ∧ scaled_plans (effects self') = scaled_plans (effects self) ++ [plan]
    ∧ node_group_resources plan = node_group_resources plan0
    ∧ launch_nodes plan = launch_nodes plan0
    ∧ remove_nodes plan
      = (if _remove_exited_node self
         then remove_nodes plan0 ++ [Node.set_relaunchable false node0]
         else remove_nodes plan0)
    ∧ ps_addrs plan = ps_addrs plan0 ++ get_ps_addrs job_nodes0
    ∧ job_node (_job_context self') (Node.type node0) (Node.id node0)
      = Some (Node.set_relaunchable false node0)
    ∧ (∀ node_type node_id,
         (node_type, node_id) ≠ (Node.type node0, Node.id node0) ->
         job_node (_job_context self') node_type node_id
         = job_nodes0 !! node_type ≫= (.!! node_id))
    ∧ get_job_stage self' = get_job_stage self
    ∧ ∀ flow later,
        _should_relaunch (Node.set_relaunchable false node0) flow later
        = (Returns (false, Node.set_relaunchable false node0), later).
Proof using Type.
  intros manager.
  unfold _relaunch_node, bind, get_self, ret, call, modify, update_job_node.
  fold manager.
  destruct (relaunch_node manager node (_remove_exited_node self)
              (get_job_nodes self)) as [[plan0 node0] job_nodes0] eqn:Hrel.
  exists plan0, node0, job_nodes0.
  assert (Hno : ∀ flow later,
    _should_relaunch (Node.set_relaunchable false node0) flow later
    = (Returns (false, Node.set_relaunchable false node0), later)).
  { intros flow later. apply should_relaunch_not_eligible.
    simpl. apply andb_false_r. }
  destruct (launch_nodes plan0) as [|new_node rest] eqn:Hlaunch;
    (eexists _, _; split; [reflexivity|]);
    cbn -[update_job_node_ctx];
    (split; [reflexivity|]);
    cbn -[update_job_node_ctx];
    rewrite ?scaled_plans_app; cbn -[update_job_node_ctx];
    rewrite ?app_nil_r;
    (repeat split; try reflexivity; try exact Hno);
    try (exact (job_node_update_job_node (Node.set_relaunchable false node0) _));
    intros ty i Hne;
    exact (job_node_update_job_node_ne (Node.set_relaunchable false node0) _
             ty i Hne).
Qed.
(** *** [stop], once more *)

Lemma update_job_node_ctx_id n ctx :
  job_node ctx (Node.type n) (Node.id n) = Some n ->
  update_job_node_ctx n ctx = ctx.
Proof using Type.
  intros Hn. apply job_node_Some in Hn as (nodes & Hnodes & Hn).
  unfold update_job_node_ctx. destruct ctx as [job_nodes stage].
  simpl in *. f_equal. rewrite Hnodes. simpl.
  rewrite (insert_id nodes) by exact Hn. apply insert_id. exact Hnodes.
Qed.

Lemma update_job_nodes_id nodes ctx :
  Forall (fun n => job_node ctx (Node.type n) (Node.id n) = Some n) nodes ->
  update_job_nodes nodes ctx = ctx.
Proof using Type.
  induction 1 as [|n nodes Hn _ IH]; [reflexivity|].
  simpl. rewrite update_job_node_ctx_id by exact Hn. exact IH.
Qed.

(** On a well-keyed store the writes of a loop that keeps type and id
    change nothing beyond the assignments. *)
Lemma update_job_nodes_mutate f ctx :
  well_keyed (_job_nodes ctx) ->
  (∀ n, Node.type (f n) = Node.type n ∧ Node.id (f n) = Node.id n) ->
  update_job_nodes (f <$> job_nodes_values (_job_nodes ctx))
    (mutate_job_nodes f ctx)
  = mutate_job_nodes f ctx.
Proof using Type.
  intros Hwk Hf. apply update_job_nodes_id, Forall_forall. intros n Hn.
  apply list_elem_of_fmap in Hn as (n0 & -> & Hn0).
  apply elem_of_job_nodes_values in Hn0 as (ty & ns & i & Hns & Hn0).
  destruct (Hwk _ _ _ _ Hns Hn0) as [<- <-].
  destruct (Hf n0) as [-> ->].
  unfold job_node, mutate_job_nodes. simpl.
  rewrite lookup_fmap, Hns. simpl. rewrite lookup_fmap, Hn0. reflexivity.
Qed.

(** X7: [stop] is idempotent. On a manager with a worker group it returns
    with the stopped flag set, and the one collaborator it calls is the
    performance monitor, asked for the eval time of the nodes of the
    worker group (on a store that files every node under its own type and
    id: of each stored worker id, once); nothing is passed to the scaler,
    the reporters, the error path or the cluster. A second [stop] returns
    at once, with no call at all and the state exactly as the first left
    it. *)
Theorem stop_twice self :
  is_Some (get_job_nodes self !! NodeType.WORKER) ->
  ∃ workers self',
    stop self = (Returns tt, self')
    ∧ _stopped self' = true
    ∧ effects self'
      = effects self
        ++ ((fun node => perf_monitor_get_worker_eval_time (Node.id node))
              <$> workers)
    ∧ (_stopped self = true -> workers = [])
    ∧ (_stopped self = false ->
       well_keyed (get_job_nodes self) ->
       ∀ stored_workers,
         get_job_nodes self !! NodeType.WORKER = Some stored_workers ->
         Node.id <$> workers ≡ₚ (map_to_list stored_workers).*1)
    ∧ stop self' = (Returns tt, self').
Proof using Type.
  intros Hworker. destruct (_stopped self) eqn:Hstopped.
  - assert (Hrun : stop self = (Returns tt, self))
      by (unfold stop, bind, get_self, ret; rewrite Hstopped; reflexivity).
    exists [], self. split; [exact Hrun|]. split; [exact Hstopped|].
    split; [simpl; rewrite app_nil_r; reflexivity|].
    split; [reflexivity|]. split; [discriminate | exact Hrun].
  - destruct (stop_run self Hstopped Hworker)
      as (ctx & workers & Hrun & _ & released & Hreleased & Hworkers).
    exists workers. eexists. split; [exact Hrun|].
    split; [reflexivity|]. split; [reflexivity|].
    split; [discriminate|]. split; [|reflexivity].
    intros _ Hwk stored Hstored.
    unfold get_job_nodes in *.
    rewrite update_job_nodes_mutate in Hreleased;
      [|exact Hwk | intros n; split; reflexivity].
    simpl in Hreleased. rewrite lookup_fmap, Hstored in Hreleased.
    injection Hreleased as <-. subst workers.
    rewrite <- list_fmap_compose.
    rewrite (map_to_list_fmap stop_node stored), <- list_fmap_compose.
    erewrite Forall_fmap_ext_1; [reflexivity|].
    apply Forall_forall. intros [i n] Hin.
    apply elem_of_map_to_list in Hin.
    destruct (Hwk _ _ _ _ Hstored Hin) as [_ Hid]. exact Hid.
Qed.

Lemma all_nodes_mutate_impl (P Q : Node.t -> Prop) f self :
  (∀ n, Q n -> P (f n)) ->
  all_nodes Q self ->
  all_nodes P (set_job_context (mutate_job_nodes f (_job_context self)) self).
Proof using Type.
  intros HP Hall node_type nodes node_id n. unfold get_job_nodes. simpl.
  rewrite lookup_fmap.
  destruct (_job_nodes (_job_context self) !! node_type) as [ns|] eqn:Hns;
    simpl; [|discriminate].
  intros [= <-]. rewrite lookup_fmap.
  destruct (ns !! node_id) as [n0|] eqn:Hn0; simpl; [|discriminate].
  intros [= <-]. apply HP. exact (Hall _ _ _ _ Hns Hn0).
Qed.

Lemma update_job_nodes_lookup_None node_type nodes ctx :
  Forall (fun n => Node.type n ≠ node_type) nodes ->
  _job_nodes ctx !! node_type = None ->
  _job_nodes (update_job_nodes nodes ctx) !! node_type = None.
Proof using Type.
  intros Hnodes. revert ctx.
  induction Hnodes as [|n nodes Hn _ IH]; intros ctx Hnone; [exact Hnone|].
  simpl. apply IH. simpl. rewrite lookup_insert_ne by assumption. exact Hnone.
Qed.

Lemma stop_raises self :
  _stopped self = false ->
  get_job_nodes self !! NodeType.WORKER = None ->
  all_nodes (fun n => Node.type n ≠ NodeType.WORKER) self ->
  ∃ ctx,
    let self' := set_job_context ctx (set_enable_relaunch_node false self) in
    stop self = (Raises KeyError, self')
    ∧ get_job_nodes self' !! NodeType.WORKER = None
    ∧ all_nodes (fun n => stopped_node n ∧ Node.type n ≠ NodeType.WORKER) self'.
Proof using Type.
  intros Hstopped Hnone Htypes.
  unfold stop, bind, get_self, ret, modify, raise. rewrite Hstopped.
  cbn -[update_job_nodes mutate_job_nodes].
  set (ctx1 := update_job_nodes _ (mutate_job_nodes stop_node _)).
  assert (Hvalues : Forall (fun n => stopped_node n
                                     ∧ Node.type n ≠ NodeType.WORKER)
                      (stop_node <$> job_nodes_values (get_job_nodes self))).
  { apply Forall_forall. intros n Hn.
    apply list_elem_of_fmap in Hn as (n0 & -> & Hn0).
    apply elem_of_job_nodes_values in Hn0 as (ty & ns & i & Hns & Hn0).
    split; [repeat split|]. exact (Htypes _ _ _ _ Hns Hn0). }
  assert (Hw1 : _job_nodes ctx1 !! NodeType.WORKER = None).
  { subst ctx1. apply update_job_nodes_lookup_None.
    - eapply Forall_impl; [exact Hvalues|]. intros n [_ Hn]. exact Hn.
    - simpl. rewrite lookup_fmap. unfold get_job_nodes in Hnone.
      rewrite Hnone. reflexivity. }
  unfold get_job_nodes. cbn -[update_job_nodes mutate_job_nodes].
  fold ctx1. rewrite Hw1. exists ctx1. split; [reflexivity|].
  split; [exact Hw1|].
  subst ctx1. apply all_nodes_update_job_nodes; [exact Hvalues|].
  apply (all_nodes_mutate_impl _ (fun n => Node.type n ≠ NodeType.WORKER)
           stop_node (set_enable_relaunch_node false self)).
  - intros n Hn. split; [repeat split | exact Hn].
  - exact Htypes.
Qed.

(** X8: [stop] reads [job_nodes[NodeType.WORKER]] after it has disabled
    relaunch and released the nodes. On a store without a worker group
    that lookup raises [KeyError]: relaunch is then disabled and every
    node released, non-critical and non-relaunchable, but the stopped flag
    is still unset, and calling [stop] again raises again. *)
Theorem stop_without_worker_group self :
  _stopped self = false ->
  get_job_nodes self !! NodeType.WORKER = None ->
  all_nodes (fun n => Node.type n ≠ NodeType.WORKER) self ->
  ∃ self',
    stop self = (Raises KeyError, self')
    ∧ _stopped self' = false
    ∧ _enable_relaunch_node self' = false
    ∧ all_nodes stopped_node self'
    ∧ effects self' = effects self
    ∧ ∃ self'', stop self' = (Raises KeyError, self'')
                ∧ _stopped self'' = false.
Proof using Type.
  intros Hstopped Hnone Htypes.
  destruct (stop_raises self Hstopped Hnone Htypes) as (ctx & Hrun & Hw & Hall).
  eexists. split; [exact Hrun|].
  split; [exact Hstopped|]. split; [reflexivity|]. split.
  { intros ty ns i n Hns Hn. exact (proj1 (Hall ty ns i n Hns Hn)). }
  split; [reflexivity|].
  destruct (stop_raises
              (set_job_context ctx (set_enable_relaunch_node false self))
              Hstopped Hw) as (ctx' & Hrun' & _).
  { intros ty ns i n Hns Hn. exact (proj2 (Hall ty ns i n Hns Hn)). }
  eexists. split; [exact Hrun'|]. exact Hstopped.
Qed.

(** *** Clearing nodes, once more *)

Lemma set_job_context_id self : set_job_context (_job_context self) self = self.
Proof using Type. destruct self; reflexivity. Qed.

Lemma mutate_job_nodes_id f self :
  all_nodes (fun n => f n = n) self ->
  mutate_job_nodes f (_job_context self) = _job_context self.
Proof using Type.
  intros Hall. unfold mutate_job_nodes.
  destruct (_job_context self) as [job_nodes stage] eqn:Hctx. simpl. f_equal.
  apply map_eq. intros node_type. rewrite lookup_fmap.
  destruct (job_nodes !! node_type) as [ns|] eqn:Hns; simpl; [|reflexivity].
  f_equal. apply map_eq. intros node_id. rewrite lookup_fmap.
  destruct (ns !! node_id) as [n|] eqn:Hn; simpl; [|reflexivity].
  f_equal. apply (Hall node_type ns node_id n); [|exact Hn].
  unfold get_job_nodes. rewrite Hctx. exact Hns.
Qed.

Lemma all_nodes_set_effects (P : Node.t -> Prop) es self :
  all_nodes P self -> all_nodes P (set_effects es self).
Proof using Type. intros Hall. exact Hall. Qed.

(** X9: [clear_exited_nodes] passes the scaler at most one plan, never an
    empty one: it removes the nodes that had exited and were not released
    yet, marked as released. Afterwards every exited node of the store is
    released, so that a second call changes nothing and passes nothing.
    With [_remove_exited_node] unset the method does nothing at all. *)
Theorem clear_exited_nodes_twice self :
  (∀ n, exited (Node.set_is_released true n) = exited n) ->
  ∃ plans self',
    clear_exited_nodes self = (Returns tt, self')
    ∧ effects self' = effects self ++ (scaler_scale <$> plans)
    ∧ (length plans <= 1)%nat
    ∧ Forall
        (fun plan =>
           remove_nodes plan ≠ [] ∧ launch_nodes plan = []
           ∧ Forall (fun n => Node.is_released n = true ∧ exited n = true)
               (remove_nodes plan)) plans
    ∧ (_remove_exited_node self = false -> self' = self)
    ∧ (_remove_exited_node self = true ->
       all_nodes (fun n => exited n = true -> Node.is_released n = true) self')
    ∧ clear_exited_nodes self' = (Returns tt, self').
Proof using Type.
  intros Hexited.
  destruct (_remove_exited_node self) eqn:Hremove.
  - set (is_exited := fun n => negb (Node.is_released n) && exited n).
    set (release := fun n =>
           if is_exited n then Node.set_is_released true n else n).
    set (removed :=
           Node.set_is_released true
             <$> List.filter is_exited (job_nodes_values (get_job_nodes self))).
    set (self1 :=
           set_job_context
             (update_job_nodes removed
                (mutate_job_nodes release (_job_context self))) self).
    assert (Hall : all_nodes
                     (fun n => exited n = true -> Node.is_released n = true)
                     self1).
    { apply all_nodes_update_job_nodes.
      - apply Forall_forall. intros n Hn.
        apply list_elem_of_fmap in Hn as (n0 & -> & _). reflexivity.
      - apply all_nodes_mutate. intros n. unfold release, is_exited.
        destruct (Node.is_released n) eqn:Hr, (exited n) eqn:He; simpl;
          congruence. }
    assert (Hremoved : Forall (fun n => Node.is_released n = true
                                        ∧ exited n = true) removed).
    { apply Forall_forall. intros n Hn.
      apply list_elem_of_fmap in Hn as (n0 & -> & Hn0).
      apply list_elem_of_In, filter_In in Hn0 as [_ Hn0].
      apply andb_prop in Hn0 as [_ He]. rewrite Hexited. auto. }
    assert (Hagain : ∀ s,
      all_nodes (fun n => exited n = true -> Node.is_released n = true) s ->
      _remove_exited_node s = true ->
      clear_exited_nodes s = (Returns tt, s)).
    { intros s Hs Hrm.
      unfold clear_exited_nodes, bind, get_self, ret, modify, call.
      rewrite Hrm. cbn [negb].
      rewrite filter_nil_of_all.
      - cbn. rewrite mutate_job_nodes_id; [apply f_equal, set_job_context_id|].
        intros ty ns i n Hns Hn. specialize (Hs ty ns i n Hns Hn). cbv beta in Hs.
        destruct (Node.is_released n), (exited n); simpl; auto.
        discriminate (Hs eq_refl).
      - intros n Hn.
        apply elem_of_job_nodes_values in Hn as (ty & ns & i & Hns & Hn).
        specialize (Hs ty ns i n Hns Hn). cbv beta in Hs.
        destruct (Node.is_released n), (exited n); simpl; auto.
        discriminate (Hs eq_refl). }
    unfold clear_exited_nodes, bind, get_self, ret, modify, call.
    rewrite Hremove. cbn [negb]. fold is_exited release removed self1.
    destruct removed as [|n0 removed'] eqn:Hrm.
    + exists [], self1. cbn -[self1]. split; [reflexivity|].
      split; [cbn; rewrite app_nil_r; reflexivity|]. split; [lia|].
      split; [constructor|]. split; [discriminate|].
      split; [intros _; exact Hall|].
      apply Hagain; [exact Hall | exact Hremove].
    + eexists [_], _. cbn -[self1]. split; [reflexivity|].
      split; [reflexivity|]. split; [lia|]. split.
      { constructor; [|constructor]. cbn. repeat split; [discriminate|].
        exact Hremoved. }
      split; [discriminate|]. split; [intros _; exact Hall|].
      apply Hagain; [exact Hall | exact Hremove].
  - assert (Hrun : clear_exited_nodes self = (Returns tt, self))
      by (unfold clear_exited_nodes, bind, get_self, ret; rewrite Hremove;
          reflexivity).
    exists [], self. cbn. rewrite app_nil_r.
    repeat split; auto. discriminate.
Qed.

(** X10: [clear_all_nodes] passes the scaler one plan that removes exactly
    the nodes that were not released, marked as released, and launches
    nothing. Afterwards every node of the store is released, and a second
    call leaves the store as it is and passes the scaler an empty plan. *)
Theorem clear_all_nodes_twice self :
  ∃ plan self',
    clear_all_nodes self = (Returns tt, self')
    ∧ effects self' = effects self ++ [scaler_scale plan]
    ∧ (∀ n,
         n ∈ remove_nodes plan <->
         ∃ n0, n0 ∈ job_nodes_values (get_job_nodes self)
               ∧ Node.is_released n0 = false
               ∧ n = Node.set_is_released true n0)
    ∧ node_group_resources plan = ∅ ∧ launch_nodes plan = []
    ∧ all_nodes (fun n => Node.is_released n = true) self'
    ∧ clear_all_nodes self'
      = (Returns tt,
         set_effects (effects self' ++ [scaler_scale new_ScalePlan]) self').
Proof using Type.
  assert (Hagain : ∀ s,
    all_nodes (fun n => Node.is_released n = true) s ->
    clear_all_nodes s
    = (Returns tt,
       set_effects (effects s ++ [scaler_scale new_ScalePlan]) s)).
  { intros s Hs. unfold clear_all_nodes, bind, get_self, ret, modify, call.
    rewrite filter_nil_of_all.
    - cbn -[mutate_job_nodes]. rewrite mutate_job_nodes_id.
      + rewrite set_job_context_id. reflexivity.
      + intros ty ns i n Hns Hn. specialize (Hs ty ns i n Hns Hn).
        simpl in Hs. destruct n; simpl in *; subst; reflexivity.
    - intros n Hn.
      apply elem_of_job_nodes_values in Hn as (ty & ns & i & Hns & Hn).
      rewrite (Hs ty ns i n Hns Hn). reflexivity. }
  set (removed :=
         Node.set_is_released true
           <$> List.filter (fun n => negb (Node.is_released n))
                 (job_nodes_values (get_job_nodes self))).
  set (self1 :=
         set_job_context
           (mutate_job_nodes (Node.set_is_released true) (_job_context self))
           self).
  set (plan := {| node_group_resources := ∅; launch_nodes := [];
                  remove_nodes := removed; ps_addrs := [] |}).
  exists plan, (set_effects (effects self ++ [scaler_scale plan]) self1).
  split; [reflexivity|]. split; [reflexivity|]. split.
  { intros n. subst plan removed. cbn [remove_nodes].
    rewrite list_elem_of_fmap. split.
    - intros (n0 & -> & Hn0).
      apply list_elem_of_In, filter_In in Hn0 as [Hin Hr].
      apply negb_true_iff in Hr. exists n0.
      rewrite list_elem_of_In. auto.
    - intros (n0 & Hin & Hr & ->). exists n0. split; [reflexivity|].
      apply list_elem_of_In, filter_In. rewrite <- list_elem_of_In.
      split; [exact Hin|]. rewrite Hr. reflexivity. }
  split; [reflexivity|]. split; [reflexivity|].
  assert (Hall : all_nodes (fun n => Node.is_released n = true) self1)
    by (apply all_nodes_mutate; reflexivity).
  split; [exact Hall|]. apply Hagain. exact Hall.
Qed.
(** *** The heartbeat monitor, end to end *)

Lemma filter_nodes_before_skip now window_interval (f : Node.t -> bool) nodes n :
  n ∈ List.filter f (nodes_before_skip now window_interval nodes) ->
  n ∈ List.filter f nodes.
Proof using Type.
  induction nodes as [|m nodes IH]; [intros H; exact H|].
  cbn [nodes_before_skip].
  destruct (skipped_node now window_interval m); [intros H; inversion H|].
  cbn [List.filter]. destruct (f m).
  - intros H. apply elem_of_cons in H as [->|H]; [left | right; auto].
  - exact IH.
Qed.

(** X11: [_get_dead_node_event] leaves the node store, the job stage and
    the flags of the manager as they were, whether it returns or raises;
    the stored nodes stay running. For each dead node it meets, in the
    order of the events it returns, it has the job context record the node
    id as failed ([report_failed_node], kept here as a recorded call),
    hands the node to the error path with the node's relaunch count as
    restart count, the no-heartbeat message and level [NODE_ERROR], and
    reports the missing heartbeat; it calls neither the scaler nor the
    cluster. When it raises, the exception is that of the time info, and
    the calls made are those for the dead nodes met before. *)
Theorem get_dead_node_event_frame now window_interval self :
  ∃ outcome dead,
    _get_dead_node_event now window_interval self
    = (outcome,
       set_effects
         (effects self ++ (dead ≫= no_heartbeat_reports window_interval))
         self)
    ∧ (outcome = Returns (no_heartbeat_event <$> dead)
       ∨ ∃ e, outcome = Raises e
              ∧ time_info_error (get_job_nodes self) = Some e)
    ∧ (∀ n, n ∈ dead ->
            n ∈ job_nodes_values (get_job_nodes self)
            ∧ Node.status n = NodeStatus.RUNNING
            ∧ window_interval < now - Node.heartbeat_time n)
    ∧ (∀ n, n ∈ dead ->
            no_heartbeat_reports window_interval n
            = [report_failed_node (Node.id n);
               process_error n (Node.relaunch_count n)
                 ("No heartbeat for over " +:+ pretty window_interval
                  +:+ " seconds.")
                 TrainingExceptionLevel.NODE_ERROR;
               report_node_no_heartbeat n window_interval]).
Proof using Type.
  pose proof (get_dead_node_event_run now window_interval self) as Hrun.
  cbv zeta in Hrun.
  destruct (time_info_error (get_job_nodes self)) as [e|];
    [destruct (existsb (skipped_node now window_interval)
                 (job_nodes_values (get_job_nodes self)))|].
  - eexists _, _. split; [exact Hrun|]. split; [right; eauto|].
    split; [|reflexivity].
    intros n Hn. apply filter_nodes_before_skip in Hn.
    exact (dead_node_timed_out _ _ _ _ Hn).
  - eexists _, _. split; [exact Hrun|]. split; [left; reflexivity|].
    split; [|reflexivity].
    intros n Hn. exact (dead_node_timed_out _ _ _ _ Hn).
  - eexists _, _. split; [exact Hrun|]. split; [left; reflexivity|].
    split; [|reflexivity].
    intros n Hn. exact (dead_node_timed_out _ _ _ _ Hn).
Qed.

(** *** How the synthesized events end *)

Lemma never_exits_ret {A} (a : A) : never_exits (ret a).
Proof using Type. intros self code self'. discriminate. Qed.

Lemma never_exits_bind {A B} (m : M A) (k : A -> M B) :
  never_exits m -> (∀ a, never_exits (k a)) -> never_exits (bind m k).
Proof using Type.
  intros Hm Hk self code self'. unfold bind.
  destruct (m self) as [[a| |] self1] eqn:Hrun.
  - apply Hk.
  - discriminate.
  - exfalso. exact (Hm self _ _ Hrun).
Qed.

Lemma never_exits_get : never_exits get_self.
Proof using Type. intros self code self'. discriminate. Qed.

Lemma never_exits_modify f : never_exits (modify f).
Proof using Type. intros self code self'. discriminate. Qed.

Lemma never_exits_raise {A} e : never_exits (raise (A:=A) e).
Proof using Type. intros self code self'. discriminate. Qed.

Ltac never_exits_step :=
  lazymatch goal with
  | H : bool_decide (event_type _ = NodeEventType.EXIT) = true |- _ =>
      apply bool_decide_eq_true_1 in H; contradiction
  | |- never_exits (bind _ _) => apply never_exits_bind; [|intros ?]
  | |- never_exits (ret _) => apply never_exits_ret
  | |- never_exits get_self => apply never_exits_get
  | |- never_exits (modify _) => apply never_exits_modify
  | |- never_exits (raise _) => apply never_exits_raise
  | |- never_exits (if ?b then _ else _) => destruct b eqn:?
  | |- never_exits (match ?x with _ => _ end) => destruct x eqn:?
  | |- never_exits (let _ := _ in _) => cbv zeta
  end.

(** Only an ["exit"] event ends the process. *)
Lemma process_event_never_exits k8s_client event :
  event_type event ≠ NodeEventType.EXIT ->
  never_exits (_process_event k8s_client event).
Proof using Type.
  intros Hexit.
  unfold _process_event, _process_node_events, _should_relaunch,
    _relaunch_node, _report_event, _job_optimizer_adjust_oom_resource,
    update_job_node, call.
  repeat never_exits_step.
Qed.

Lemma process_event_safely_returns k8s_client event :
  event_type event ≠ NodeEventType.EXIT ->
  always_returns (_process_event_safely k8s_client event).
Proof using Type.
  intros Hexit self. unfold _process_event_safely.
  destruct (_process_event k8s_client event self) as [[[]| |] self'] eqn:Hrun;
    eauto.
  exfalso. exact (process_event_never_exits _ _ Hexit _ _ _ Hrun).
Qed.

Lemma process_event_positive_queries k8s_client event queries :
  is_positive_exit (Node.exit_reason (node event)) = true ->
  keeps (fun self => pod_queries (effects self) = queries)
    (_process_event k8s_client event).
Proof using Type.
  intros Hpos. unfold _process_event. rewrite Hpos, andb_false_r.
  unfold_methods. effects_auto.
Qed.

Lemma process_event_safely_positive_client k8s_client other_client event self :
  is_positive_exit (Node.exit_reason (node event)) = true ->
  _process_event_safely other_client event self
  = _process_event_safely k8s_client event self.
Proof using Type.
  intros Hpos. unfold _process_event_safely, _process_event.
  rewrite Hpos, andb_false_r. reflexivity.
Qed.

(** An event that the manager made up itself: not ["exit"], and with a
    positive exit reason. *)
Lemma process_event_safely_synthesized k8s_client event self :
  event_type event ≠ NodeEventType.EXIT ->
  is_positive_exit (Node.exit_reason (node event)) = true ->
  ∃ self',
    _process_event_safely k8s_client event self = (Returns tt, self')
    ∧ pod_queries (effects self') = pod_queries (effects self)
    ∧ ∀ other_client,
        _process_event_safely other_client event self = (Returns tt, self').
Proof using Type.
  intros Hexit Hpos.
  destruct (process_event_safely_returns k8s_client event Hexit self)
    as ([] & self' & Hrun).
  exists self'. split; [exact Hrun|]. split.
  - change self' with (Returns tt, self').2. rewrite <- Hrun.
    apply (keeps_run (fun s => pod_queries (effects s)
                               = pod_queries (effects self)));
      [|reflexivity].
    apply process_event_safely_keeps, process_event_positive_queries, Hpos.
  - intros other_client.
    rewrite (process_event_safely_positive_client k8s_client) by exact Hpos.
    exact Hrun.
Qed.

Lemma for_each_synthesized k8s_client events self :
  Forall (fun event =>
            event_type event ≠ NodeEventType.EXIT
            ∧ is_positive_exit (Node.exit_reason (node event)) = true)
    events ->
  ∃ self',
    for_each (fun _ event => _process_event_safely k8s_client event) tt events
      self = (Returns tt, self')
    ∧ pod_queries (effects self') = pod_queries (effects self)
    ∧ ∀ other_client,
        for_each (fun _ event => _process_event_safely other_client event) tt
          events self = (Returns tt, self').
Proof using Type.
  intros Hevents. revert self.
  induction Hevents as [|event events [Hexit Hpos] _ IH]; intros self.
  - exists self. repeat split.
  - destruct (process_event_safely_synthesized k8s_client event self Hexit Hpos)
      as (self1 & Hrun & Hq & Hother).
    destruct (IH self1) as (self2 & Hrun2 & Hq2 & Hother2).
    exists self2. cbn [for_each]. unfold bind. rewrite Hrun.
    split; [exact Hrun2|]. split; [congruence|].
    intros other_client. rewrite Hother. apply Hother2.
Qed.

Lemma pod_queries_dead_reports window_interval (dead : list Node.t) :
  pod_queries (dead ≫= no_heartbeat_reports window_interval) = [].
Proof using Type.
  induction dead as [|n dead IH]; [reflexivity|]. cbn. exact IH.
Qed.

(** X12: one pass of the heartbeat monitor always returns: it neither
    raises nor ends the process, whatever the store holds. The events it
    processes carry the positive exit reason [NO_HEARTBEAT], so the pass
    never asks the cluster for pods and its outcome does not depend on the
    cluster. *)
Theorem monitor_node_heart_beat_returns k8s_client now self :
  ∃ self',
    _monitor_node_heart_beat k8s_client now self = (Returns tt, self')
    ∧ pod_queries (effects self') = pod_queries (effects self)
    ∧ ∀ other_client,
        _monitor_node_heart_beat other_client now self = (Returns tt, self').
Proof using Type.
  unfold _monitor_node_heart_beat, bind.
  pose proof (get_dead_node_event_run now 600 self) as Hscan.
  cbv zeta in Hscan.
  assert (Hreturns : ∀ dead reported,
    _get_dead_node_event now 600 self
    = (Returns (no_heartbeat_event <$> dead),
       set_effects
         (effects self ++ (reported ≫= no_heartbeat_reports 600)) self) ->
    ∃ self',
      (let (o, self1) := _get_dead_node_event now 600 self in
       match o with
       | Returns events =>
           for_each (fun _ event => _process_event_safely k8s_client event)
             tt events self1
       | Raises _ =>
           for_each (fun _ event => _process_event_safely k8s_client event)
             tt [] self1
       | Exits c => (Exits c, self1)
       end) = (Returns tt, self')
      ∧ pod_queries (effects self') = pod_queries (effects self)
      ∧ ∀ other_client,
          (let (o, self1) := _get_dead_node_event now 600 self in
           match o with
           | Returns events =>
               for_each
                 (fun _ event => _process_event_safely other_client event)
                 tt events self1
           | Raises _ =>
               for_each
                 (fun _ event => _process_event_safely other_client event)
                 tt [] self1
           | Exits c => (Exits c, self1)
           end) = (Returns tt, self')).
  { intros dead reported ->.
    set (self1 := set_effects _ self).
    destruct (for_each_synthesized k8s_client (no_heartbeat_event <$> dead)
                self1) as (self' & Hrun & Hq & Hother).
    { apply Forall_forall. intros event Hin.
      apply list_elem_of_fmap in Hin as (n & -> & _).
      split; [discriminate | reflexivity]. }
    exists self'. split; [exact Hrun|]. split; [|exact Hother].
    rewrite Hq. subst self1. cbn [effects set_effects].
    rewrite pod_queries_app, pod_queries_dead_reports, app_nil_r.
    reflexivity. }
  assert (Hshape : ∀ (k : K8sClient),
    (let (o, self1) :=
       match _get_dead_node_event now 600 self with
       | (Raises _, self') => (Returns [], self')
       | r => r
       end in
     match o with
     | Returns a =>
         for_each (fun _ event => _process_event_safely k event) tt a self1
     | Raises e => (Raises e, self1)
     | Exits c => (Exits c, self1)
     end)
    = (let (o, self1) := _get_dead_node_event now 600 self in
       match o with
       | Returns events =>
           for_each (fun _ event => _process_event_safely k event) tt events
             self1
       | Raises _ =>
           for_each (fun _ event => _process_event_safely k event) tt []
             self1
       | Exits c => (Exits c, self1)
       end)).
  { intros k. destruct (_get_dead_node_event now 600 self) as [[events|e|c] s];
      reflexivity. }
  destruct (time_info_error (get_job_nodes self)) as [e|];
    [destruct (existsb (skipped_node now 600)
                 (job_nodes_values (get_job_nodes self)))|].
  - rewrite Hscan. cbn [for_each]. eexists. split; [reflexivity|].
    split; [|intros other_client; reflexivity].
    cbn [effects set_effects].
    rewrite pod_queries_app, pod_queries_dead_reports, app_nil_r.
    reflexivity.
  - destruct (Hreturns _ _ Hscan) as (self' & Hrun & Hq & Hother).
    exists self'. rewrite Hshape. split; [exact Hrun|].
    split; [exact Hq|]. intros other_client. rewrite Hshape. apply Hother.
  - destruct (Hreturns _ _ Hscan) as (self' & Hrun & Hq & Hother).
    exists self'. rewrite Hshape. split; [exact Hrun|].
    split; [exact Hq|]. intros other_client. rewrite Hshape. apply Hother.
Qed.

(** X13: a collected heartbeat keeps the node alive. After
    [collect_node_heart_beat] has stored [timestamp] on a stored node, which
    it does without telling any collaborator, a pass of
    [_get_dead_node_event] at any time up to 600 seconds after [timestamp]
    does not report that node: the pass returns its events (or raises, on
    a store whose time info cannot be built, and then yields no event at
    all); it never ends the process, and the node is not among the events
    that the monitor goes on with. *)
Theorem fresh_heartbeat_not_dead next_action node_type node_id timestamp now
    self n :
  job_node (_job_context self) node_type node_id = Some n ->
  now - timestamp <= 600 ->
  let n' := Node.set_heartbeat_time timestamp n in
  ∃ action self' outcome self'',
    collect_node_heart_beat next_action node_type node_id timestamp self
    = (Returns action, self')
    ∧ job_node (_job_context self') (Node.type n) (Node.id n) = Some n'
    ∧ effects self' = effects self
    ∧ _get_dead_node_event now 600 self' = (outcome, self'')
    ∧ (∀ code, outcome ≠ Exits code)
    ∧ (time_info_error (get_job_nodes self') = None ->
       ∃ events, outcome = Returns events)
    ∧ no_heartbeat_event n' ∉ monitored_events outcome.
Proof using Type.
  intros Hnode Hfresh n'.
  assert (Hrun : ∃ action,
    collect_node_heart_beat next_action node_type node_id timestamp self
    = (Returns action,
       set_job_context (update_job_node_ctx n' (_job_context self)) self)).
  { unfold collect_node_heart_beat, bind, get_self, ret, update_job_node,
      modify.
    rewrite Hnode. fold n'.
    destruct (next_action (Some node_id)) as [[]|]; eexists; reflexivity. }
  destruct Hrun as (action & Hrun).
  set (self' := set_job_context _ self) in *.
  pose proof (get_dead_node_event_run now 600 self') as Hscan.
  cbv zeta in Hscan.
  assert (Hnot : no_heartbeat_event n'
                 ∉ no_heartbeat_event
                     <$> List.filter (dead_node now 600)
                           (job_nodes_values (get_job_nodes self'))).
  { intros Hin. apply list_elem_of_fmap in Hin as (m & Heq & Hm).
    apply dead_node_timed_out in Hm as (_ & _ & Hold).
    apply (f_equal (fun event => Node.heartbeat_time (node event))) in Heq.
    simpl in Heq. lia. }
  destruct (time_info_error (get_job_nodes self')) as [e|] eqn:Herr;
    [destruct (existsb (skipped_node now 600)
                 (job_nodes_values (get_job_nodes self')))|].
  - eexists action, self', _, _. split; [exact Hrun|].
    split; [exact (job_node_update_job_node n' _)|].
    split; [reflexivity|]. split; [exact Hscan|].
    split; [intros code; discriminate|]. split; [congruence|].
    intros Hin. inversion Hin.
  - eexists action, self', _, _. split; [exact Hrun|].
    split; [exact (job_node_update_job_node n' _)|].
    split; [reflexivity|]. split; [exact Hscan|].
    split; [intros code; discriminate|]. split; [eauto | exact Hnot].
  - eexists action, self', _, _. split; [exact Hrun|].
    split; [exact (job_node_update_job_node n' _)|].
    split; [reflexivity|]. split; [exact Hscan|].
    split; [intros code; discriminate|]. split; [eauto | exact Hnot].
Qed.

(** X14: a node action of the diagnosis always returns: for a node that is
    not in the store nothing happens at all; for a stored node the
    [DELETED] event made up from it carries the positive exit reason
    [DIAG_FAIL], so the deletion filter is skipped, the cluster is not
    asked, the outcome does not depend on the cluster, and the process is
    not ended. *)
Theorem process_node_action_returns k8s_client action self :
  ∃ self',
    _process_node_action k8s_client action self = (Returns tt, self')
    ∧ pod_queries (effects self') = pod_queries (effects self)
    ∧ (∀ other_client,
         _process_node_action other_client action self = (Returns tt, self'))
    ∧ (job_node (_job_context self) (NodeAction.node_type action)
         (NodeAction.node_id action) = None ->
       self' = self).
Proof using Type.
  unfold _process_node_action, bind, get_self, ret.
  destruct (job_node (_job_context self) (NodeAction.node_type action)
              (NodeAction.node_id action)) as [target_node|].
  - cbv zeta.
    set (event := {| event_type := NodeEventType.DELETED; node := _ |}).
    destruct (process_event_safely_synthesized k8s_client event self)
      as (self' & Hrun & Hq & Hother); [discriminate | reflexivity |].
    exists self'. repeat split; auto. discriminate.
  - exists self. repeat split.
Qed.

(** *** Critical nodes after [stop] *)

(** X15: after [stop] no critical node is left alive: on a manager that is
    not stopped and has a worker group, [stop] returns and
    [all_critical_node_completed] then answers yes, whatever the status of
    the nodes. *)
Theorem all_critical_node_completed_after_stop self :
  _stopped self = false ->
  is_Some (get_job_nodes self !! NodeType.WORKER) ->
  ∃ self',
    stop self = (Returns tt, self')
    ∧ all_critical_node_completed self' = true.
Proof using Type.
  intros Hstopped Hworker.
  destruct (stop_run self Hstopped Hworker)
    as (ctx & workers & Hrun & Hall & _).
  eexists. split; [exact Hrun|].
  unfold all_critical_node_completed.
  change (get_job_nodes (set_stopped true ?s)) with (get_job_nodes s).
  rewrite filter_nil_of_all; [reflexivity|].
  intros n Hn.
  apply elem_of_job_nodes_values in Hn as (ty & ns & i & Hns & Hn).
  destruct (Hall ty ns i n Hns Hn) as (-> & _). reflexivity.
Qed.

(** *** What the early-stop detector tells its collaborators *)

Lemma set_effects_twice es1 es2 self :
  set_effects es2 (set_effects es1 self) = set_effects es2 self.
Proof using Type. reflexivity. Qed.

(** X16: [should_early_stop] always returns; it writes neither the node
    store, nor the job stage, nor a flag of the manager, and it never calls
    the scaler. (The detectors of the node managers that it consults are
    parameters here; their calls are not among the recorded ones.) When it
    answers no it gives no reason, sends no report and does not call the
    error path. When it answers yes it gives a reason and sends exactly
    one [ACTION_EARLY_STOP] report; the error path gets a node only for
    OOM-recovered nodes that pend too long: the first of them, with
    restart count 0 and level [ERROR]; the other three stops pass no node.
    A job that is not all-reduce is never stopped for [NODE_CHECK_FAILED]
    or [UNCOMPLETED_TIMEOUT]. *)
Theorem should_early_stop_effects self :
  ∃ early_stop reason msg es,
    should_early_stop self
    = (Returns (early_stop, reason, msg),
       set_effects (effects self ++ es) self)
    ∧ scaled_plans es = []
    ∧ (early_stop = false -> es = [] ∧ reason = None ∧ msg = "")
    ∧ (early_stop = true ->
       is_Some reason
       ∧ (∃ report_msg,
            reported_events es = [(ACTION_EARLY_STOP, report_msg)])
       ∧ ∀ n restart_count error_data level,
           process_error n restart_count error_data level ∈ es ->
           head (get_pending_timeout_oom_recovered_node (_job_context self))
           = Some n
           ∧ restart_count = 0 ∧ error_data = msg
           ∧ level = TrainingExceptionLevel.ERROR
           ∧ reason = Some JobExitReason.PENDING_TIMEOUT)
    ∧ (is_all_reduce_type_job self = false ->
       reason ≠ Some JobExitReason.NODE_CHECK_FAILED
       ∧ reason ≠ Some JobExitReason.UNCOMPLETED_TIMEOUT).
Proof using Type.
  clear MAX_MEMORY relaunch_always oom_resource get_node_state_flow
    update_info relaunch_node get_ps_addrs exited get_worker_eval_time
    fromtimestamp_error.
  unfold should_early_stop, bind, get_self, ret, _process_error, _report_event,
    call, modify.
  destruct (is_all_reduce_type_job self) eqn:Har;
    destruct (is_all_initial_workers_node_check_failed worker_num
                (_job_context self)); cbn [andb].
  all: destruct (get_pending_timeout_oom_recovered_node (_job_context self))
    as [|n0 l0]; cbn [length head].
  all: repeat (case_bool_decide; try discriminate; try (simpl in *; lia)).
  all: try destruct (is_training_hang_by_insufficient_worker
                       (_job_context self)); cbn [andb].
  all: cbn; rewrite ?set_effects_twice, <- ?app_assoc; cbn [app].
  all: first
    [ eexists _, _, _, (@nil Effect); rewrite set_effects_id;
      (split; [reflexivity|]); (split; [reflexivity|]);
      (split; [intros _; repeat split|]);
      (split; [discriminate|]); intros _; split; discriminate
    | eexists _, _, _, _; (split; [reflexivity|]);
      (split; [reflexivity|]); (split; [discriminate|]);
      (split;
       [intros _; (split; [eauto|]); (split; [eexists; reflexivity|]);
        intros n rc data level Hin; rewrite list_elem_of_In in Hin;
        simpl in Hin; intuition (try discriminate);
        repeat match goal with
               | H : process_error _ _ _ _ = process_error _ _ _ _ |- _ =>
                   injection H as <- <- <- <-
               end; auto
       |]);
      first [ intros _; split; discriminate | discriminate ] ].
Qed.

(** *** What no operation does *)

(** X18: over any history of events, reports and facade calls the job
    arguments and the two configuration switches are never written, the
    stopped flag is never cleared, relaunch is never re-enabled once it is
    disabled, and the pending-relaunch counter never goes down. *)
Theorem operations_keep_flags ops self :
  let later := run_operations ops self in
  _job_args later = _job_args self
  ∧ _remove_exited_node later = _remove_exited_node self
  ∧ _wait_pending_relaunch later = _wait_pending_relaunch self
  ∧ (_stopped self = true -> _stopped later = true)
  ∧ (_enable_relaunch_node self = false ->
     _enable_relaunch_node later = false)
  ∧ _pending_relaunch_count self <= _pending_relaunch_count later.
Proof using Type.
  set (I := fun s =>
    _job_args s = _job_args self
    ∧ _remove_exited_node s = _remove_exited_node self
    ∧ _wait_pending_relaunch s = _wait_pending_relaunch self
    ∧ (_stopped self = true -> _stopped s = true)
    ∧ (_enable_relaunch_node self = false -> _enable_relaunch_node s = false)
    ∧ _pending_relaunch_count self <= _pending_relaunch_count s).
  assert (Hstep : ∀ A (m : M A),
    (∀ J : DistributedJobManager -> Prop,
       (∀ s es, J s -> J (set_effects es s)) ->
       (∀ s ctx, J s -> J (set_job_context ctx s)) ->
       (∀ s, J s -> J (set_pending_relaunch_count
                         (_pending_relaunch_count s + 1) s)) ->
       (∀ s, J s -> J (set_enable_relaunch_node false s)) ->
       (∀ s, J s -> J (set_stopped true s)) ->
       keeps J m) ->
    keeps I m).
  { intros A m Hm. apply Hm; unfold I; intros s; intros;
      repeat match goal with H : _ ∧ _ |- _ => destruct H end;
      simpl; repeat split; auto; lia. }
  apply (run_operations_keeps I).
  - intros op _. apply Hstep. intros J Heff Hctx Hcnt Hen Hstop.
    destruct op; cbn [run_operation];
      try apply process_event_safely_keeps;
      unfold_methods;
      repeat (keeps_step || (apply keeps_modify; intros ? ?; auto)).
  - unfold I. repeat split; auto; lia.
Qed.

(** *** Removing the training nodes *)

Lemma group_all_update_job_node node_type (P : Node.t -> Prop) n ctx :
  P n -> group_all node_type P ctx ->
  group_all node_type P (update_job_node_ctx n ctx).
Proof using Type.
  intros HP Hall nodes node_id n'. unfold update_job_node_ctx. simpl.
  destruct (decide (Node.type n = node_type)) as [<-|Hne].
  - rewrite lookup_insert_eq. intros [= <-].
    destruct (decide (Node.id n = node_id)) as [<-|Hid].
    + rewrite lookup_insert_eq. intros [= <-]. exact HP.
    + rewrite lookup_insert_ne by assumption.
      destruct (_job_nodes ctx !! Node.type n) as [ns|] eqn:Hns; simpl.
      * intros Hn. exact (Hall _ _ _ Hns Hn).
      * rewrite lookup_empty. discriminate.
  - rewrite lookup_insert_ne by assumption. intros Hns Hn.
    exact (Hall _ _ _ Hns Hn).
Qed.

Lemma group_all_update_job_nodes node_type (P : Node.t -> Prop) nodes ctx :
  Forall P nodes -> group_all node_type P ctx ->
  group_all node_type P (update_job_nodes nodes ctx).
Proof using Type.
  intros Hnodes. revert ctx.
  induction Hnodes as [|n nodes HP _ IH]; intros ctx Hall; [exact Hall|].
  simpl. apply IH. apply group_all_update_job_node; assumption.
Qed.

Lemma group_all_mutate_of node_type (P : Node.t -> Prop) f ctx :
  (∀ n, P (f n)) -> group_all node_type P (mutate_job_nodes_of node_type f ctx).
Proof using Type.
  intros HP nodes node_id n. unfold mutate_job_nodes_of. simpl.
  rewrite lookup_alter_eq.
  destruct (_job_nodes ctx !! node_type) as [ns|]; simpl; [|discriminate].
  intros [= <-]. rewrite lookup_fmap.
  destruct (ns !! node_id) as [n0|]; simpl; [|discriminate].
  intros [= <-]. apply HP.
Qed.

Lemma group_all_mutate_of_ne node_type node_type' (P : Node.t -> Prop) f ctx :
  node_type' ≠ node_type ->
  group_all node_type P ctx ->
  group_all node_type P (mutate_job_nodes_of node_type' f ctx).
Proof using Type.
  intros Hne Hall nodes node_id n. unfold mutate_job_nodes_of. simpl.
  rewrite lookup_alter_ne by assumption. apply Hall.
Qed.

Lemma mutate_job_nodes_of_id node_type f ctx :
  group_all node_type (fun n => f n = n) ctx ->
  mutate_job_nodes_of node_type f ctx = ctx.
Proof using Type.
  intros Hall. unfold mutate_job_nodes_of. destruct ctx as [job_nodes stage].
  simpl. f_equal. apply map_eq. intros ty.
  destruct (decide (node_type = ty)) as [<-|Hne].
  - rewrite lookup_alter_eq.
    destruct (job_nodes !! node_type) as [ns|] eqn:Hns; simpl; [|reflexivity].
    f_equal. apply map_eq. intros node_id. rewrite lookup_fmap.
    destruct (ns !! node_id) as [n|] eqn:Hn; simpl; [|reflexivity].
    f_equal. exact (Hall ns node_id n Hns Hn).
  - rewrite lookup_alter_ne by assumption. reflexivity.
Qed.

Lemma update_job_nodes_is_Some node_type nodes ctx :
  is_Some (_job_nodes ctx !! node_type) ->
  is_Some (_job_nodes (update_job_nodes nodes ctx) !! node_type).
Proof using Type.
  revert ctx. induction nodes as [|n nodes IH]; intros ctx Hm; [exact Hm|].
  simpl. apply IH. simpl.
  destruct (decide (Node.type n = node_type)) as [->|Hne].
  - rewrite lookup_insert_eq. eauto.
  - rewrite lookup_insert_ne by assumption. exact Hm.
Qed.

(** What [remove_training_nodes] does from a store in which no worker and
    no parameter server is in training any more. *)
Lemma remove_training_nodes_again self :
  is_Some (get_job_nodes self !! NodeType.WORKER) ->
  is_Some (get_job_nodes self !! NodeType.PS) ->
  group_all NodeType.WORKER out_of_training (_job_context self) ->
  group_all NodeType.PS out_of_training (_job_context self) ->
  remove_training_nodes self
  = (Returns tt,
     set_effects (effects self ++ [scaler_scale new_ScalePlan]) self).
Proof using Type.
  intros [workers Hw] [ps Hps] Hallw Hallps.
  assert (Hout : ∀ n, out_of_training n ->
    bool_decide (Node.status n = NodeStatus.RUNNING
                 ∨ Node.status n = NodeStatus.PENDING)
    && negb (Node.is_released n) = false).
  { intros n [-> | [Hr Hp]]; [apply andb_false_r|].
    rewrite bool_decide_eq_false_2 by (intros [?|?]; contradiction).
    reflexivity. }
  unfold remove_training_nodes, bind, get_self, ret, modify, call, raise.
  rewrite Hw, Hps. cbv zeta.
  rewrite filter_nil_of_all.
  - cbn -[mutate_job_nodes_of].
    rewrite (mutate_job_nodes_of_id NodeType.WORKER).
    + rewrite (mutate_job_nodes_of_id NodeType.PS).
      * rewrite set_job_context_id. reflexivity.
      * intros ns i n Hns Hn. rewrite (Hout n); [reflexivity|].
        exact (Hallps ns i n Hns Hn).
    + intros ns i n Hns Hn. rewrite (Hout n); [reflexivity|].
      exact (Hallw ns i n Hns Hn).
  - intros n Hn. apply Hout. apply elem_of_app in Hn as [Hn|Hn];
      apply list_elem_of_fmap in Hn as ([i n'] & -> & Hn);
      apply elem_of_map_to_list in Hn.
    + exact (Hallw workers i n' Hw Hn).
    + exact (Hallps ps i n' Hps Hn).
Qed.

(** X17: [remove_training_nodes] needs the worker and the parameter-server
    group: without one of them it raises [KeyError] before it has removed
    anything. With both it passes the scaler one plan that launches
    nothing and removes the workers and parameter servers that were
    running or pending and not released, each marked deleted, released,
    non-critical and non-relaunchable; afterwards no worker and no
    parameter server of the store is in training, and a second call leaves
    the store as it is and passes the scaler an empty plan. *)
Theorem remove_training_nodes_twice self :
  (get_job_nodes self !! NodeType.WORKER = None
   ∨ get_job_nodes self !! NodeType.PS = None ->
   remove_training_nodes self = (Raises KeyError, self))
  ∧ (is_Some (get_job_nodes self !! NodeType.WORKER) ->
     is_Some (get_job_nodes self !! NodeType.PS) ->
     ∃ plan self',
       remove_training_nodes self = (Returns tt, self')
       ∧ effects self' = effects self ++ [scaler_scale plan]
       ∧ node_group_resources plan = ∅ ∧ launch_nodes plan = []
       ∧ Forall (fun n => Node.status n = NodeStatus.DELETED ∧ stopped_node n)
           (remove_nodes plan)
       ∧ group_all NodeType.WORKER out_of_training (_job_context self')
       ∧ group_all NodeType.PS out_of_training (_job_context self')
       ∧ remove_training_nodes self'
         = (Returns tt,
            set_effects (effects self' ++ [scaler_scale new_ScalePlan]) self')).
Proof using Type.
  split.
  - unfold remove_training_nodes, bind, get_self, raise.
    intros [Hnone | Hnone]; rewrite Hnone; [reflexivity|].
    destruct (get_job_nodes self !! NodeType.WORKER); reflexivity.
  - intros Hworker Hps.
    destruct Hworker as [workers Hw]. destruct Hps as [ps Hp].
    set (in_training := fun n =>
      bool_decide (Node.status n = NodeStatus.RUNNING
                   ∨ Node.status n = NodeStatus.PENDING)
      && negb (Node.is_released n)).
    set (remove := fun n =>
      if in_training n then remove_training_node n else n).
    set (removed :=
      remove_training_node
        <$> List.filter in_training
              ((map_to_list workers).*2 ++ (map_to_list ps).*2)).
    set (ctx' :=
      update_job_nodes removed
        (mutate_job_nodes_of NodeType.PS remove
           (mutate_job_nodes_of NodeType.WORKER remove (_job_context self)))).
    set (plan := {| node_group_resources := ∅; launch_nodes := [];
                    remove_nodes := removed; ps_addrs := [] |}).
    assert (Hremove : ∀ n, out_of_training (remove n)).
    { intros n. unfold remove, in_training, out_of_training.
      destruct (Node.is_released n) eqn:Hr; [rewrite andb_false_r; auto|].
      rewrite andb_true_r. case_bool_decide as Hst.
      - left. reflexivity.
      - right. split; intros Heq; apply Hst; [left | right]; exact Heq. }
    assert (Hremoved : Forall out_of_training removed).
    { apply Forall_forall. intros n Hn.
      apply list_elem_of_fmap in Hn as (n0 & -> & _). left. reflexivity. }
    assert (Hallw : group_all NodeType.WORKER out_of_training ctx').
    { apply group_all_update_job_nodes; [exact Hremoved|].
      apply group_all_mutate_of_ne; [discriminate|].
      apply group_all_mutate_of, Hremove. }
    assert (Hallps : group_all NodeType.PS out_of_training ctx').
    { apply group_all_update_job_nodes; [exact Hremoved|].
      apply group_all_mutate_of, Hremove. }
    exists plan, (set_effects (effects self ++ [scaler_scale plan])
                    (set_job_context ctx' self)).
    split.
    { unfold remove_training_nodes, bind, get_self, ret, modify, call.
      rewrite Hw, Hp. reflexivity. }
    split; [reflexivity|]. split; [reflexivity|]. split; [reflexivity|].
    split.
    { apply Forall_forall. intros n Hn.
      apply list_elem_of_fmap in Hn as (n0 & -> & _). repeat split. }
    split; [exact Hallw|]. split; [exact Hallps|].
    apply remove_training_nodes_again; try assumption.
    + apply (update_job_nodes_is_Some NodeType.WORKER). simpl.
      rewrite lookup_alter_ne by discriminate. rewrite lookup_alter_eq.
      unfold get_job_nodes in Hw. rewrite Hw. simpl. eauto.
    + apply (update_job_nodes_is_Some NodeType.PS). simpl.
      rewrite lookup_alter_eq, lookup_alter_ne by discriminate.
      unfold get_job_nodes in Hp. rewrite Hp. simpl. eauto.
Qed.

(** *** The relaunch path of the pipeline *)

Lemma should_relaunch_yes n flow self :
  should_relaunch flow = true ->
  _enable_relaunch_node self = true ->
  Node.relaunchable n = true ->
  get_job_stage self ≠ JobStage.JOB_STOPPING ->
  (Node.exit_reason n = Some NodeExitReason.FATAL_ERROR ->
   relaunch_always = true) ->
  Node.exit_reason n ≠ Some NodeExitReason.RELAUNCHED ->
  Node.exit_reason n ≠ Some NodeExitReason.OOM ->
  (Node.exit_reason n ≠ Some NodeExitReason.KILLED ->
   Node.relaunch_count n < Node.max_relaunch_count n) ->
  _should_relaunch n flow self
  = (Returns (true, Node.set_relaunch_count (Node.relaunch_count n + 1) n),
     self).
Proof using Type.
  intros Hflow Hen Hrel Hstage Hfatal Hre Hoom Hcnt.
  unfold _should_relaunch, bind, get_self, ret.
  rewrite Hflow, Hen, Hrel. cbn [andb].
  rewrite (bool_decide_eq_false_2 _ Hstage).
  destruct (Node.exit_reason n) as [[]|] eqn:He;
    try (exfalso; apply Hre; reflexivity);
    try (exfalso; apply Hoom; reflexivity);
    try rewrite (Hfatal eq_refl);
    try (assert (Hlt := Hcnt ltac:(discriminate)));
    repeat (case_bool_decide; try discriminate; try lia; cbn [andb negb]);
    try congruence; reflexivity.
Qed.

(** X19: the relaunch path. For an event other than ["exit"] that the
    deletion filter does not drop, on a stored node that, after
    [update_info] has taken the observed values, is relaunchable and has a
    relaunch-eligible transition from its status, in a job that is not
    stopping and has relaunch enabled, with an exit reason that is neither
    [RELAUNCHED] nor OOM nor (unless [relaunch_always]) a fatal error:
    when the exit reason is [KILLED], or the relaunch count of that node
    is below its [max_relaunch_count], [_process_event] returns, hands the
    node, failed and with its relaunch count raised by one, to the manager
    of its type, passes the scaler exactly one plan, which launches what
    the manager's plan launches, reports the status change for that node,
    and adds one to the pending-relaunch counter exactly when
    [_wait_pending_relaunch] is set. *)
Theorem process_event_relaunch k8s_client event self cur flow :
  let pod_labels := _get_pod_unique_labels self (node event) in
  let cur' := observed event cur in
  let failed :=
    Node.set_exit_reason (Node.exit_reason (node event))
      (Node.update_status (Node.status (node event)) cur') in
  let relaunched :=
    Node.set_relaunch_count (Node.relaunch_count cur' + 1) failed in
  let manager :=
    match Node.type cur' with
    | NodeType.WORKER => _worker_manager
    | NodeType.PS => _ps_manager
    | NodeType.EVALUATOR => _evaluator_manager
    | NodeType.CHIEF | NodeType.MASTER => _chief_manager
    end in
  event_type event ≠ NodeEventType.EXIT ->
  (deletion_filter_applies event = true ->
   running_pod_exists (k8s_client pod_labels) = false) ->
  job_node (_job_context self) (Node.type (node event)) (Node.id (node event))
  = Some cur ->
  get_node_state_flow (Node.status cur') (event_type event)
    (Node.status (node event)) = Some flow ->
  from_status flow ≠ NodeStatus.SUCCEEDED ->
  should_relaunch flow = true ->
  _enable_relaunch_node self = true ->
  Node.relaunchable cur' = true ->
  get_job_stage self ≠ JobStage.JOB_STOPPING ->
  (Node.exit_reason (node event) = Some NodeExitReason.FATAL_ERROR ->
   relaunch_always = true) ->
  Node.exit_reason (node event) ≠ Some NodeExitReason.RELAUNCHED ->
  Node.exit_reason (node event) ≠ Some NodeExitReason.OOM ->
  (Node.exit_reason (node event) ≠ Some NodeExitReason.KILLED ->
   Node.relaunch_count cur' < Node.max_relaunch_count cur') ->
  ∃ plan0 node0 job_nodes0 plan self',
    relaunch_node manager relaunched (_remove_exited_node self)
      (_job_nodes
         (update_job_node_ctx failed
            (update_job_node_ctx cur' (_job_context self))))
    = (plan0, node0, job_nodes0)
    ∧ _process_event k8s_client event self = (Returns tt, self')
    ∧ scaled_plans (effects self') = scaled_plans (effects self) ++ [plan]
    ∧ launch_nodes plan = launch_nodes plan0
    ∧ node_group_resources plan = node_group_resources plan0
    ∧ report_node_status_change relaunched (Node.status cur')
        (to_status flow)
      ∈ effects self'
    ∧ _pending_relaunch_count self'
      = _pending_relaunch_count self
        + (if _wait_pending_relaunch self then 1 else 0).
Proof using Type.
  intros pod_labels cur' failed relaunched manager Hexit Hpods Hcur Hflow
    Hfrom Hrel Hen Hable Hstage Hfatal Hre Hoom Hcnt.
  apply job_node_Some in Hcur as (nodes & Hnodes & Hn).
  destruct (relaunch_node manager relaunched (_remove_exited_node self)
              (_job_nodes
                 (update_job_node_ctx failed
                    (update_job_node_ctx cur' (_job_context self)))))
    as [[plan0 node0] job_nodes0] eqn:Hmanager.
  exists plan0, node0, job_nodes0.
  assert (Hyes : ∀ s,
    _enable_relaunch_node s = true ->
    get_job_stage s = get_job_stage self ->
    _should_relaunch failed flow s = (Returns (true, relaunched), s)).
  { intros s Hen' Hstage'. apply should_relaunch_yes; try assumption.
    rewrite Hstage'. exact Hstage. }
  unfold _process_event, bind, get_self, ret, update_job_node, modify, call.
  fold pod_labels.
  change ((bool_decide (event_type event = NodeEventType.DELETED)
           || bool_decide (Node.status (node event) = NodeStatus.DELETED))
          && negb (is_positive_exit (Node.exit_reason (node event))))
    with (deletion_filter_applies event).
  rewrite (bool_decide_eq_false_2 _ Hexit).
  destruct (deletion_filter_applies event);
    [rewrite Hpods by reflexivity|];
    cbn -[_should_relaunch _relaunch_node _process_node_events
          update_job_node_ctx];
    unfold get_job_nodes;
    cbn -[_should_relaunch _relaunch_node _process_node_events
          update_job_node_ctx];
    rewrite Hnodes, Hn; fold (observed event cur); fold cur';
    cbn -[_should_relaunch _relaunch_node _process_node_events
          update_job_node_ctx];
    rewrite Hflow, (bool_decide_eq_false_2 _ Hfrom); fold failed.
  all: lazymatch goal with
       | |- context [_process_node_events ?f ?n ?s] =>
           pose proof (process_node_events_run f n s) as (es & Hcb & Hes)
       end.
  all: rewrite Hcb.
  all: rewrite Hyes by (try exact Hen; reflexivity).
  all: cbn -[_relaunch_node update_job_node_ctx].
  all: unfold _relaunch_node, bind, get_self, ret, call, modify,
         update_job_node.
  all: cbn -[update_job_node_ctx].
  all: destruct (_wait_pending_relaunch self); cbn -[update_job_node_ctx].
  all: fold manager; unfold get_job_nodes; cbn -[update_job_node_ctx];
    rewrite Hmanager.
  all: destruct (launch_nodes plan0) eqn:Hlaunch; cbn -[update_job_node_ctx];
    (eexists _, _; split; [reflexivity|]); (split; [reflexivity|]);
    cbn -[update_job_node_ctx];
    rewrite !scaled_plans_app, ?Hes; cbn; rewrite ?app_nil_r;
    (split; [reflexivity|]); (split; [reflexivity|]);
    (split; [reflexivity|]);
    (split; [|lia]);
    apply list_elem_of_In; rewrite !in_app_iff; simpl; auto 10.
Qed.

(** *** The store stays well keyed *)

Lemma well_keyed_update_job_node n ctx :
  well_keyed (_job_nodes ctx) ->
  well_keyed (_job_nodes (update_job_node_ctx n ctx)).
Proof using Type.
  intros Hwk node_type nodes node_id n'. unfold update_job_node_ctx. simpl.
  destruct (decide (Node.type n = node_type)) as [<-|Hne].
  - rewrite lookup_insert_eq. intros [= <-].
    destruct (decide (Node.id n = node_id)) as [<-|Hid].
    + rewrite lookup_insert_eq. intros [= <-]. split; reflexivity.
    + rewrite lookup_insert_ne by assumption.
      destruct (_job_nodes ctx !! Node.type n) as [ns|] eqn:Hns; simpl.
      * intros Hn. exact (Hwk _ _ _ _ Hns Hn).
      * rewrite lookup_empty. discriminate.
  - rewrite lookup_insert_ne by assumption. intros Hns Hn.
    exact (Hwk _ _ _ _ Hns Hn).
Qed.

Lemma well_keyed_update_job_nodes nodes ctx :
  well_keyed (_job_nodes ctx) ->
  well_keyed (_job_nodes (update_job_nodes nodes ctx)).
Proof using Type.
  revert ctx. induction nodes as [|n nodes IH]; intros ctx Hwk; [exact Hwk|].
  simpl. apply IH, well_keyed_update_job_node, Hwk.
Qed.

Lemma well_keyed_mutate f ctx :
  (∀ n, Node.type (f n) = Node.type n ∧ Node.id (f n) = Node.id n) ->
  well_keyed (_job_nodes ctx) ->
  well_keyed (_job_nodes (mutate_job_nodes f ctx)).
Proof using Type.
  intros Hf Hwk node_type nodes node_id n. simpl. rewrite lookup_fmap.
  destruct (_job_nodes ctx !! node_type) as [ns|] eqn:Hns; simpl;
    [|discriminate].
  intros [= <-]. rewrite lookup_fmap.
  destruct (ns !! node_id) as [n0|] eqn:Hn0; simpl; [|discriminate].
  intros [= <-]. destruct (Hf n0) as [-> ->]. exact (Hwk _ _ _ _ Hns Hn0).
Qed.

Lemma well_keyed_mutate_of node_type f ctx :
  (∀ n, Node.type (f n) = Node.type n ∧ Node.id (f n) = Node.id n) ->
  well_keyed (_job_nodes ctx) ->
  well_keyed (_job_nodes (mutate_job_nodes_of node_type f ctx)).
Proof using Type.
  intros Hf Hwk ty nodes node_id n. simpl.
  destruct (decide (node_type = ty)) as [<-|Hne].
  - rewrite lookup_alter_eq.
    destruct (_job_nodes ctx !! node_type) as [ns|] eqn:Hns; simpl;
      [|discriminate].
    intros [= <-]. rewrite lookup_fmap.
    destruct (ns !! node_id) as [n0|] eqn:Hn0; simpl; [|discriminate].
    intros [= <-]. destruct (Hf n0) as [-> ->]. exact (Hwk _ _ _ _ Hns Hn0).
  - rewrite lookup_alter_ne by assumption. apply Hwk.
Qed.

Lemma relaunch_node_keeps_well_keyed node :
  (∀ manager node remove_exited_node job_nodes,
     well_keyed job_nodes ->
     well_keyed (relaunch_node manager node remove_exited_node job_nodes).2) ->
  keeps (fun self => well_keyed (get_job_nodes self)) (_relaunch_node node).
Proof using Type.
  intros Hmanager self Hwk.
  unfold _relaunch_node, bind, get_self, ret, call, modify, update_job_node.
  lazymatch goal with
  | |- context [relaunch_node ?m ?n ?b ?js] =>
      pose proof (Hmanager m n b js Hwk) as Hwk';
      destruct (relaunch_node m n b js) as [[plan node'] job_nodes']
  end.
  simpl in Hwk'.
  destruct (launch_nodes plan); cbn -[update_job_node_ctx];
    unfold get_job_nodes; cbn -[update_job_node_ctx];
    apply well_keyed_update_job_node; exact Hwk'.
Qed.

(** X20: the node store stays well keyed. If every node is filed under its
    own type and id, and the node managers keep it so when they add the
    replacement of a relaunched node, then it is still so after any
    history of processed events, reported node events, service-address
    updates, [clear_exited_nodes], [clear_all_nodes] and [stop] calls. *)
Theorem store_stays_well_keyed ops self :
  (∀ manager node remove_exited_node job_nodes,
     well_keyed job_nodes ->
     well_keyed (relaunch_node manager node remove_exited_node job_nodes).2) ->
  well_keyed (get_job_nodes self) ->
  well_keyed (get_job_nodes (run_operations ops self)).
Proof using Type.
  intros Hmanager Hwk.
  apply (run_operations_keeps (fun s => well_keyed (get_job_nodes s)));
    [|exact Hwk].
  intros op _.
  assert (Hsetters : ∀ f : Node.t -> Node.t,
    (∀ n, Node.type (f n) = Node.type n ∧ Node.id (f n) = Node.id n) ->
    ∀ nodes ctx, well_keyed (_job_nodes ctx) ->
    well_keyed (_job_nodes (update_job_nodes nodes (mutate_job_nodes f ctx)))).
  { intros f Hf nodes ctx Hctx.
    apply well_keyed_update_job_nodes, well_keyed_mutate; assumption. }
  destruct op; cbn [run_operation];
    try apply process_event_safely_keeps;
    unfold _process_event, _process_node_events, _should_relaunch,
      close_job, _report_event, _job_optimizer_adjust_oom_resource,
      clear_exited_nodes, clear_all_nodes, stop, update_node_service_addr,
      process_reported_node_event, update_job_node, update_job_stage, call;
    repeat (apply (relaunch_node_keeps_well_keyed _ Hmanager)
            || keeps_step
            || (apply keeps_modify;
                let st := fresh "st" in
                let Hs := fresh "Hst" in
                intros st Hs; unfold get_job_nodes in *;
                cbn -[update_job_node_ctx update_job_nodes mutate_job_nodes
                      mutate_job_nodes_of];
                first
                  [ exact Hs
                  | apply well_keyed_update_job_node; exact Hs
                  | apply Hsetters; [|exact Hs]; intros n;
                    try destruct (negb (Node.is_released n) && exited n);
                    split; reflexivity
                  | apply well_keyed_mutate; [|exact Hs]; intros n;
                    split; reflexivity
                  | apply well_keyed_update_job_nodes, well_keyed_mutate_of;
                    [|exact Hs]; intros n; split; reflexivity ])).
Qed.
(** *** Histories that keep a relation on the stored nodes

    [R] says what the node stored under a key may become and [P] what
    holds of every stored node; both look at type, id, status, relaunch
    count and budget only. The hypotheses say that the imported code
    ([update_info], the node managers) and the steps of the pipeline that
    write one of these attributes respect [R] and [P] for the operations
    that are [allowed]. *)

Section StoreInvariant.

Variable R : Node.t -> Node.t -> Prop.
Variable P : Node.t -> Prop.
Variable allowed : Operation -> DistributedJobManager -> Prop.

Hypothesis R_refl : ∀ n, R n n.
Hypothesis R_trans : ∀ n1 n2 n3, R n1 n2 -> R n2 n3 -> R n1 n3.
Hypothesis R_key :
  ∀ n n', R n n' -> Node.type n' = Node.type n ∧ Node.id n' = Node.id n.
Hypothesis RP_core : ∀ n n', same_core n n' -> P n -> P n' ∧ R n n'.

Hypothesis update_info_ok :
  ∀ k8s_client event self cur,
    allowed (op_process_event k8s_client event) self ->
    job_node (_job_context self) (Node.type (node event))
      (Node.id (node event)) = Some cur ->
    Node.type cur = Node.type (node event) ->
    Node.id cur = Node.id (node event) ->
    P cur ->
    P (observed event cur) ∧ R cur (observed event cur).

Hypothesis transition_ok :
  ∀ k8s_client event self cur flow,
    allowed (op_process_event k8s_client event) self ->
    job_node (_job_context self) (Node.type (node event))
      (Node.id (node event)) = Some cur ->
    Node.type cur = Node.type (node event) ->
    Node.id cur = Node.id (node event) ->
    P (observed event cur) ->
    get_node_state_flow (Node.status (observed event cur)) (event_type event)
      (Node.status (node event)) = Some flow ->
    from_status flow ≠ NodeStatus.SUCCEEDED ->
    let failed :=
      Node.set_exit_reason (Node.exit_reason (node event))
        (Node.update_status (Node.status (node event)) (observed event cur)) in
    P failed ∧ R (observed event cur) failed
    ∧ ∀ s b node' s',
        _should_relaunch failed flow s = (Returns (b, node'), s') ->
        P node' ∧ R failed node'.

Hypothesis service_addr_ok :
  ∀ node_type node_id service_addr self n,
    allowed (op_update_node_service_addr node_type node_id service_addr) self ->
    job_node (_job_context self) node_type node_id = Some n ->
    Node.type n = node_type -> Node.id n = node_id ->
    P n ->
    let n' :=
      Node.set_is_released false
        (Node.set_status NodeStatus.RUNNING
           (Node.update_service_address service_addr n)) in
    P n' ∧ R n n'.

Hypothesis manager_ok :
  ∀ manager node remove_exited_node job_nodes plan node' job_nodes',
    relaunch_node manager node remove_exited_node job_nodes
    = (plan, node', job_nodes') ->
    well_keyed job_nodes -> store_all P job_nodes -> P node ->
    well_keyed job_nodes' ∧ store_all P job_nodes'
    ∧ store_related R job_nodes job_nodes'
    ∧ P node' ∧ R node node'.

Lemma store_related_refl job_nodes : store_related R job_nodes job_nodes.
Proof using R_refl. intros ty i n Hn. exists n. split; [exact Hn | apply R_refl]. Qed.

Lemma store_related_trans js1 js2 js3 :
  store_related R js1 js2 -> store_related R js2 js3 -> store_related R js1 js3.
Proof using R_trans.
  intros H12 H23 ty i n Hn.
  destruct (H12 _ _ _ Hn) as (n2 & Hn2 & HR2).
  destruct (H23 _ _ _ Hn2) as (n3 & Hn3 & HR3).
  exists n3. split; [exact Hn3 | exact (R_trans _ _ _ HR2 HR3)].
Qed.

Lemma fits_stored js0 js node_type node_id n :
  store_ok R P js0 js ->
  js !! node_type ≫= (.!! node_id) = Some n ->
  fits R P js0 n ∧ Node.type n = node_type ∧ Node.id n = node_id.
Proof using Type.
  intros (Hwk & Hall & Hrel) Hn.
  destruct (js !! node_type) as [ns|] eqn:Hns; simpl in Hn; [|discriminate].
  destruct (Hwk _ _ _ _ Hns Hn) as [Hty Hid].
  split; [|split; assumption]. split; [exact (Hall _ _ _ _ Hns Hn)|].
  intros m Hm. rewrite Hty, Hid in Hm.
  destruct (Hrel _ _ _ Hm) as (n' & Hn' & HR).
  rewrite Hns in Hn'. simpl in Hn'. rewrite Hn in Hn'.
  injection Hn' as <-. exact HR.
Qed.

Lemma fits_step js0 n n' :
  fits R P js0 n -> R n n' -> P n' -> fits R P js0 n'.
Proof using R_trans R_key.
  intros [_ Hfit] HR HP. split; [exact HP|].
  destruct (R_key _ _ HR) as [-> ->].
  intros m Hm. exact (R_trans _ _ _ (Hfit m Hm) HR).
Qed.

Lemma fits_core js0 n n' :
  fits R P js0 n -> same_core n n' -> fits R P js0 n'.
Proof using R_trans R_key RP_core.
  intros Hfit Hcore. destruct (RP_core _ _ Hcore (proj1 Hfit)) as [HP HR].
  exact (fits_step _ _ _ Hfit HR HP).
Qed.

Lemma store_all_update_job_node n ctx :
  P n -> store_all P (_job_nodes ctx) ->
  store_all P (_job_nodes (update_job_node_ctx n ctx)).
Proof using Type.
  intros HP Hall node_type nodes node_id n'. simpl.
  destruct (decide (Node.type n = node_type)) as [<-|Hne].
  - rewrite lookup_insert_eq. intros [= <-].
    destruct (decide (Node.id n = node_id)) as [<-|Hid].
    + rewrite lookup_insert_eq. intros [= <-]. exact HP.
    + rewrite lookup_insert_ne by assumption.
      destruct (_job_nodes ctx !! Node.type n) as [ns|] eqn:Hns; simpl.
      * intros Hn. exact (Hall _ _ _ _ Hns Hn).
      * rewrite lookup_empty. discriminate.
  - rewrite lookup_insert_ne by assumption. intros Hns Hn.
    exact (Hall _ _ _ _ Hns Hn).
Qed.

Lemma store_ok_update_job_node js0 n ctx :
  store_ok R P js0 (_job_nodes ctx) -> fits R P js0 n ->
  store_ok R P js0 (_job_nodes (update_job_node_ctx n ctx)).
Proof using Type.
  intros (Hwk & Hall & Hrel) [HP Hfit].
  split; [apply well_keyed_update_job_node, Hwk|].
  split; [apply store_all_update_job_node; assumption|].
  intros ty i m Hm.
  destruct (decide ((ty, i) = (Node.type n, Node.id n))) as [Heq|Hne].
  - injection Heq as -> ->. exists n.
    split; [exact (job_node_update_job_node n ctx) | exact (Hfit m Hm)].
  - destruct (Hrel _ _ _ Hm) as (n' & Hn' & HR). exists n'.
    split; [|exact HR]. rewrite <- Hn'.
    exact (job_node_update_job_node_ne n ctx ty i Hne).
Qed.

Lemma store_ok_update_job_nodes js0 nodes ctx :
  Forall (fits R P js0) nodes ->
  store_ok R P js0 (_job_nodes ctx) ->
  store_ok R P js0 (_job_nodes (update_job_nodes nodes ctx)).
Proof using Type.
  intros Hnodes. revert ctx.
  induction Hnodes as [|n nodes Hn _ IH]; intros ctx Hok; [exact Hok|].
  simpl. apply IH, store_ok_update_job_node; assumption.
Qed.

Lemma job_node_mutate f ctx node_type node_id :
  _job_nodes (mutate_job_nodes f ctx) !! node_type ≫= (.!! node_id)
  = f <$> (_job_nodes ctx !! node_type ≫= (.!! node_id)).
Proof using Type.
  simpl. rewrite lookup_fmap.
  destruct (_job_nodes ctx !! node_type) as [ns|]; simpl; [|reflexivity].
  apply lookup_fmap.
Qed.

Lemma store_ok_mutate js0 f ctx :
  (∀ n, same_core n (f n)) ->
  store_ok R P js0 (_job_nodes ctx) ->
  store_ok R P js0 (_job_nodes (mutate_job_nodes f ctx)).
Proof using R_trans RP_core.
  intros Hf (Hwk & Hall & Hrel).
  split; [apply well_keyed_mutate;
          [intros n; destruct (Hf n) as (? & ? & _); auto | exact Hwk]|].
  split.
  - intros ty ns i n. simpl. rewrite lookup_fmap.
    destruct (_job_nodes ctx !! ty) as [ns0|] eqn:Hns; simpl; [|discriminate].
    intros [= <-]. rewrite lookup_fmap.
    destruct (ns0 !! i) as [n0|] eqn:Hn0; simpl; [|discriminate].
    intros [= <-].
    exact (proj1 (RP_core _ _ (Hf n0) (Hall _ _ _ _ Hns Hn0))).
  - intros ty i m Hm. destruct (Hrel _ _ _ Hm) as (n' & Hn' & HR).
    exists (f n'). rewrite job_node_mutate, Hn'. split; [reflexivity|].
    apply (R_trans _ _ _ HR).
    destruct (_job_nodes ctx !! ty) as [ns0|] eqn:Hns; simpl in Hn';
      [|discriminate].
    exact (proj2 (RP_core _ _ (Hf n') (Hall _ _ _ _ Hns Hn'))).
Qed.

Lemma store_ok_mutate_of js0 node_type f ctx :
  (∀ n, same_core n (f n)) ->
  store_ok R P js0 (_job_nodes ctx) ->
  store_ok R P js0 (_job_nodes (mutate_job_nodes_of node_type f ctx)).
Proof using R_refl R_trans RP_core.
  intros Hf (Hwk & Hall & Hrel).
  split; [apply well_keyed_mutate_of;
          [intros n; destruct (Hf n) as (? & ? & _); auto | exact Hwk]|].
  split.
  - intros ty ns i n. simpl.
    destruct (decide (node_type = ty)) as [<-|Hne].
    + rewrite lookup_alter_eq.
      destruct (_job_nodes ctx !! node_type) as [ns0|] eqn:Hns; simpl;
        [|discriminate].
      intros [= <-]. rewrite lookup_fmap.
      destruct (ns0 !! i) as [n0|] eqn:Hn0; simpl; [|discriminate].
      intros [= <-].
      exact (proj1 (RP_core _ _ (Hf n0) (Hall _ _ _ _ Hns Hn0))).
    + rewrite lookup_alter_ne by assumption. apply Hall.
  - intros ty i m Hm. destruct (Hrel _ _ _ Hm) as (n' & Hn' & HR).
    destruct (_job_nodes ctx !! ty) as [ns0|] eqn:Hns; simpl in Hn';
      [|discriminate].
    simpl. destruct (decide (node_type = ty)) as [<-|Hne].
    + rewrite lookup_alter_eq, Hns. simpl. rewrite lookup_fmap, Hn'.
      exists (f n'). split; [reflexivity|]. apply (R_trans _ _ _ HR).
      exact (proj2 (RP_core _ _ (Hf n') (Hall _ _ _ _ Hns Hn'))).
    + rewrite lookup_alter_ne by assumption. rewrite Hns. simpl.
      exists n'. split; assumption.
Qed.

Lemma fits_values js0 js (f : Node.t -> Node.t) nodes :
  store_ok R P js0 js ->
  (∀ n, n ∈ nodes -> n ∈ job_nodes_values js) ->
  (∀ n, same_core n (f n)) ->
  Forall (fits R P js0) (f <$> nodes).
Proof using R_trans R_key RP_core.
  intros Hok Hin Hf. apply Forall_forall. intros n Hn.
  apply list_elem_of_fmap in Hn as (n0 & -> & Hn0).
  apply Hin, elem_of_job_nodes_values in Hn0 as (ty & ns & i & Hns & Hn0).
  assert (Hlook : js !! ty ≫= (.!! i) = Some n0) by (rewrite Hns; exact Hn0).
  destruct (fits_stored _ _ _ _ _ Hok Hlook) as [Hfit _].
  exact (fits_core _ _ _ Hfit (Hf n0)).
Qed.

Lemma relaunch_node_store_ok js0 node self :
  store_ok R P js0 (get_job_nodes self) ->
  fits R P js0 node ->
  store_ok R P js0 (get_job_nodes (_relaunch_node node self).2).
Proof using R_refl R_trans R_key RP_core manager_ok.
  intros Hok Hfit.
  unfold _relaunch_node, bind, get_self, ret, call, modify, update_job_node.
  lazymatch goal with
  | |- context [relaunch_node ?m ?n ?b ?js] =>
      destruct (relaunch_node m n b js) as [[plan node'] job_nodes'] eqn:Hrel
  end.
  destruct Hok as (Hwk & Hall & Hrelated).
  destruct (manager_ok _ _ _ _ _ _ _ Hrel Hwk Hall (proj1 Hfit))
    as (Hwk' & Hall' & Hrelated' & HP' & HR').
  assert (Hok' : store_ok R P js0 job_nodes').
  { split; [exact Hwk'|]. split; [exact Hall'|].
    exact (store_related_trans _ _ _ Hrelated Hrelated'). }
  assert (Hfit' : fits R P js0 (Node.set_relaunchable false node')).
  { apply (fits_core _ node'); [|repeat split].
    exact (fits_step _ _ _ Hfit HR' HP'). }
  destruct (launch_nodes plan); cbn -[update_job_node_ctx];
    unfold get_job_nodes; cbn -[update_job_node_ctx];
    apply (store_ok_update_job_node js0 _
             {| _job_nodes := job_nodes'; _job_stage := _ |});
    assumption.
Qed.

Lemma process_event_store_ok js0 k8s_client event self :
  allowed (op_process_event k8s_client event) self ->
  store_ok R P js0 (get_job_nodes self) ->
  store_ok R P js0 (get_job_nodes (_process_event k8s_client event self).2).
Proof using R_refl R_trans R_key RP_core update_info_ok transition_ok manager_ok.
  intros Hallowed Hok.
  unfold _process_event, bind at 1, get_self.
  unfold bind at 1.
  assert (Hfilter : ∃ es skip,
    (if (bool_decide (event_type event = NodeEventType.DELETED)
         || bool_decide (Node.status (node event) = NodeStatus.DELETED))
        && negb (is_positive_exit (Node.exit_reason (node event)))
     then
       call (list_namespaced_pod (_get_pod_unique_labels self (node event)));;
       ret (running_pod_exists
              (k8s_client (_get_pod_unique_labels self (node event))))
     else ret false) self
    = (Returns skip, set_effects (effects self ++ es) self)).
  { destruct (_ && _).
    - eexists [_], _. reflexivity.
    - exists [], false. rewrite set_effects_id. reflexivity. }
  destruct Hfilter as (es & skip & ->).
  set (self1 := set_effects (effects self ++ es) self).
  assert (Hok1 : store_ok R P js0 (get_job_nodes self1)) by exact Hok.
  destruct skip; [exact Hok1|].
  destruct (get_job_nodes self !! Node.type (node event)) as [nodes|] eqn:Hnodes;
    [|exact Hok1].
  destruct (nodes !! Node.id (node event)) as [cur|] eqn:Hcur; [|exact Hok1].
  assert (Hlook : job_node (_job_context self) (Node.type (node event))
                    (Node.id (node event)) = Some cur).
  { unfold job_node. unfold get_job_nodes in Hnodes. rewrite Hnodes.
    exact Hcur. }
  destruct (fits_stored _ _ _ _ _ Hok Hlook) as (Hfit & Hty & Hid).
  fold (observed event cur). set (cur' := observed event cur).
  destruct (update_info_ok _ _ _ _ Hallowed Hlook Hty Hid (proj1 Hfit))
    as [HP' HR'].
  assert (Hfit' : fits R P js0 cur') by exact (fits_step _ _ _ Hfit HR' HP').
  unfold bind at 1. unfold update_job_node at 1, modify at 1.
  set (self2 := set_job_context _ self1).
  assert (Hok2 : store_ok R P js0 (get_job_nodes self2)).
  { apply (store_ok_update_job_node js0 cur' (_job_context self1));
      assumption. }
  unfold bind at 1.
  assert (Hexit : ∃ o s,
    (if bool_decide (event_type event = NodeEventType.EXIT)
     then close_job;; _report_event ACTION_STOP ""
     else ret tt) self2 = (o, s)
    ∧ get_job_nodes s = get_job_nodes self2
    ∧ ∀ e, o ≠ Raises e).
  { case_bool_decide.
    - eexists _, _. split; [reflexivity|]. split; [reflexivity|].
      intros e. discriminate.
    - eexists _, _. split; [reflexivity|]. split; [reflexivity|].
      intros e. discriminate. }
  destruct Hexit as (o & self3 & -> & Hstore3 & Hnoraise).
  assert (Hok3 : store_ok R P js0 (get_job_nodes self3))
    by (rewrite Hstore3; exact Hok2).
  destruct o as [[]|e|code]; [|exact Hok3|exact Hok3].
  destruct (get_node_state_flow (Node.status cur') (event_type event)
              (Node.status (node event))) as [flow|] eqn:Hflow; [|exact Hok3].
  case_bool_decide as Hfrom; [exact Hok3|].
  destruct (transition_ok _ _ _ _ _ Hallowed Hlook Hty Hid HP' Hflow Hfrom)
    as (HPf & HRf & Hdecide).
  set (failed := Node.set_exit_reason _ (Node.update_status _ cur')) in *.
  assert (Hfitf : fits R P js0 failed) by exact (fits_step _ _ _ Hfit' HRf HPf).
  unfold bind at 1. unfold update_job_node at 1, modify at 1.
  set (self4 := set_job_context _ self3).
  assert (Hok4 : store_ok R P js0 (get_job_nodes self4)).
  { apply (store_ok_update_job_node js0 failed (_job_context self3));
      assumption. }
  unfold bind at 1.
  destruct (process_node_events_run flow failed self4) as (es4 & -> & _).
  set (self5 := set_effects _ self4).
  unfold bind at 1.
  destruct (should_relaunch_spec failed flow self5)
    as (b & node' & es5 & Hdec & _).
  rewrite Hdec.
  destruct (Hdecide _ _ _ _ Hdec) as [HPn HRn].
  assert (Hfitn : fits R P js0 node') by exact (fits_step _ _ _ Hfitf HRn HPn).
  set (self6 := set_effects _ self5).
  assert (Hok6 : store_ok R P js0 (get_job_nodes self6)) by exact Hok4.
  unfold bind at 1.
  assert (Hpending : ∃ s,
    (if b && _wait_pending_relaunch self
     then modify (fun self =>
            set_pending_relaunch_count (_pending_relaunch_count self + 1) self)
     else ret tt) self6 = (Returns tt, s)
    ∧ get_job_nodes s = get_job_nodes self6).
  { destruct (b && _wait_pending_relaunch self); eexists;
      split; reflexivity. }
  destruct Hpending as (self7 & -> & Hstore7).
  unfold bind at 1, call at 1, modify at 1.
  set (self8 := set_effects _ self7).
  assert (Hok8 : store_ok R P js0 (get_job_nodes self8))
    by (change (get_job_nodes self8) with (get_job_nodes self7);
        rewrite Hstore7; exact Hok6).
  destruct b; [|exact Hok8].
  apply relaunch_node_store_ok; assumption.
Qed.

Lemma run_operation_store_ok js0 op self :
  allowed op self ->
  store_ok R P js0 (get_job_nodes self) ->
  store_ok R P js0 (get_job_nodes (run_operation op self).2).
Proof using R_refl R_trans R_key RP_core update_info_ok transition_ok
  service_addr_ok manager_ok.
  intros Hallowed Hok. destruct op; cbn [run_operation].
  - pose proof (process_event_store_ok js0 k8s_client event self Hallowed Hok)
      as H.
    unfold _process_event_safely.
    destruct (_process_event k8s_client event self) as [[[]| |] s]; exact H.
  - unfold process_reported_node_event, bind, get_self, ret, update_job_node,
      update_job_stage, modify.
    destruct (job_node (_job_context self) (Node.type (node node_event))
                (Node.id (node node_event))) as [target|] eqn:Htarget.
    + destruct (fits_stored _ _ _ _ _ Hok Htarget) as (Hfit & _ & _).
      assert (Hok' : store_ok R P js0
                (_job_nodes
                   (update_job_node_ctx
                      (Node.update_reported_status (event_type node_event)
                         target) (_job_context self)))).
      { apply store_ok_update_job_node; [exact Hok|].
        apply (fits_core _ target); [exact Hfit | repeat split]. }
      case_bool_decide; exact Hok'.
    + case_bool_decide; exact Hok.
  - unfold update_node_service_addr, bind, get_self, ret, update_job_node,
      modify.
    destruct (job_node (_job_context self) node_type node_id) as [n|] eqn:Hn;
      [|exact Hok].
    destruct (fits_stored _ _ _ _ _ Hok Hn) as (Hfit & Hty & Hid).
    destruct (service_addr_ok _ _ _ _ _ Hallowed Hn Hty Hid (proj1 Hfit))
      as [HP' HR'].
    apply (store_ok_update_job_node js0 _ (_job_context self)); [exact Hok|].
    exact (fits_step _ _ _ Hfit HR' HP').
  - unfold clear_exited_nodes, bind, get_self, ret, modify, call.
    destruct (_remove_exited_node self); cbn [negb]; [|exact Hok].
    set (is_exited := fun n => negb (Node.is_released n) && exited n).
    assert (Hstore : store_ok R P js0
              (_job_nodes
                 (update_job_nodes
                    (Node.set_is_released true
                       <$> List.filter is_exited
                             (job_nodes_values (get_job_nodes self)))
                    (mutate_job_nodes
                       (fun n => if is_exited n
                                 then Node.set_is_released true n else n)
                       (_job_context self))))).
    { apply store_ok_update_job_nodes.
      - apply (fits_values js0 (get_job_nodes self)); [exact Hok| |].
        + intros n Hn. apply list_elem_of_In, filter_In in Hn as [Hn _].
          apply list_elem_of_In. exact Hn.
        + intros n. repeat split.
      - apply store_ok_mutate; [|exact Hok].
        intros n. destruct (is_exited n); repeat split. }
    case_bool_decide; exact Hstore.
  - unfold clear_all_nodes, bind, get_self, ret, modify, call.
    cbn -[mutate_job_nodes]. unfold get_job_nodes.
    cbn -[mutate_job_nodes].
    apply store_ok_mutate; [|exact Hok]. intros n. repeat split.
  - unfold stop, bind, get_self, ret, modify, raise.
    destruct (_stopped self); cbn [negb]; [exact Hok|].
    cbn -[update_job_nodes mutate_job_nodes mutate_job_nodes_of].
    unfold get_job_nodes.
    cbn -[update_job_nodes mutate_job_nodes mutate_job_nodes_of].
    set (ctx1 := update_job_nodes _ (mutate_job_nodes stop_node _)).
    assert (Hok1 : store_ok R P js0 (_job_nodes ctx1)).
    { apply store_ok_update_job_nodes.
      - apply (fits_values js0 (get_job_nodes self)); [exact Hok|auto|].
        intros n. repeat split.
      - apply store_ok_mutate; [|exact Hok]. intros n. repeat split. }
    destruct (_job_nodes ctx1 !! NodeType.WORKER) as [workers|] eqn:Hworkers;
      cbn -[update_job_nodes mutate_job_nodes mutate_job_nodes_of];
      [|exact Hok1].
    apply store_ok_update_job_nodes.
    + apply (fits_values js0 (_job_nodes ctx1)); [exact Hok1| |].
      * intros n Hn. apply elem_of_job_nodes_values.
        apply list_elem_of_fmap in Hn as ([i n0] & -> & Hn).
        apply elem_of_map_to_list in Hn. eauto.
      * intros n. repeat split.
    + apply store_ok_mutate_of; [|exact Hok1]. intros n. repeat split.
Qed.

(** The relation and the predicate survive every allowed history. *)
Lemma run_operations_store_ok js0 ops self :
  allowed_history allowed ops self ->
  store_ok R P js0 (get_job_nodes self) ->
  store_ok R P js0 (get_job_nodes (run_operations ops self)).
Proof using R_refl R_trans R_key RP_core update_info_ok transition_ok
  service_addr_ok manager_ok.
  revert self. induction ops as [|op ops IH]; intros self Hops Hok;
    [exact Hok|].
  destruct Hops as [Hop Hops].
  pose proof (run_operation_store_ok js0 op self Hop Hok) as Hok'.
  cbn [run_operations].
  destruct (run_operation op self) as [[[]| |] self'];
    cbn [snd] in Hok'; try exact Hok'; apply IH; assumption.
Qed.

End StoreInvariant.
(** *** The relaunch budget over a history *)




(** *** Final statuses over a history *)

Lemma allowed_history_Forall (allowed : Operation -> Prop) ops self :
  Forall allowed ops -> allowed_history (fun op _ => allowed op) ops self.
Proof using Type.
  intros Hops. revert self.
  induction Hops as [|op ops Hop _ IH]; intros self; [exact I|].
  split; [exact Hop|].
  destruct (run_operation op self) as [[[]| |] self']; try exact I; apply IH.
Qed.

Lemma keeps_status_trans node_type node_id status n1 n2 n3 :
  keeps_status node_type node_id status n1 n2 ->
  keeps_status node_type node_id status n2 n3 ->
  keeps_status node_type node_id status n1 n3.
Proof using Type.
  intros (Ht1 & Hi1 & Hs1) (Ht2 & Hi2 & Hs2).
  split; [congruence|]. split; [congruence|].
  intros Hty Hid Hst. apply Hs2; [congruence | congruence | auto].
Qed.

(** C6, as the code has it. On a well-keyed store, a node whose status is
    [SUCCEEDED] keeps that status over every history of processed events,
    reported node events, clearing calls, [stop] and service-address
    updates of other nodes: [_process_event] rejects a flow that leaves
    [SUCCEEDED] before it writes the status, and no other operation but
    [update_node_service_addr] assigns a status. The same holds of a
    status that the state-flow table has no transition out of, so a node
    records at most one terminal status when the table has none out of
    failed and deleted. But the pipeline does not guard failed and
    deleted itself: an event whose flow leaves such a status (and is not
    relaunch-eligible) stores the status of the event, a further terminal
    status when that is failed or deleted. The table, [update_info] and the
    node managers are not in the manager's file: the flows are taken to
    start at the old status, [update_info] to leave type, id and status
    alone, and the node managers to leave every stored status alone. *)
Theorem succeeded_is_final :
  (∀ node_type node_id ops self n,
     (∀ old_status event_type new_status flow,
        get_node_state_flow old_status event_type new_status = Some flow ->
        from_status flow = old_status) ->
     update_info_keeps_status -> relaunch_node_keeps_status ->
     well_keyed (get_job_nodes self) ->
     job_node (_job_context self) node_type node_id = Some n ->
     final_status (Node.status n) ->
     Forall (not_service_addr_of node_type node_id) ops ->
     ∃ n',
       job_node (_job_context (run_operations ops self)) node_type node_id
       = Some n'
       ∧ Node.status n' = Node.status n)
  ∧ (∀ k8s_client event self cur flow,
       let pod_labels := _get_pod_unique_labels self (node event) in
       let cur' := observed event cur in
       event_type event ≠ NodeEventType.EXIT ->
       (deletion_filter_applies event = true ->
        running_pod_exists (k8s_client pod_labels) = false) ->
       job_node (_job_context self) (Node.type (node event))
         (Node.id (node event)) = Some cur ->
       get_node_state_flow (Node.status cur') (event_type event)
         (Node.status (node event)) = Some flow ->
       from_status flow ≠ NodeStatus.SUCCEEDED ->
       should_relaunch flow = false ->
       ∃ self' n',
         _process_event k8s_client event self = (Returns tt, self')
         ∧ job_node (_job_context self') (Node.type cur') (Node.id cur')
           = Some n'
         ∧ Node.status n' = Node.status (node event)).
Proof using Type.
  split.
  - intros node_type node_id ops self n Hlaw Hinfo Hmanager Hwk Hn Hfinal Hops.
    set (status := Node.status n) in *.
    assert (Hok : store_ok (keeps_status node_type node_id status)
                    (fun _ => True) (get_job_nodes self)
                    (get_job_nodes (run_operations ops self))).
    { apply (run_operations_store_ok (keeps_status node_type node_id status)
               (fun _ => True)
               (fun op _ => not_service_addr_of node_type node_id op)).
      - intros m. repeat split. auto.
      - apply keeps_status_trans.
      - intros m m' (Hty & Hid & _). auto.
      - intros m m' (Hty & Hid & Hst & _) _. split; [exact I|].
        split; [exact Hty|]. split; [exact Hid|]. intros _ _ <-. exact Hst.
      - intros k8s_client event s cur _ _ _ _ _. split; [exact I|].
        destruct (Hinfo (Node.name (node event))
                    (Node.start_time (node event))
                    (Node.create_time (node event))
                    (Node.host_name (node event)) (Node.host_ip (node event))
                    (Node.restart_training (node event))
                    (Node.relaunch_count (node event))
                    (Node.is_released (node event)) cur)
          as (Hty & Hid & Hst).
        fold (observed event cur) in Hty, Hid, Hst.
        split; [exact Hty|]. split; [exact Hid|]. intros _ _ <-. exact Hst.
      - intros k8s_client event s cur flow _ _ _ _ _ Hflow Hfrom failed.
        split; [exact I|]. split.
        + split; [reflexivity|]. split; [reflexivity|].
          intros _ _ Hst. exfalso. destruct Hfinal as [Hs | Hnone].
          * apply Hfrom. rewrite (Hlaw _ _ _ _ Hflow), Hst. exact Hs.
          * rewrite Hst, Hnone in Hflow. discriminate.
        + intros s0 b node' s' Hrun. split; [exact I|].
          destruct (should_relaunch_spec failed flow s0)
            as (b0 & node0 & es & Heq & _ & _ & _ & Hty & Hid & Hst & _).
          rewrite Heq in Hrun. injection Hrun as <- <- _.
          split; [exact Hty|]. split; [exact Hid|]. intros _ _ <-. exact Hst.
      - intros ty i service_addr s m Hne _ Hty Hid _ m'. split; [exact I|].
        split; [reflexivity|]. split; [reflexivity|].
        intros Hty' Hid' _. exfalso. apply Hne. congruence.
      - intros manager node remove_exited_node job_nodes plan node' job_nodes'
          Hrel Hwk0 _ _.
        destruct (Hmanager _ _ _ _ _ _ _ Hrel Hwk0)
          as (Hwk' & Hty & Hid & Hst & Hstored).
        split; [exact Hwk'|]. split; [intros ? ? ? ? _ _; exact I|].
        split; [|split; [exact I|]].
        + intros ty i m Hm. destruct (Hstored ty i m Hm) as (m' & Hm' & Hst').
          exists m'. split; [exact Hm'|].
          assert (Hkey : ∀ js x, well_keyed js ->
                    js !! ty ≫= (.!! i) = Some x ->
                    Node.type x = ty ∧ Node.id x = i).
          { intros js x Hjs Hx.
            destruct (js !! ty) as [ns|] eqn:Hns; simpl in Hx; [|discriminate].
            exact (Hjs _ _ _ _ Hns Hx). }
          destruct (Hkey _ _ Hwk0 Hm) as [<- <-].
          destruct (Hkey _ _ Hwk' Hm') as [Hty' Hid'].
          split; [exact Hty'|]. split; [exact Hid'|].
          intros _ _ <-. exact Hst'.
        + split; [exact Hty|]. split; [exact Hid|]. intros _ _ <-. exact Hst.
      - apply allowed_history_Forall. exact Hops.
      - split; [exact Hwk|]. split; [intros ? ? ? ? _ _; exact I|].
        intros ty i m Hm. exists m. split; [exact Hm|].
        split; [reflexivity|]. split; [reflexivity|]. auto. }
    destruct Hok as (_ & _ & Hrel).
    destruct (Hrel node_type node_id n Hn) as (n' & Hn' & _ & _ & Hst).
    exists n'. split; [exact Hn'|].
    apply job_node_Some in Hn as (ns & Hns & Hn).
    destruct (Hwk _ _ _ _ Hns Hn) as [Hty Hid]. apply Hst; auto.
  - intros k8s_client event self cur flow pod_labels cur' Hexit Hpods Hcur
      Hflow Hfrom Hrel.
    destruct (process_event_transition_run k8s_client event self cur flow
                Hexit Hpods Hcur Hflow Hfrom Hrel)
      as (self' & Hrun & _ & Hstored & _).
    eexists self', _. split; [exact Hrun|]. split; [exact Hstored|].
    reflexivity.
Qed.
End Manager.

(** ** The methods on the example job *)

Notation example_should_relaunch :=
  (_should_relaunch example_MAX_MEMORY false example_oom_resource).
Notation example_process_event :=
  (_process_event example_MAX_MEMORY false example_oom_resource
     example_state_flow example_update_info example_relaunch_node
     example_get_ps_addrs).
Notation example_run_operations :=
  (run_operations example_MAX_MEMORY false example_oom_resource
     example_state_flow example_update_info example_relaunch_node
     example_get_ps_addrs example_exited example_get_worker_eval_time).
Notation example_get_dead_node_event :=
  (_get_dead_node_event example_fromtimestamp_error).
Notation example_stop := (stop example_get_worker_eval_time).

Lemma example_state_flow_from old_status event_type new_status flow :
  example_state_flow old_status event_type new_status = Some flow ->
  from_status flow = old_status.
Proof.
  destruct old_status, new_status; simpl; intros [= <-]; reflexivity.
Defined.


(** ** The example collaborators do their part *)


Lemma example_update_info_keeps_status :
  update_info_keeps_status example_update_info.
Proof. repeat intro. repeat split. Qed.

(** The id of the replacement is not in use. *)
Lemma example_new_id_fresh (nodes : gmap Z Node.t) :
  nodes !! (1 + map_fold (fun i _ acc => Z.max i acc) (-1) nodes) = None.
Proof.
  assert (Hbound : ∀ i, is_Some (nodes !! i) ->
            i <= map_fold (fun i (_ : Node.t) acc => Z.max i acc) (-1) nodes).
  { apply (map_fold_weak_ind
             (fun r (m : gmap Z Node.t) => ∀ i, is_Some (m !! i) -> i <= r)).
    - intros i [x Hx]. rewrite lookup_empty in Hx. discriminate.
    - intros i x m r _ IH j Hj.
      destruct (decide (i = j)) as [->|Hne]; [lia|].
      rewrite lookup_insert_ne in Hj by assumption.
      specialize (IH j Hj). lia. }
  destruct (nodes !! _) as [x|] eqn:Hx; [|reflexivity].
  specialize (Hbound _ (ex_intro _ x Hx)). lia.
Qed.

Lemma example_relaunch_node_well_keyed manager node remove_exited_node
    job_nodes :
  well_keyed job_nodes ->
  well_keyed
    (example_relaunch_node manager node remove_exited_node job_nodes).2.
Proof.
  intros Hwk ty nodes i n. unfold example_relaunch_node. simpl.
  destruct (decide (Node.type node = ty)) as [<-|Hne].
  - rewrite lookup_insert_eq. intros [= <-].
    rewrite lookup_insert_Some. intros [[<- <-] | [_ Hn]].
    + split; reflexivity.
    + destruct (job_nodes !! Node.type node) as [ns|] eqn:Hns; simpl in Hn.
      * exact (Hwk _ _ _ _ Hns Hn).
      * rewrite lookup_empty in Hn. discriminate.
  - rewrite lookup_insert_ne by assumption. apply Hwk.
Qed.

(** What is stored stays stored, as it is. *)
Lemma example_relaunch_node_stored manager node remove_exited_node job_nodes
    node_type node_id n :
  job_nodes !! node_type ≫= (.!! node_id) = Some n ->
  (example_relaunch_node manager node remove_exited_node job_nodes).2
    !! node_type ≫= (.!! node_id) = Some n.
Proof.
  intros Hn. unfold example_relaunch_node. simpl.
  destruct (decide (Node.type node = node_type)) as [<-|Hne].
  - rewrite lookup_insert_eq. simpl.
    destruct (job_nodes !! Node.type node) as [ns|] eqn:Hns; simpl in *;
      [|discriminate].
    rewrite lookup_insert_ne; [exact Hn|].
    intros <-. rewrite example_new_id_fresh in Hn. discriminate.
  - rewrite lookup_insert_ne by assumption. exact Hn.
Qed.


Lemma example_relaunch_node_keeps_status :
  relaunch_node_keeps_status example_relaunch_node.
Proof.
  intros manager node remove_exited_node job_nodes plan node' job_nodes' Hrel
    Hwk.
  pose proof (example_relaunch_node_well_keyed manager node remove_exited_node
                job_nodes Hwk) as Hwk'.
  pose proof (example_relaunch_node_stored manager node remove_exited_node
                job_nodes) as Hstored.
  rewrite Hrel in Hwk', Hstored. simpl in Hwk', Hstored.
  unfold example_relaunch_node in Hrel. injection Hrel as _ <- _.
  split; [exact Hwk'|]. repeat split.
  intros ty i n Hn. exists n. split; [exact (Hstored ty i n Hn) | reflexivity].
Qed.

Lemma example_manager_well_keyed (workers : list Node.t) :
  Forall (fun n => Node.type n = NodeType.WORKER) workers ->
  well_keyed (get_job_nodes (example_manager workers)).
Proof.
  intros Hworkers ty nodes i n Hns Hn.
  unfold get_job_nodes, example_manager, example_job_nodes in Hns.
  simpl in Hns. apply lookup_singleton_Some in Hns as [<- <-].
  apply elem_of_list_to_map_2 in Hn.
  apply list_elem_of_fmap in Hn as (m & [= -> ->] & Hm).
  rewrite Forall_forall in Hworkers. split; [apply Hworkers, Hm | reflexivity].
Qed.


(** ** The claims on the example job *)

(** C1 on worker 4 after an OOM exit: 4096 MiB declared, no relaunch yet. *)
Lemma should_relaunch_oom_allows_witness :
  ∃ node',
    example_should_relaunch oom_worker running_to_failed
      (example_manager [oom_worker])
    = (Returns (true, node'),
       set_effects
         [adjust_oom_resource (Node.set_is_recovered_oom true oom_worker)]
         (example_manager [oom_worker]))
    ∧ Node.is_recovered_oom node' = true
    ∧ Node.relaunch_count node' = Node.relaunch_count oom_worker + 1
    ∧ Node.config_resource node'
      = example_oom_resource (Node.set_is_recovered_oom true oom_worker).
Proof.
  apply (should_relaunch_oom_allows example_MAX_MEMORY false
           example_oom_resource oom_worker running_to_failed
           (example_manager [oom_worker]));
    try reflexivity; try discriminate.
Defined.



(** C3 on scenario S2: worker 1 last sent a heartbeat at 1100; at 1710 it
    is reported, at 1700 it is not yet, and a worker whose heartbeat is not
    newer than its start never is. *)
Example get_dead_node_event_example :
  (example_get_dead_node_event 1710 600 (example_manager [silent_worker])).1
  = Returns [no_heartbeat_event silent_worker]
  ∧ (example_get_dead_node_event 1700 600 (example_manager [silent_worker])).1
    = Returns []
  ∧ (example_get_dead_node_event 5000 600
       (example_manager [Node.set_heartbeat_time 1010 silent_worker])).1
    = Returns [].
Proof. repeat split; vm_compute; reflexivity. Qed.


(** C4 on scenario S5: the store still has worker 0 running, a [DELETED]
    event arrives for it, and the cluster runs a pod under its labels. *)
Lemma process_event_deletion_filter_witness :
  example_process_event running_pod deleted_event
    (example_manager [example_worker 0])
  = (Returns tt,
     set_effects
       [list_namespaced_pod
          {| JOB_KEY := "train"; REPLICA_TYPE_KEY := NodeType.WORKER;
             RANK_INDEX_KEY := 0; REPLICA_INDEX_KEY := 0 |}]
       (example_manager [example_worker 0]))
  ∧ ∃ rest,
      effects
        (example_process_event no_pods deleted_event
           (example_manager [example_worker 0])).2
      = list_namespaced_pod
          {| JOB_KEY := "train"; REPLICA_TYPE_KEY := NodeType.WORKER;
             RANK_INDEX_KEY := 0; REPLICA_INDEX_KEY := 0 |} :: rest
      ∧ pod_queries rest = [].
Proof.
  split.
  - destruct (process_event_deletion_filter example_MAX_MEMORY false
                example_oom_resource example_state_flow example_update_info
                example_relaunch_node example_get_ps_addrs running_pod
                deleted_event (example_manager [example_worker 0]))
      as (_ & Hfilter & _).
    destruct Hfilter as (_ & Hdrop & _); [left; reflexivity | reflexivity|].
    apply Hdrop.
    eexists _, _. split; [reflexivity|]. split; [left|split; reflexivity].
  - destruct (process_event_deletion_filter example_MAX_MEMORY false
                example_oom_resource example_state_flow example_update_info
                example_relaunch_node example_get_ps_addrs no_pods
                deleted_event (example_manager [example_worker 0]))
      as (_ & Hfilter & _).
    destruct Hfilter as (Hquery & _); [left; reflexivity | reflexivity|].
    exact Hquery.
Defined.

(** C5 fails as stated: worker 0 has succeeded and a [MODIFIED] event
    reports it running under a new name and host. The flow out of
    [SUCCEEDED] is none, yet the store changes when [update_info] stores
    what it is given: name, host and address of the event are in the
    store. *)
Lemma store_changes_without_flow :
  example_state_flow NodeStatus.SUCCEEDED NodeEventType.MODIFIED
    NodeStatus.RUNNING = None
  ∧ ∃ self',
      example_process_event no_pods renamed_event
        (example_manager [succeeded_worker])
      = (Returns tt, self')
      ∧ Node.name
          <$> job_node (_job_context (example_manager [succeeded_worker]))
                NodeType.WORKER 0 = Some "worker"
      ∧ Node.name <$> job_node (_job_context self') NodeType.WORKER 0
        = Some "worker-renamed"
      ∧ Node.host_ip <$> job_node (_job_context self') NodeType.WORKER 0
        = Some "10.0.0.2"
      ∧ Node.status <$> job_node (_job_context self') NodeType.WORKER 0
        = Some NodeStatus.SUCCEEDED
      ∧ get_job_nodes self'
        ≠ get_job_nodes (example_manager [succeeded_worker]).
Proof.
  split; [reflexivity|].
  exists (example_process_event no_pods renamed_event
            (example_manager [succeeded_worker])).2.
  split; [vm_compute; reflexivity|].
  split; [reflexivity|]. split; [vm_compute; reflexivity|].
  split; [vm_compute; reflexivity|]. split; [vm_compute; reflexivity|].
  intros Heq.
  apply (f_equal (fun nodes =>
           Node.name <$> (nodes !! NodeType.WORKER ≫= (.!! 0)))) in Heq.
  vm_compute in Heq. discriminate.
Qed.

(** The amended C5 on the same event: the store holds what
    [update_info] made of worker 0, and nothing else has happened. *)
Lemma process_event_without_flow_witness :
  example_process_event no_pods renamed_event
    (example_manager [succeeded_worker])
  = (Returns tt,
     set_job_context
       (update_job_node_ctx
          (example_update_info "worker-renamed" (Some 1000) (Some 1010)
             "host-b" "10.0.0.2" false 0 false succeeded_worker)
          (_job_context (example_manager [succeeded_worker])))
       (example_manager [succeeded_worker])).
Proof.
  pose proof (process_event_without_flow example_MAX_MEMORY false
                example_oom_resource example_state_flow example_update_info
                example_relaunch_node example_get_ps_addrs no_pods
                renamed_event (example_manager [succeeded_worker])
                succeeded_worker) as H.
  cbv zeta in H. destruct H as (Hrun & _).
  - reflexivity.
  - discriminate.
  - left. reflexivity.
  - rewrite Hrun. reflexivity.
Defined.

(** C6 fails as stated: worker 0 has succeeded, its agent reports a service
    address, and the status is [RUNNING] again; a failure event then records
    a second terminal status. *)
Lemma service_addr_update_leaves_succeeded :
  Node.status
    <$> job_node (_job_context (example_manager [succeeded_worker]))
          NodeType.WORKER 0 = Some NodeStatus.SUCCEEDED
  ∧ ∃ self',
      update_node_service_addr NodeType.WORKER 0 "worker-0.train.svc:3333"
        (example_manager [succeeded_worker])
      = (Returns tt, self')
      ∧ Node.status <$> job_node (_job_context self') NodeType.WORKER 0
        = Some NodeStatus.RUNNING
      ∧ Node.status
          <$> job_node
                (_job_context
                   (example_run_operations
                      [op_update_node_service_addr NodeType.WORKER 0
                         "worker-0.train.svc:3333";
                       op_process_event no_pods failed_event]
                      (example_manager [succeeded_worker])))
                NodeType.WORKER 0
        = Some NodeStatus.FAILED.
Proof.
  split; [reflexivity|].
  exists (update_node_service_addr NodeType.WORKER 0 "worker-0.train.svc:3333"
            (example_manager [succeeded_worker])).2.
  split; [vm_compute; reflexivity|].
  split; vm_compute; reflexivity.
Qed.

(** The amended C6. Worker 0 has succeeded: renamed, reported, failed and
    deleted by later events, while worker 1 gets a service address and the
    exited nodes are cleared, it stays succeeded. Worker 3 has failed: with
    a table that has the flow [failed -> deleted], the deletion of its pod
    makes it deleted. *)
Lemma succeeded_is_final_witness :
  (∃ n,
     job_node
       (_job_context
          (example_run_operations final_history
             (example_manager [succeeded_worker; example_worker 1])))
       NodeType.WORKER 0 = Some n
     ∧ Node.status n = NodeStatus.SUCCEEDED)
  ∧ ∃ self' n,
      _process_event example_MAX_MEMORY false example_oom_resource
        cleanup_state_flow example_update_info example_relaunch_node
        example_get_ps_addrs no_pods cleanup_event
        (example_manager [failed_worker])
      = (Returns tt, self')
      ∧ job_node (_job_context self') NodeType.WORKER 3 = Some n
      ∧ Node.status n = NodeStatus.DELETED.
Proof.
  split.
  - destruct (succeeded_is_final example_MAX_MEMORY false example_oom_resource
                example_state_flow example_update_info example_relaunch_node
                example_get_ps_addrs example_exited
                example_get_worker_eval_time) as [Hfinal _].
    apply (Hfinal NodeType.WORKER 0 final_history
             (example_manager [succeeded_worker; example_worker 1])
             succeeded_worker).
    + exact example_state_flow_from.
    + exact example_update_info_keeps_status.
    + exact example_relaunch_node_keeps_status.
    + apply example_manager_well_keyed. repeat constructor.
    + reflexivity.
    + left. reflexivity.
    + repeat constructor. discriminate.
  - destruct (succeeded_is_final example_MAX_MEMORY false example_oom_resource
                cleanup_state_flow example_update_info example_relaunch_node
                example_get_ps_addrs example_exited
                example_get_worker_eval_time) as [_ Hleft].
    apply (Hleft no_pods cleanup_event (example_manager [failed_worker])
             failed_worker failed_to_deleted).
    + discriminate.
    + reflexivity.
    + reflexivity.
    + reflexivity.
    + discriminate.
    + reflexivity.
Defined.

(** C7 fails as stated, on scenario S1: worker 4 goes from running to
    failed with exit reason [KILLED]; the decision is yes, and processing
    the event passes a plan to the scaler that launches the replacement,
    worker 5. *)
Lemma killed_worker_is_relaunched :
  (example_should_relaunch (node killed_event) running_to_failed
     (example_manager [example_worker 4])).1
  = Returns
      (true,
       Node.set_relaunch_count 1 (node killed_event))
  ∧ example_state_flow NodeStatus.RUNNING NodeEventType.MODIFIED
      NodeStatus.FAILED = Some running_to_failed
  ∧ ∃ self' plan,
      example_process_event no_pods killed_event
        (example_manager [example_worker 4])
      = (Returns tt, self')
      ∧ scaled_plans (effects self') = [plan]
      ∧ Node.id <$> launch_nodes plan = [5].
Proof.
  split; [reflexivity|]. split; [reflexivity|].
  exists (example_process_event no_pods killed_event
            (example_manager [example_worker 4])).2.
  eexists. split; [vm_compute; reflexivity|].
  split; vm_compute; reflexivity.
Qed.

(** The amended C7 on the same event. *)
Lemma killed_exit_is_relaunched_witness :
  ∃ plan self',
    example_process_event no_pods killed_event
      (example_manager [example_worker 4])
    = (Returns tt, self')
    ∧ scaled_plans (effects self') = [plan].
Proof.
  destruct (killed_exit_is_relaunched example_MAX_MEMORY false
              example_oom_resource example_state_flow example_update_info
              example_relaunch_node example_get_ps_addrs) as [_ Hrelaunch].
  apply (Hrelaunch no_pods killed_event (example_manager [example_worker 4])
           (example_worker 4) running_to_failed);
    try reflexivity; try discriminate.
Defined.

(** C8 on an all-reduce job whose initial workers all failed the node
    check, while a parameter server is pending too. *)
Lemma should_early_stop_order_witness :
  (should_early_stop 2 0 (fun _ _ => true) (fun _ => [example_worker 7])
     (fun _ _ _ _ => None) (fun _ => true)
     (example_allreduce_manager [example_worker 0; example_worker 1])).1
  = Returns
      (true, Some JobExitReason.NODE_CHECK_FAILED, msg_node_check_failed).
Proof.
  destruct (should_early_stop_order 2 0 (fun _ _ => true)
              (fun _ => [example_worker 7]) (fun _ _ _ _ => None)
              (fun _ => true)
              (example_allreduce_manager [example_worker 0; example_worker 1]))
    as (result & self' & Hrun & Hfirst & _).
  rewrite Hrun. simpl. f_equal. apply Hfirst. split; reflexivity.
Defined.

(** The same detectors on a parameter-server job: the first and the fourth
    condition do not apply, the second does. *)
Example should_early_stop_example :
  (should_early_stop 2 0 (fun _ _ => true) (fun _ => [example_worker 7])
     (fun _ _ _ _ => None) (fun _ => true)
     (example_manager [example_worker 0; example_worker 1])).1
  = Returns
      (true, Some JobExitReason.PENDING_TIMEOUT, msg_oom_pending_timeout)
  ∧ (should_early_stop 2 0 (fun _ _ => true) (fun _ => [])
       (fun _ _ _ _ => None) (fun _ => true)
       (example_manager [example_worker 0; example_worker 1])).1
    = Returns (false, None, "").
Proof. split; reflexivity. Qed.




(** ** More of the methods on the example job *)

Notation example_process_event_safely :=
  (_process_event_safely example_MAX_MEMORY false example_oom_resource
     example_state_flow example_update_info example_relaunch_node
     example_get_ps_addrs).
Notation example_clear_exited_nodes := (clear_exited_nodes example_exited).

(** X3 on the failure of worker 4 seen by a job that only knows worker 0. *)
Lemma process_event_unknown_node_witness :
  ∃ queries,
    example_process_event_safely no_pods killed_event
      (example_manager [example_worker 0])
    = (Returns tt,
       set_effects (effects (example_manager [example_worker 0]) ++ queries)
         (example_manager [example_worker 0]))
    ∧ (queries = []
       ∨ queries
         = [list_namespaced_pod
              (_get_pod_unique_labels (example_manager [example_worker 0])
                 (node killed_event))]).
Proof.
  pose proof (process_event_unknown_node example_MAX_MEMORY false
                example_oom_resource example_state_flow example_update_info
                example_relaunch_node example_get_ps_addrs no_pods
                killed_event (example_manager [example_worker 0])) as H.
  cbv zeta in H. destruct H as (queries & Hrun & Hq & _).
  - vm_compute. reflexivity.
  - exists queries. split; assumption.
Defined.

(** X4 on an ["exit"] event about worker 0. *)
Lemma process_event_exit_witness :
  ∃ plan self',
    example_process_event no_pods exit_event
      (example_manager [example_worker 0])
    = (Exits 0, self')
    ∧ effects self' = [scaler_scale plan]
    ∧ launch_nodes plan = [] ∧ remove_nodes plan = [].
Proof.
  pose proof (process_event_exit example_MAX_MEMORY false
                example_oom_resource example_state_flow example_update_info
                example_relaunch_node example_get_ps_addrs example_exited
                example_get_worker_eval_time no_pods exit_event
                (example_manager [example_worker 0]) (example_worker 0)) as H.
  cbv zeta in H.
  destruct H as (plan & self' & Hrun & _ & Heff & _ & _ & Hl & Hr & _).
  - reflexivity.
  - discriminate.
  - vm_compute. reflexivity.
  - exists plan, self'. repeat split; assumption.
Defined.

(** X5 on worker 2 going from initial to pending, and on the deletion of
    the pod of the failed worker 3 under a table with the flow
    [failed -> deleted]: the cluster is asked once and no callback runs. *)
Lemma process_event_transition_witness :
  (∃ self',
     example_process_event no_pods pending_event
       (example_manager [initial_worker])
     = (Returns tt, self')
     ∧ job_node (_job_context self') NodeType.WORKER 2
       = Some (Node.set_status NodeStatus.PENDING (example_worker 2))
     ∧ _pending_relaunch_count self' = 0)
  ∧ ∃ self',
      _process_event example_MAX_MEMORY false example_oom_resource
        cleanup_state_flow example_update_info example_relaunch_node
        example_get_ps_addrs no_pods cleanup_event
        (example_manager [failed_worker])
      = (Returns tt, self')
      ∧ effects self'
        = [list_namespaced_pod
             (_get_pod_unique_labels (example_manager [failed_worker])
                (node cleanup_event));
           report_node_status_change
             (Node.set_status NodeStatus.DELETED (example_worker 3))
             NodeStatus.FAILED NodeStatus.DELETED].
Proof.
  split.
  - pose proof (process_event_transition example_MAX_MEMORY false
                  example_oom_resource example_state_flow example_update_info
                  example_relaunch_node example_get_ps_addrs no_pods
                  pending_event (example_manager [initial_worker])
                  initial_worker initial_to_pending) as H.
    cbv zeta in H.
    destruct H as (self' & Hrun & _ & Hnode & _ & _ & Hcount).
    + discriminate.
    + discriminate.
    + reflexivity.
    + reflexivity.
    + discriminate.
    + reflexivity.
    + exists self'. split; [exact Hrun|]. split; [exact Hnode | exact Hcount].
  - pose proof (process_event_transition example_MAX_MEMORY false
                  example_oom_resource cleanup_state_flow example_update_info
                  example_relaunch_node example_get_ps_addrs no_pods
                  cleanup_event (example_manager [failed_worker])
                  failed_worker failed_to_deleted) as H.
    cbv zeta in H.
    destruct H as (self' & Hrun & Heff & _).
    + discriminate.
    + reflexivity.
    + reflexivity.
    + reflexivity.
    + discriminate.
    + reflexivity.
    + exists self'. split; [exact Hrun|]. rewrite Heff. reflexivity.
Defined.

(** X7 on a job with two workers: the performance monitor is asked about
    each of them once, and a second [stop] changes nothing. *)
Lemma stop_twice_witness :
  ∃ workers self',
    example_stop (example_manager [example_worker 0; example_worker 1])
    = (Returns tt, self')
    ∧ _stopped self' = true
    ∧ effects self'
      = (fun node => perf_monitor_get_worker_eval_time (Node.id node))
          <$> workers
    ∧ Node.id <$> workers ≡ₚ [0; 1]
    ∧ example_stop self' = (Returns tt, self').
Proof.
  destruct (stop_twice example_get_worker_eval_time
              (example_manager [example_worker 0; example_worker 1]))
    as (workers & self' & Hrun & Hstopped & Heff & _ & Hids & Hagain).
  - vm_compute. eauto.
  - exists workers, self'. split; [exact Hrun|]. split; [exact Hstopped|].
    split; [exact Heff|]. split; [|exact Hagain].
    rewrite (Hids eq_refl
               (example_manager_well_keyed
                  [example_worker 0; example_worker 1]
                  ltac:(repeat constructor))
               _ eq_refl).
    vm_compute. apply perm_swap.
Defined.

(** X8 on a job whose store holds a parameter server and no worker group. *)
Lemma stop_without_worker_group_witness :
  ∃ self',
    example_stop example_ps_manager = (Raises KeyError, self')
    ∧ _stopped self' = false
    ∧ _enable_relaunch_node self' = false.
Proof.
  destruct (stop_without_worker_group example_get_worker_eval_time
              example_ps_manager)
    as (self' & Hrun & Hstopped & Hen & _).
  - reflexivity.
  - vm_compute. reflexivity.
  - intros ty ns i n Hns Hn.
    unfold get_job_nodes, example_ps_manager in Hns. simpl in Hns.
    apply lookup_singleton_Some in Hns as [<- <-].
    apply lookup_singleton_Some in Hn as [_ <-]. discriminate.
  - exists self'. repeat split; assumption.
Defined.

(** X9 on a job whose worker 3 has failed. *)
Lemma clear_exited_nodes_twice_witness :
  ∃ plans self',
    example_clear_exited_nodes (example_manager [failed_worker])
    = (Returns tt, self')
    ∧ effects self' = scaler_scale <$> plans
    ∧ (length plans <= 1)%nat
    ∧ example_clear_exited_nodes self' = (Returns tt, self').
Proof.
  destruct (clear_exited_nodes_twice example_exited
              (example_manager [failed_worker]))
    as (plans & self' & Hrun & Heff & Hlen & _ & _ & _ & Hagain).
  - intros n. reflexivity.
  - exists plans, self'. repeat split; assumption.
Defined.

(** X13 on worker 1: its heartbeat arrives at 1700, the monitor looks at
    1800. *)
Lemma fresh_heartbeat_not_dead_witness :
  ∃ action self' events self'',
    collect_node_heart_beat (fun _ => None) NodeType.WORKER 1 1700
      (example_manager [silent_worker])
    = (Returns action, self')
    ∧ example_get_dead_node_event 1800 600 self' = (Returns events, self'')
    ∧ no_heartbeat_event (Node.set_heartbeat_time 1700 silent_worker)
      ∉ events.
Proof.
  pose proof (fresh_heartbeat_not_dead example_fromtimestamp_error
                (fun _ => None) NodeType.WORKER 1 1700
                1800 (example_manager [silent_worker]) silent_worker) as H.
  cbv zeta in H.
  destruct H as (action & self' & outcome & self'' & Hrun & Hnode & _ & Hdead
                 & _ & Hreturns & Hnot).
  - vm_compute. reflexivity.
  - lia.
  - destruct Hreturns as [events ->].
    + injection Hrun as _ <-. vm_compute. reflexivity.
    + exists action, self', events, self''. repeat split; assumption.
Defined.

(** X15 on a job whose worker 0 is critical and running. *)
Lemma all_critical_node_completed_after_stop_witness :
  all_critical_node_completed (example_manager [critical_worker]) = false
  ∧ ∃ self',
      example_stop (example_manager [critical_worker]) = (Returns tt, self')
      ∧ all_critical_node_completed self' = true.
Proof.
  split; [vm_compute; reflexivity|].
  apply (all_critical_node_completed_after_stop example_get_worker_eval_time
           (example_manager [critical_worker])).
  - reflexivity.
  - vm_compute. eauto.
Defined.

(** X17 on a job with worker 0 and parameter server 0, both running. *)
Lemma remove_training_nodes_twice_witness :
  ∃ plan self',
    remove_training_nodes example_training_manager = (Returns tt, self')
    ∧ effects self' = [scaler_scale plan]
    ∧ launch_nodes plan = []
    ∧ remove_training_nodes self'
      = (Returns tt,
         set_effects (effects self' ++ [scaler_scale new_ScalePlan]) self').
Proof.
  destruct (remove_training_nodes_twice example_training_manager)
    as [_ Hrun].
  destruct Hrun as (plan & self' & Hrun & Heff & _ & Hl & _ & _ & _ & Hagain).
  - vm_compute. eauto.
  - vm_compute. eauto.
  - exists plan, self'. repeat split; assumption.
Defined.

(** X19 on worker 4 failing with an unknown error, no relaunch so far: the
    scaler launches what [relaunch_node] of the worker manager planned for
    the node with one relaunch counted. *)
Lemma process_event_relaunch_witness :
  ∃ plan self',
    example_process_event no_pods error_event
      (example_manager [example_worker 4])
    = (Returns tt, self')
    ∧ scaled_plans (effects self') = [plan]
    ∧ launch_nodes plan
      = launch_nodes
          (example_relaunch_node _worker_manager
             (Node.set_relaunch_count 1 (node error_event)) true
             (_job_nodes
                (update_job_node_ctx (node error_event)
                   (_job_context (example_manager [example_worker 4]))))).1.1
    ∧ _pending_relaunch_count self' = 0.
Proof.
  pose proof (process_event_relaunch example_MAX_MEMORY false
                example_oom_resource example_state_flow example_update_info
                example_relaunch_node example_get_ps_addrs no_pods
                error_event (example_manager [example_worker 4])
                (example_worker 4) running_to_failed) as H.
  cbv zeta in H.
  destruct H as (plan0 & node0 & job_nodes0 & plan & self' & Hrel & Hrun
                 & Hplans & Hlaunch & _ & _ & Hcount).
  - discriminate.
  - discriminate.
  - reflexivity.
  - reflexivity.
  - discriminate.
  - reflexivity.
  - reflexivity.
  - reflexivity.
  - discriminate.
  - discriminate.
  - discriminate.
  - discriminate.
  - intros _. reflexivity.
  - exists plan, self'. split; [exact Hrun|]. split; [exact Hplans|].
    split; [|exact Hcount].
    rewrite Hlaunch. vm_compute in Hrel. injection Hrel as <- _ _.
    vm_compute. reflexivity.
Defined.

(** X20 on a history in which worker 4 is relaunched as worker 5 before the
    job is stopped and cleared. *)
Lemma store_stays_well_keyed_witness :
  ∃ n,
    job_node
      (_job_context
         (example_run_operations
            [op_process_event no_pods killed_event; op_stop;
             op_clear_all_nodes]
            (example_manager [example_worker 4])))
      NodeType.WORKER 5 = Some n
    ∧ Node.type n = NodeType.WORKER ∧ Node.id n = 5.
Proof.
  pose proof (store_stays_well_keyed example_MAX_MEMORY false
                example_oom_resource example_state_flow example_update_info
                example_relaunch_node example_get_ps_addrs example_exited
                example_get_worker_eval_time
                [op_process_event no_pods killed_event; op_stop;
                 op_clear_all_nodes]
                (example_manager [example_worker 4])
                example_relaunch_node_well_keyed
                (example_manager_well_keyed [example_worker 4]
                   ltac:(repeat constructor))) as Hwk.
  destruct (job_node
              (_job_context
                 (example_run_operations
                    [op_process_event no_pods killed_event; op_stop;
                     op_clear_all_nodes]
                    (example_manager [example_worker 4])))
              NodeType.WORKER 5) as [n|] eqn:Hnode.
  - exists n. split; [reflexivity|].
    apply job_node_Some in Hnode as (nodes & Hns & Hn).
    exact (Hwk _ _ _ _ Hns Hn).
  - vm_compute in Hnode. discriminate.
Defined.
